(** * Static-Code-Analyzer: a model of [code_analyzer.py]

    The development follows the class [StaticCodeAnalyzer]: the boundary
    scanner [find_boundaries], the seven line checks [check_s001] ..
    [check_s007], the five tree checks [check_s008] .. [check_s012], the
    registry [self.issues] and its reporter [show_msgs].

    Python values are modelled as follows.
    - A [str] that is indexed (a source line) is a [list ascii]; a [str]
      that is only compared or used as a key (a file name, an issue code, an
      identifier) is a [string].  Characters are code points below 256.
    - An [int] is a [Z]; indexing and slicing follow Python, negative
      positions included.
    - A [dict] is a [gmap]; a missing key raises [KeyError].
    - A [set] is the list of its elements in iteration order, without
      repetition.  Python fixes no iteration order for a set of strings (it
      follows the hash values), so every statement about the reporter
      quantifies over that order.
    - An exception ends the computation: operations return [result].  The
      exceptions of the library calls (listing a directory, opening and
      reading a file, parsing a text) are given by the environment [env]. *)

From Stdlib Require Import Ascii String.
From stdpp Require Import gmap strings list sorting pretty.

Local Open Scope Z_scope.

(** ** Python sequences *)

Definition chars (s : string) : list ascii := list_ascii_of_string s.

Definition py_len {A} (l : list A) : Z := Z.of_nat (length l).

(** [l[i]]: a negative [i] counts from the end; [None] stands for
    [IndexError]. *)
Definition py_index {A} (l : list A) (i : Z) : option A :=
  if bool_decide (0 ≤ i) then l !! Z.to_nat i
  else if bool_decide (0 ≤ py_len l + i) then l !! Z.to_nat (py_len l + i)
  else None.

(** The bound of a slice, as [slice.indices] clamps it. *)
Definition py_clamp {A} (l : list A) (i : Z) : nat :=
  if bool_decide (i < 0) then Z.to_nat (Z.max 0 (py_len l + i))
  else Z.to_nat (Z.min i (py_len l)).

(** [l[a:b]] and [l[a:]]. *)
Definition py_slice {A} (l : list A) (a b : Z) : list A :=
  take (py_clamp l b - py_clamp l a)%nat (drop (py_clamp l a) l).

Definition py_slice_from {A} (l : list A) (a : Z) : list A :=
  drop (py_clamp l a) l.

(** [range(n)]. *)
Definition py_range (n : Z) : list Z := seqZ 0 n.

(** [enumerate(l, start=1)]. *)
Definition enumerate1 {A} (l : list A) : list (Z * A) :=
  zip (seqZ 1 (py_len l)) l.

(** ** The boundary scanner *)

Record boundaries := Boundaries {
  b_head : list Z;
  b_tail : list Z;
  b_comment : option Z
}.

(** The characters the scanner looks at.  [dquote] is the double quote and
    [newline] the line feed. *)
Definition dquote : ascii := "034"%char.
Definition squote : ascii := "039"%char.
Definition hash : ascii := "#"%char.
Definition backslash : ascii := "\"%char.
Definition newline : ascii := "010"%char.

Definition is_quote_or_hash (c : option ascii) : bool :=
  bool_decide (c = Some squote) || bool_decide (c = Some dquote)
  || bool_decide (c = Some hash).

(** The list comprehension [quotes]: the positions of the line that hold a
    single quote, a double quote or a hash sign, in ascending order. *)
Definition quotes (line : list ascii) : list Z :=
  filter (λ i, is_quote_or_hash (py_index line i) = true) (py_range (py_len line)).

(** The loop [for i in quotes] of [find_boundaries], with its local
    variables [string_opened], [quote] and [res] as arguments. *)
Fixpoint scan (line : list ascii) (qs : list Z)
    (string_opened : bool) (quote : option ascii) (res : boundaries) : boundaries :=
  match qs with
  | [] => res
  | i :: qs' =>
    if bool_decide (py_index line i = Some hash) && negb string_opened then
      Boundaries (b_head res) (b_tail res) (Some i)
    else if negb string_opened then
      scan line qs' true (py_index line i)
           (Boundaries (b_head res ++ [i]) (b_tail res) (b_comment res))
    else if negb (bool_decide (py_index line i = quote))
            || bool_decide (py_index line (i - 1) = Some backslash) then
      scan line qs' string_opened quote res
    else
      scan line qs' false quote
           (Boundaries (b_head res) (b_tail res ++ [i]) (b_comment res))
  end.

Definition find_boundaries (line : list ascii) : boundaries :=
  scan line (quotes line) false None (Boundaries [] [] None).

(** ** Character classes and regular expressions

    The module [re] is used through [re.compile(p).match(s)] and
    [re.match(p, s)] only, and only the truth value of the result is read.
    A pattern is a [regex]; [re_match] decides whether some prefix of the
    subject is in its language, by derivatives. *)

Definition code_point (c : ascii) : Z := Z.of_N (N_of_ascii c).

Definition in_range (lo hi : Z) (c : ascii) : bool :=
  (lo <=? code_point c) && (code_point c <=? hi).

(** [str.isspace], which is also the class [\s] of a [str] pattern. *)
Definition is_space (c : ascii) : bool :=
  in_range 9 13 c || in_range 28 32 c
  || (code_point c =? 133) || (code_point c =? 160).

(** The class [\d].  In a [str] pattern it holds every Unicode decimal
    digit; those with a code point below 256, the characters of this model,
    are the digits 0 to 9. *)
Definition is_digit (c : ascii) : bool := in_range 48 57 c.

Definition is_lower (c : ascii) : bool := in_range 97 122 c.
Definition is_upper (c : ascii) : bool := in_range 65 90 c.

(** The class [\w]: alphanumeric characters and the underscore. *)
Definition is_word (c : ascii) : bool :=
  is_digit c || is_lower c || is_upper c || (code_point c =? 95)
  || (code_point c =? 170) || (code_point c =? 178) || (code_point c =? 179)
  || (code_point c =? 181) || (code_point c =? 185) || (code_point c =? 186)
  || in_range 188 190 c || in_range 192 214 c || in_range 216 246 c
  || in_range 248 255 c.

(** The dot: any character but the line feed. *)
Definition is_dot (c : ascii) : bool := negb (bool_decide (c = newline)).

Definition is_char (a : ascii) (c : ascii) : bool := bool_decide (c = a).

(** A letter under [re.IGNORECASE]. *)
Definition is_char_ci (lo up : ascii) (c : ascii) : bool :=
  bool_decide (c = lo) || bool_decide (c = up).

Inductive regex :=
  | Never
  | Eps
  | Class (p : ascii → bool)
  | Cat (r1 r2 : regex)
  | Alt (r1 r2 : regex)
  | Star (r : regex).

Definition Plus (r : regex) : regex := Cat r (Star r).
Definition Opt (r : regex) : regex := Alt r Eps.

Fixpoint nullable (r : regex) : bool :=
  match r with
  | Never => false
  | Eps => true
  | Class _ => false
  | Cat r1 r2 => nullable r1 && nullable r2
  | Alt r1 r2 => nullable r1 || nullable r2
  | Star _ => true
  end.

Fixpoint deriv (c : ascii) (r : regex) : regex :=
  match r with
  | Never => Never
  | Eps => Never
  | Class p => if p c then Eps else Never
  | Cat r1 r2 =>
    if nullable r1 then Alt (Cat (deriv c r1) r2) (deriv c r2)
    else Cat (deriv c r1) r2
  | Alt r1 r2 => Alt (deriv c r1) (deriv c r2)
  | Star r1 => Cat (deriv c r1) (Star r1)
  end.

(** [bool(pattern.match(s))]: the pattern matches at the start of [s]. *)
Fixpoint re_match (r : regex) (s : list ascii) : bool :=
  nullable r ||
  match s with
  | [] => false
  | c :: s' => re_match (deriv c r) s'
  end.

(** The whole of [s] is in the language of [r]. *)
Fixpoint re_fullmatch (r : regex) (s : list ascii) : bool :=
  match s with
  | [] => nullable r
  | c :: s' => re_fullmatch (deriv c r) s'
  end.

(** [bool(re.match(p + "$", s))]: the dollar stands at the end of the
    subject or before a line feed that ends it. *)
Definition re_match_dollar (r : regex) (s : list ascii) : bool :=
  re_fullmatch r s ||
  match last s with
  | Some c => bool_decide (c = newline) && re_fullmatch r (removelast s)
  | None => false
  end.

(** The language of a pattern. *)
Inductive matches : regex → list ascii → Prop :=
  | M_eps : matches Eps []
  | M_class p c : p c = true → matches (Class p) [c]
  | M_cat r1 r2 s1 s2 : matches r1 s1 → matches r2 s2 → matches (Cat r1 r2) (s1 ++ s2)
  | M_alt_l r1 r2 s : matches r1 s → matches (Alt r1 r2) s
  | M_alt_r r1 r2 s : matches r2 s → matches (Alt r1 r2) s
  | M_star_nil r : matches (Star r) []
  | M_star_cons r s1 s2 : matches r s1 → matches (Star r) s2 → matches (Star r) (s1 ++ s2).

(** The patterns of the analyzer. *)

(** [#.*\s+TODO\s+.*] under [re.IGNORECASE]. *)
Definition todo_word : regex :=
  Cat (Class (is_char_ci "t" "T")) (Cat (Class (is_char_ci "o" "O"))
    (Cat (Class (is_char_ci "d" "D")) (Class (is_char_ci "o" "O")))).

Definition pattern_todo : regex :=
  Cat (Class (is_char hash)) (Cat (Star (Class is_dot))
    (Cat (Plus (Class is_space)) (Cat todo_word
      (Cat (Plus (Class is_space)) (Star (Class is_dot)))))).

Definition literal (s : string) : regex :=
  foldr (λ c r, Cat (Class (is_char c)) r) Eps (chars s).

(** The class [[\w\S\D]]. *)
Definition is_w_S_D (c : ascii) : bool :=
  is_word c || negb (is_space c) || negb (is_digit c).

(** [\s*KEYWORD\s{2,}[\w\S\D]+([(].*[)])?:] *)
Definition pattern_keyword (kw : string) : regex :=
  Cat (Star (Class is_space)) (Cat (literal kw)
    (Cat (Cat (Class is_space) (Plus (Class is_space)))
      (Cat (Plus (Class is_w_S_D))
        (Cat (Opt (Cat (Class (is_char "(")) (Cat (Star (Class is_dot)) (Class (is_char ")")))))
          (Class (is_char ":")))))).

Definition pattern_def : regex := pattern_keyword "def".
Definition pattern_class : regex := pattern_keyword "class".

(** [^[a-z\d_]+$] *)
Definition is_snake_case (s : string) : bool :=
  re_match_dollar (Plus (Class (λ c, is_lower c || is_digit c || is_char "_" c))) (chars s).

(** [^([A-Z][a-z\d]+)+$] *)
Definition is_camel_case (s : string) : bool :=
  re_match_dollar
    (Plus (Cat (Class is_upper) (Plus (Class (λ c, is_lower c || is_digit c))))) (chars s).

(** ** Exceptions *)

(** The exceptions of a run.  The analyzer itself raises [KeyError],
    [TypeError] and [SystemExit]; the others come from the library calls it
    makes and catches nowhere. *)
Inductive exn :=
  | KeyError | TypeError | SyntaxError | OSError | SystemExit
  | ValueError | UnicodeDecodeError | RecursionError.

Inductive result (A : Type) :=
  | Ok (a : A)
  | Raise (e : exn).
Arguments Ok {A} a.
Arguments Raise {A} e.

#[global] Instance result_ret : MRet result := λ A a, Ok a.
#[global] Instance result_bind : MBind result := λ A B f m,
  match m with
  | Ok a => f a
  | Raise e => Raise e
  end.

(** ** The registry *)

(** An element of a set of [self.issues]: a code such as [S001], or a pair
    of a code and a name such as [(S007, def)]. *)
Inductive issue :=
  | Plain (code : string)
  | Named (code name : string).

#[global] Instance issue_eq_dec : EqDecision issue.
Proof. solve_decision. Defined.

(** [set.add]: nothing changes when the element is there. *)
Definition set_add (x : issue) (s : list issue) : list issue :=
  if bool_decide (x ∈ s) then s else s ++ [x].

(** The syntax tree, as far as the checks read it.  [FunctionDef] carries
    [node.args.args] (name and line of each) and [node.args.defaults] (kind
    and line of each). *)
Inductive expr_context := Load | Store | Del.
Inductive expr_kind := EList | EDict | ESet | EOther.

Record arg := Arg { arg_name : string; arg_lineno : Z }.
Record default_expr := Default { d_kind : expr_kind; d_lineno : Z }.

Inductive node :=
  | ClassDef (name : string) (lineno : Z)
  | FunctionDef (name : string) (lineno : Z) (args : list arg) (defaults : list default_expr)
  | Name (id : string) (ctx : expr_context) (lineno : Z)
  | Attribute (attr : string) (ctx : expr_context) (lineno : Z)
  | OtherNode.

(** What the analyzer asks of the operating system and of the module [ast].
    [file_text] is the decoded text of a file, line ends translated to line
    feeds as [open(name, 'r')] does, or [None] when [open] or [readlines]
    raises; [read_error] is then the exception raised: an [OSError] for a
    file that cannot be opened or read, a [UnicodeDecodeError] for one whose
    bytes do not decode.  [ast_walk] is [ast.walk(ast.parse(text))]: the
    nodes of the tree, or [None] when [ast.parse] raises; [parse_error] is
    then the exception raised: a [SyntaxError] for a text that is not
    Python, a [ValueError] for a text with a null character where the
    interpreter refuses it that way, a [RecursionError] for a text nested
    too deeply.  [listdir_error] is the exception that [os.listdir] raises,
    if any, such as the [OSError] of a directory that may not be read. *)
Record env := Env {
  isdir : string → bool;
  isfile : string → bool;
  listdir : string → list string;
  path_join : string → string → string;
  file_text : string → option (list ascii);
  ast_walk : list ascii → option (list node);
  listdir_error : string → option exn;
  read_error : string → exn;
  parse_error : list ascii → exn
}.

(** [file.readlines()]: every line keeps the line feed that ends it. *)
Fixpoint readlines (text : list ascii) : list (list ascii) :=
  match text with
  | [] => []
  | c :: text' =>
    if bool_decide (c = newline) then [c] :: readlines text'
    else match readlines text' with
         | [] => [[c]]
         | l :: ls => (c :: l) :: ls
         end
  end.

(** The attributes of a [StaticCodeAnalyzer]. *)
Record analyzer := Analyzer {
  dir : option string;
  filenames : list string;
  code : gmap string (list (list ascii));
  issues : gmap string (gmap Z (list issue))
}.

Definition max_len : Z := 79.
Definition indentation : Z := 4.

(** [__init__] *)
Definition init : analyzer := Analyzer None [] ∅ ∅.

Definition set_issues (a : analyzer) (iss : gmap string (gmap Z (list issue))) : analyzer :=
  Analyzer (dir a) (filenames a) (code a) iss.

(** [self.issues[file][i].add(x)] *)
Definition add_issue (file : string) (i : Z) (x : issue) (a : analyzer) : result analyzer :=
  match issues a !! file with
  | None => Raise KeyError
  | Some lines =>
    match lines !! i with
    | None => Raise KeyError
    | Some s => Ok (set_issues a (<[file := <[i := set_add x s]> lines]> (issues a)))
    end
  end.

(** A [for] loop whose body updates the analyzer. *)
Fixpoint for_each {A} (l : list A) (body : A → analyzer → result analyzer)
    (a : analyzer) : result analyzer :=
  match l with
  | [] => Ok a
  | x :: l' => a' ← body x a; for_each l' body a'
  end.

(** [for i, line in enumerate(self.code.get(file), start=1)]: iterating
    over [None] is a [TypeError]. *)
Definition for_lines (file : string) (body : Z → list ascii → analyzer → result analyzer)
    (a : analyzer) : result analyzer :=
  match code a !! file with
  | None => Raise TypeError
  | Some lines => for_each (enumerate1 lines) (λ il, body il.1 il.2) a
  end.

Definition when (b : bool) (f : analyzer → result analyzer) (a : analyzer) : result analyzer :=
  if b then f a else Ok a.

(** ** The line checks *)

Definition s001_line (line : list ascii) : bool := bool_decide (py_len line > max_len).

Definition check_s001 (file : string) : analyzer → result analyzer :=
  for_lines file (λ i line, when (s001_line line) (add_issue file i (Plain "S001"))).

(** [line.lstrip()] and [line.strip()] *)
Fixpoint lstrip (line : list ascii) : list ascii :=
  match line with
  | [] => []
  | c :: line' => if is_space c then lstrip line' else line
  end.
Definition strip (line : list ascii) : list ascii :=
  reverse (lstrip (reverse (lstrip line))).

Definition s002_line (line : list ascii) : bool :=
  bool_decide (py_len (lstrip line) > 0)
  && bool_decide ((py_len line - py_len (lstrip line)) `mod` indentation > 0).

Definition check_s002 (file : string) : analyzer → result analyzer :=
  for_lines file (λ i line, when (s002_line line) (add_issue file i (Plain "S002"))).

(** [[j for j in range(len(line)) if line[j] == ';']] *)
Definition semicolons (line : list ascii) : list Z :=
  filter (λ j, py_index line j = Some ";"%char) (py_range (py_len line)).

(** The body of [for j in semicolons], up to the test [if not found]. *)
Definition s003_found (line : list ascii) (j : Z) : bool :=
  let borders := find_boundaries line in
  let found :=
    existsb (λ ht, (ht.1 <? j) && (j <? ht.2)) (zip (b_head borders) (b_tail borders)) in
  match b_comment borders with
  | Some c => if j >? c then true else found
  | None => found
  end.

(** The loop [for j in semicolons]: the position at which [S003] is added
    and the loop left, if any. *)
Fixpoint s003_loop (line : list ascii) (js : list Z) : option Z :=
  match js with
  | [] => None
  | j :: js' => if negb (s003_found line j) then Some j else s003_loop line js'
  end.

Definition s003_line (line : list ascii) : option Z := s003_loop line (semicolons line).

Definition check_s003 (file : string) : analyzer → result analyzer :=
  for_lines file (λ i line,
    when (bool_decide (is_Some (s003_line line))) (add_issue file i (Plain "S003"))).

Definition two_spaces : list ascii := chars "  ".

Definition s004_line (line : list ascii) : bool :=
  match b_comment (find_boundaries line) with
  | Some pos =>
    negb (pos =? 0)
    && ((pos =? 1) || ((pos >? 2) && negb (bool_decide (py_slice line (pos - 2) pos = two_spaces))))
  | None => false
  end.

Definition check_s004 (file : string) : analyzer → result analyzer :=
  for_lines file (λ i line, when (s004_line line) (add_issue file i (Plain "S004"))).

Definition s005_line (line : list ascii) : bool :=
  match b_comment (find_boundaries line) with
  | Some pos => re_match pattern_todo (py_slice_from line pos)
  | None => false
  end.

Definition check_s005 (file : string) : analyzer → result analyzer :=
  for_lines file (λ i line, when (s005_line line) (add_issue file i (Plain "S005"))).

(** The loop of [check_s006], with its counter [count]. *)
Fixpoint s006_loop (file : string) (l : list (Z * list ascii)) (count : Z)
    (a : analyzer) : result analyzer :=
  match l with
  | [] => Ok a
  | (i, line) :: l' =>
    if bool_decide (py_len (strip line) = 0) then s006_loop file l' (count + 1) a
    else
      a' ← when (bool_decide (count > 2)) (add_issue file i (Plain "S006")) a;
      s006_loop file l' 0 a'
  end.

Definition check_s006 (file : string) (a : analyzer) : result analyzer :=
  match code a !! file with
  | None => Raise TypeError
  | Some lines => s006_loop file (enumerate1 lines) 0 a
  end.

Definition check_s007 (file : string) : analyzer → result analyzer :=
  for_lines file (λ i line a,
    if re_match pattern_def line then add_issue file i (Named "S007" "def") a
    else if re_match pattern_class line then add_issue file i (Named "S007" "class") a
    else Ok a).

(** ** The tree checks *)

Definition check_s008 (file : string) (n : node) : analyzer → result analyzer :=
  match n with
  | ClassDef name lineno =>
    when (negb (is_camel_case name)) (add_issue file lineno (Named "S008" name))
  | _ => Ok
  end.

Definition check_s009 (file : string) (n : node) : analyzer → result analyzer :=
  match n with
  | FunctionDef name lineno _ _ =>
    when (negb (is_snake_case name)) (add_issue file lineno (Named "S009" name))
  | _ => Ok
  end.

Definition check_s010 (file : string) (n : node) : analyzer → result analyzer :=
  match n with
  | FunctionDef _ _ args _ =>
    for_each args (λ a,
      when (negb (is_snake_case (arg_name a)))
           (add_issue file (arg_lineno a) (Named "S010" (arg_name a))))
  | _ => Ok
  end.

Definition check_s011 (file : string) (n : node) : analyzer → result analyzer :=
  match n with
  | Name id Store lineno =>
    when (negb (is_snake_case id)) (add_issue file lineno (Named "S011" id))
  | Attribute attr Store lineno =>
    when (negb (is_snake_case attr)) (add_issue file lineno (Named "S011" attr))
  | _ => Ok
  end.

(** [isinstance(d, (ast.List, ast.Dict, ast.Set))] *)
Definition is_mutable (d : default_expr) : bool :=
  match d_kind d with
  | EList | EDict | ESet => true
  | EOther => false
  end.

Definition check_s012 (file : string) (n : node) : analyzer → result analyzer :=
  match n with
  | FunctionDef _ _ _ defaults =>
    for_each defaults (λ d, when (is_mutable d) (add_issue file (d_lineno d) (Plain "S012")))
  | _ => Ok
  end.

Section analyzer.
Variable E : env.

(** [ast.parse(''.join(self.code.get(file)))] and the walk over its nodes;
    joining [None] is a [TypeError], and the exception of [ast.parse] is not
    caught. *)
Definition check_ast (file : string) (a : analyzer) : result analyzer :=
  match code a !! file with
  | None => Raise TypeError
  | Some lines =>
    match ast_walk E (concat lines) with
    | None => Raise (parse_error E (concat lines))
    | Some nodes =>
      for_each nodes (λ n a,
        a ← check_s008 file n a;
        a ← check_s009 file n a;
        a ← check_s010 file n a;
        a ← check_s011 file n a;
        check_s012 file n a) a
    end
  end.

Definition get_filenames (a : analyzer) : result analyzer :=
  match dir a with
  | None => Raise TypeError
  | Some d =>
    if isdir E d then
      match listdir_error E d with
      | Some e => Raise e
      | None =>
        Ok (Analyzer (dir a)
              (filter (λ p, isfile E p = true) (path_join E d <$> listdir E d))
              (code a) (issues a))
      end
    else Ok (Analyzer (dir a) (filenames a ++ [d]) (code a) (issues a))
  end.

(** [{i: set() for i in range(1, len(lines) + 1)}] *)
Definition empty_sets (lines : list (list ascii)) : gmap Z (list issue) :=
  list_to_map ((λ i, (i, [])) <$> seqZ 1 (py_len lines)).

(** The body of the loop of [get_code]: the exception of [open] or of
    [readlines] is not caught. *)
Definition read_file (name : string) (a : analyzer) : result analyzer :=
  match file_text E name with
  | None => Raise (read_error E name)
  | Some text =>
    Ok (Analyzer (dir a) (filenames a) (<[name := readlines text]> (code a))
          (<[name := empty_sets (readlines text)]> (issues a)))
  end.

Definition get_code (a : analyzer) : result analyzer :=
  for_each (filenames a) read_file a.

(** The seven line checks of one file, in the order of [make_analyze]. *)
Definition line_checks (file : string) (a : analyzer) : result analyzer :=
  a ← check_s001 file a;
  a ← check_s002 file a;
  a ← check_s003 file a;
  a ← check_s004 file a;
  a ← check_s005 file a;
  a ← check_s006 file a;
  check_s007 file a.

Definition analyze_file (file : string) (a : analyzer) : result analyzer :=
  a ← line_checks file a;
  check_ast file a.

Definition make_analyze (a : analyzer) : result analyzer :=
  a ← get_filenames a;
  a ← get_code a;
  for_each (filenames a) analyze_file a.
End analyzer.

(** ** The reporter *)

(** [sorted(l, key=...)], a stable sort, for the order [le] on the keys. *)
Fixpoint insert_by {A} (le : A → A → bool) (x : A) (l : list A) : list A :=
  match l with
  | [] => [x]
  | y :: l' => if le x y then x :: l else y :: insert_by le x l'
  end.

Fixpoint sorted_by {A} (le : A → A → bool) (l : list A) : list A :=
  match l with
  | [] => []
  | x :: l' => insert_by le x (sorted_by le l')
  end.

(** [lambda x: x[0] if isinstance(x, tuple) else x] *)
Definition issue_key (x : issue) : string :=
  match x with
  | Plain c => c
  | Named c _ => c
  end.

Definition issue_name (x : issue) : option string :=
  match x with
  | Plain _ => None
  | Named _ n => Some n
  end.

(** The order of [sorted] on those keys. *)
Definition issue_le (x y : issue) : bool := String.leb (issue_key x) (issue_key y).

(** One call of [show_msg]: its keyword arguments. *)
Record report := Report { r_file : string; r_line : Z; r_issue : issue }.

(** The calls of [show_msg] that [show_msgs] makes, in order. *)
Definition show_msgs_calls (iss : gmap string (gmap Z (list issue))) : list report :=
  '(file, lines) ← sorted_by (λ x y, String.leb x.1 y.1) (map_to_list iss);
  '(line, s) ← sorted_by (λ x y, x.1 <=? y.1) (map_to_list lines);
  Report file line <$> sorted_by issue_le s.

(** The table [msgs]; the entries of [S007] .. [S011] are templates in
    [$name]. *)
Definition named_codes : list string := ["S007"; "S008"; "S009"; "S010"; "S011"]%string.

Definition msgs_template (msg_code name : string) : string :=
  (if bool_decide (msg_code = "S007") then "Too many spaces after '" +:+ name +:+ "'"
   else if bool_decide (msg_code = "S008") then "Class name '" +:+ name +:+ "' should use CamelCase"
   else if bool_decide (msg_code = "S009") then "Function name '" +:+ name +:+ "' should use snake_case"
   else if bool_decide (msg_code = "S010") then "Argument name '" +:+ name +:+ "' should be snake_case"
   else "Variable '" +:+ name +:+ "' in function should be snake_case")%string.

Definition msgs_text (msg_code : string) : string :=
  (if bool_decide (msg_code = "S001") then "Too long"
   else if bool_decide (msg_code = "S002") then "Indentation is not a multiple of four"
   else if bool_decide (msg_code = "S003") then "Unnecessary semicolon"
   else if bool_decide (msg_code = "S004") then "At least two spaces required before inline comments"
   else if bool_decide (msg_code = "S005") then "TODO found"
   else if bool_decide (msg_code = "S006") then "More than two blank lines used before this line"
   else if bool_decide (msg_code = "S012") then "Default argument value is mutable"
   else "None")%string.

(** [show_msg]: the line it prints. *)
Definition show_msg (r : report) : string :=
  let msg_code := issue_key (r_issue r) in
  let msg :=
    if bool_decide (msg_code ∈ named_codes)
    then msgs_template msg_code (default "None"%string (issue_name (r_issue r)))
    else msgs_text msg_code in
  (r_file r +:+ ": Line " +:+ pretty (r_line r) +:+ ": " +:+ msg_code +:+ " " +:+ msg)%string.

(** [show_msgs]: the lines it prints. *)
Definition show_msgs (a : analyzer) : list string := show_msg <$> show_msgs_calls (issues a).

(** [get_user_input], given [sys.argv]: what it prints, and its outcome. *)
Definition get_user_input (argv : list string) (a : analyzer) : list string * result analyzer :=
  if bool_decide (length argv ≠ 2%nat)
  then (["Wrong number of arguments!"%string], Raise SystemExit)
  else ([], Ok (Analyzer (argv !! 1%nat) (filenames a) (code a) (issues a))).

(** [main]: the lines printed, and the exception that ends the run, if
    any. *)
Definition main (E : env) (argv : list string) : list string * option exn :=
  match get_user_input argv init with
  | (out, Raise e) => (out, Some e)
  | (out, Ok a) =>
    match make_analyze E a with
    | Raise e => (out, Some e)
    | Ok a' => (out ++ show_msgs a', None)
    end
  end.

(** A file system with one file, and its run.  No other file exists
    ([open] raises [FileNotFoundError], an [OSError]), and a text without
    tree is not Python ([ast.parse] raises [SyntaxError]). *)
Definition one_file (name : string) (text : string) (nodes : option (list node)) : env :=
  Env (λ _, false) (λ p, bool_decide (p = name)) (λ _, [])
      (λ d p, (d +:+ "/" +:+ p)%string)
      (λ p, if bool_decide (p = name) then Some (chars text) else None)
      (λ src, if bool_decide (src = chars text) then nodes else Some [])
      (λ _, None) (λ _, OSError) (λ _, SyntaxError).

Definition nl : string := String newline EmptyString.

(** A directory [d] with the files [a.py] and [b.py], listed in that
    order; [nodes_a] is [None] when [a.py] does not parse. *)
Definition two_files (text_a text_b : string) (nodes_a : option (list node))
    (nodes_b : list node) : env :=
  Env (λ p, bool_decide (p = "d"%string))
      (λ p, bool_decide (p = "d/a.py"%string) || bool_decide (p = "d/b.py"%string))
      (λ _, ["a.py"; "b.py"]%string)
      (λ d p, (d +:+ "/" +:+ p)%string)
      (λ p, if bool_decide (p = "d/a.py"%string) then Some (chars text_a)
            else if bool_decide (p = "d/b.py"%string) then Some (chars text_b)
            else None)
      (λ src, if bool_decide (src = chars text_a) then nodes_a else Some nodes_b)
      (λ _, None) (λ _, OSError) (λ _, SyntaxError).

(** A directory [d] with the files [a.py], [b.py] and [c.py], listed in
    that order.  The bytes of [c.py] do not decode when [text_c] is [None];
    [nodes_b] is [None] when [b.py] does not parse. *)
Definition three_files (text_a text_b : string) (text_c : option string)
    (nodes_a : list node) (nodes_b : option (list node)) (nodes_c : list node) : env :=
  Env (λ p, bool_decide (p = "d"%string))
      (λ p, bool_decide (p = "d/a.py"%string) || bool_decide (p = "d/b.py"%string)
            || bool_decide (p = "d/c.py"%string))
      (λ _, ["a.py"; "b.py"; "c.py"]%string)
      (λ d p, (d +:+ "/" +:+ p)%string)
      (λ p, if bool_decide (p = "d/a.py"%string) then Some (chars text_a)
            else if bool_decide (p = "d/b.py"%string) then Some (chars text_b)
            else if bool_decide (p = "d/c.py"%string) then chars <$> text_c
            else None)
      (λ src, if bool_decide (src = chars text_b) then nodes_b
              else if bool_decide (src = chars text_a) then Some nodes_a
              else Some nodes_c)
      (λ _, None)
      (λ p, if bool_decide (p = "d/c.py"%string) then UnicodeDecodeError else OSError)
      (λ _, SyntaxError).

(** * The vocabulary of the statements *)

(** The positions [quotes] holds from [lo] on. *)
Definition quotes_from (line : list ascii) (lo : Z) : list Z :=
  filter (λ i, is_quote_or_hash (py_index line i) = true) (seqZ lo (py_len line - lo)).

(** A position is inside a reported span when it lies strictly between a
    head and the tail paired with it. *)
Definition inside (res : boundaries) (p : Z) : Prop :=
  ∃ h t, (h, t) ∈ zip (b_head res) (b_tail res) ∧ h < p < t.

(** The shape of [res] when a string is open (one head more than tails, and
    it lies after every tail) and when none is. *)
Definition shape (opened : bool) (res : boundaries) : Prop :=
  if opened then
    ∃ hs h, b_head res = hs ++ [h] ∧ length hs = length (b_tail res)
            ∧ Forall (λ t, t < h) (b_tail res)
  else length (b_head res) = length (b_tail res).

(** What holds of the loop variables when the positions below [lo] have
    been visited. *)
Record scan_inv (line : list ascii) (lo : Z) (opened : bool) (quote : option ascii)
    (res : boundaries) : Prop := ScanInv {
  inv_comment : b_comment res = None;
  inv_head : Forall (λ h, 0 ≤ h < lo) (b_head res);
  inv_tail : Forall (λ t, 0 ≤ t < lo) (b_tail res);
  inv_shape : shape opened res;
  inv_quote : opened = true → quote ≠ Some hash;
  inv_hash : ∀ p, 0 ≤ p < lo → py_index line p = Some hash →
    inside res p ∨ (opened = true ∧ ∃ h, last (b_head res) = Some h ∧ h < p)
}.

(** What holds of the result of the scan. *)
Definition scan_post (line : list ascii) (r : boundaries) : Prop :=
  match b_comment r with
  | Some c =>
    0 ≤ c < py_len line ∧ py_index line c = Some hash
    ∧ scan_inv line c false None (Boundaries (b_head r) (b_tail r) None)
  | None => ∃ opened quote, scan_inv line (py_len line) opened quote r
  end.

(** A semicolon that the check counts as code: outside every completed
    span and before the comment offset, if there is one. *)
Definition stray (line : list ascii) (j : Z) : Prop :=
  0 ≤ j ∧ py_index line j = Some ";"%char
  ∧ (∀ h t, (h, t) ∈ zip (b_head (find_boundaries line)) (b_tail (find_boundaries line)) →
       ¬ (h < j < t))
  ∧ (∀ c, b_comment (find_boundaries line) = Some c → j < c).

(** The analyzer [a'] has the attributes of [a], and its registry the keys
    of the registry of [a]. *)
Definition same_keys (a a' : analyzer) : Prop :=
  dir a' = dir a ∧ filenames a' = filenames a ∧ code a' = code a
  ∧ ∀ f, dom <$> (issues a' !! f) = dom <$> (issues a !! f).

(** The registry has a set for every line of [file]. *)
Definition keys_ok (file : string) (a : analyzer) : Prop :=
  ∃ lines m, code a !! file = Some lines ∧ issues a !! file = Some m
             ∧ ∀ i, 1 ≤ i ≤ py_len lines → is_Some (m !! i).

(** A step that leaves the analyzer alone or adds an issue at line [i]. *)
Definition add_like (file : string) (i : Z) (f : analyzer → result analyzer) : Prop :=
  ∀ a, f a = Ok a ∨ ∃ x, f a = add_issue file i x a.

(** In a line that [readlines] returns, a line feed is the last character. *)
Definition line_of_file (line : list ascii) : Prop :=
  ∀ i : nat, line !! i = Some newline → S i = length line.

(** The four letters, in either case. *)
Definition todo_letters (a b c d : ascii) : Prop :=
  is_char_ci "t" "T" a = true ∧ is_char_ci "o" "O" b = true
  ∧ is_char_ci "d" "D" c = true ∧ is_char_ci "o" "O" d = true.

(** The text holds the four letters with a whitespace character right
    before and right after them. *)
Definition todo_token (text : list ascii) : Prop :=
  ∃ pre w1 a b c d w2 post,
    text = pre ++ w1 :: a :: b :: c :: d :: w2 :: post
    ∧ is_space w1 = true ∧ todo_letters a b c d ∧ is_space w2 = true.

(** The order of the report: by file, then by line, then by code. *)
Definition report_le (r1 r2 : report) : Prop :=
  (String.leb (r_file r1) (r_file r2) = true ∧ r_file r1 ≠ r_file r2)
  ∨ (r_file r1 = r_file r2
     ∧ (r_line r1 < r_line r2
        ∨ (r_line r1 = r_line r2
           ∧ String.leb (issue_key (r_issue r1)) (issue_key (r_issue r2)) = true))).

(** Every finding of the registry, in no particular order. *)
Definition all_records (iss : gmap string (gmap Z (list issue))) : list report :=
  '(file, lines) ← map_to_list iss;
  '(line, s) ← map_to_list lines;
  Report file line <$> s.

(** A quote character, single or double. *)
Definition is_quote (c : option ascii) : Prop := c = Some squote ∨ c = Some dquote.

(** A well-formed span: [h] holds a quote character, [t] holds the same
    one and is the first position after [h] that does so with no backslash
    right before it. *)
Definition span_ok (line : list ascii) (h t : Z) : Prop :=
  0 ≤ h < t ∧ t < py_len line
  ∧ is_quote (py_index line h)
  ∧ py_index line t = py_index line h
  ∧ py_index line (t - 1) ≠ Some backslash
  ∧ ∀ p, h < p < t → py_index line p = py_index line h →
         py_index line (p - 1) = Some backslash.

(** The heads and tails in the order of the line: each head, its tail, the
    next head, and last the unmatched head, if any. *)
Definition merged (res : boundaries) : list Z :=
  concat (zip_with (λ h t, [h; t]) (b_head res) (b_tail res))
  ++ drop (length (b_tail res)) (b_head res).

(** What holds of the spans when the positions below [lo] have been
    visited. *)
Record span_inv (line : list ascii) (lo : Z) (opened : bool) (quote : option ascii)
    (res : boundaries) : Prop := SpanInv {
  sp_pairs : ∀ h t, (h, t) ∈ zip (b_head res) (b_tail res) → span_ok line h t;
  sp_merged : StronglySorted Z.lt (merged res);
  sp_below : Forall (λ p, 0 ≤ p < lo) (merged res);
  sp_closed : opened = false → length (b_head res) = length (b_tail res);
  sp_open : opened = true →
    ∃ hs h, b_head res = hs ++ [h] ∧ length hs = length (b_tail res)
            ∧ quote = py_index line h ∧ is_quote quote
            ∧ ∀ p, h < p < lo → py_index line p = quote →
                   py_index line (p - 1) = Some backslash
}.

(** A line that [check_s006] counts as blank. *)
Definition blank (line : list ascii) : bool := bool_decide (py_len (strip line) = 0).

(** Line [i] of the file (from 1) exists and is blank; exists and is not. *)
Definition blank_line (lines : list (list ascii)) (i : Z) : Prop :=
  1 ≤ i ∧ ∃ l, lines !! Z.to_nat (i - 1) = Some l ∧ blank l = true.
Definition code_line (lines : list (list ascii)) (i : Z) : Prop :=
  1 ≤ i ∧ ∃ l, lines !! Z.to_nat (i - 1) = Some l ∧ blank l = false.

(** Position [p] is blank when the lines start at number [start] and
    [count] blank lines are counted before them. *)
Definition vblank (lines : list (list ascii)) (start count p : Z) : bool :=
  if p <? start then start - p <=? count
  else match lines !! Z.to_nat (p - start) with
       | Some l => blank l
       | None => false
       end.

(** Line [i] receives [S006] under the same reading. *)
Definition hit_from (lines : list (list ascii)) (start count i : Z) : bool :=
  (start <=? i)
  && match lines !! Z.to_nat (i - start) with
     | Some l => negb (blank l)
     | None => false
     end
  && vblank lines start count (i - 1) && vblank lines start count (i - 2)
  && vblank lines start count (i - 3).

(** The characters of a snake_case name, and those that follow the capital
    of a CamelCase segment. *)
Definition snake_char (c : ascii) : bool := is_lower c || is_digit c || is_char "_" c.
Definition lower_digit (c : ascii) : bool := is_lower c || is_digit c.

(** A name that starts with a capital letter and in which every character
    is a capital letter followed by a lowercase letter or digit, or is a
    lowercase letter or digit. *)
Definition chars_ok (s : list ascii) : Prop :=
  ∀ (i : nat) c, s !! i = Some c →
    (is_upper c = true ∧ ∃ d, s !! S i = Some d ∧ lower_digit d = true)
    ∨ lower_digit c = true.
Definition camel_shape (s : list ascii) : Prop :=
  (∃ u rest, s = u :: rest ∧ is_upper u = true) ∧ chars_ok s.

(** A segment of a CamelCase name: a capital letter and then one or more
    lowercase letters or digits. *)
Definition segment (seg : list ascii) : Prop :=
  ∃ u rest, seg = u :: rest ∧ is_upper u = true ∧ rest ≠ []
            ∧ Forall (λ c, lower_digit c = true) rest.

(** The findings of the tree checks at one node: [finding n i x] when the
    checks add [x] to the set of line [i] on meeting [n]. *)
Inductive finding : node → Z → issue → Prop :=
  | finding_class name lineno :
      is_camel_case name = false →
      finding (ClassDef name lineno) lineno (Named "S008" name)
  | finding_function name lineno args defaults :
      is_snake_case name = false →
      finding (FunctionDef name lineno args defaults) lineno (Named "S009" name)
  | finding_argument name lineno args defaults a :
      a ∈ args → is_snake_case (arg_name a) = false →
      finding (FunctionDef name lineno args defaults) (arg_lineno a)
        (Named "S010" (arg_name a))
  | finding_name id lineno :
      is_snake_case id = false →
      finding (Name id Store lineno) lineno (Named "S011" id)
  | finding_attribute attr lineno :
      is_snake_case attr = false →
      finding (Attribute attr Store lineno) lineno (Named "S011" attr)
  | finding_default name lineno args defaults d :
      d ∈ defaults → is_mutable d = true →
      finding (FunctionDef name lineno args defaults) (d_lineno d) (Plain "S012").

(** The step [f] adds to the registry of [file] the findings [R], and
    nothing else: it raises [KeyError] when the line of one of them has no
    set, and otherwise every set of the registry gains the findings of its
    line. *)
Definition adds (file : string) (lines : list (list ascii)) (R : Z → issue → Prop)
    (f : analyzer → result analyzer) : Prop :=
  ∀ a m, code a !! file = Some lines → issues a !! file = Some m →
    (f a = Raise KeyError ∧ ∃ i x, R i x ∧ m !! i = None)
    ∨ (∃ m', f a = Ok (set_issues a (<[file := m']> (issues a)))
         ∧ (∀ i x, R i x → is_Some (m !! i))
         ∧ (∀ i, m !! i = None → m' !! i = None)
         ∧ ∀ i s, m !! i = Some s →
             ∃ s', m' !! i = Some s' ∧ (NoDup s → NoDup s')
               ∧ ∀ z, z ∈ s' ↔ z ∈ s ∨ R i z).

(** The same for a step of the line checks, which is given a registry with
    a set for every line of the file and so cannot fail. *)
Definition line_adds (file : string) (lines : list (list ascii)) (R : Z → issue → Prop)
    (f : analyzer → result analyzer) : Prop :=
  ∀ a m, code a !! file = Some lines → issues a !! file = Some m →
    (∀ i, 1 ≤ i ≤ py_len lines → is_Some (m !! i)) →
    ∃ m', f a = Ok (set_issues a (<[file := m']> (issues a)))
      ∧ (∀ i, m !! i = None → m' !! i = None)
      ∧ ∀ i s, m !! i = Some s →
          ∃ s', m' !! i = Some s' ∧ (NoDup s → NoDup s')
            ∧ ∀ z, z ∈ s' ↔ z ∈ s ∨ R i z.

(** The analyzer holds [f] as [get_code] read it: its lines, and a set for
    each of their numbers and for no other number. *)
Definition read_ok (E : env) (f : string) (a : analyzer) : Prop :=
  ∃ text m, file_text E f = Some text
    ∧ code a !! f = Some (readlines text)
    ∧ issues a !! f = Some m
    ∧ ∀ i, is_Some (m !! i) ↔ 1 ≤ i ≤ py_len (readlines text).

(** An exception that is not the analyzer's own: [e] was raised by the
    listing of the directory [d], by the reading of a file, or by the parsing
    of the text of a file. *)
Definition library_raised (E : env) (d : string) (e : exn) : Prop :=
  (isdir E d = true ∧ listdir_error E d = Some e)
  ∨ (∃ f, file_text E f = None ∧ e = read_error E f)
  ∨ (∃ f text, file_text E f = Some text ∧ ast_walk E text = None ∧ e = parse_error E text).

(** A tree finding of a file at a line number that the file does not
    have. *)
Definition finding_out_of_range (E : env) : Prop :=
  ∃ f text nodes n i x,
    file_text E f = Some text ∧ ast_walk E text = Some nodes
    ∧ n ∈ nodes ∧ finding n i x ∧ ¬ (1 ≤ i ≤ py_len (readlines text)).

(** * Properties *)

(** ** The model at work *)

Example fb1 : find_boundaries (chars "x = 'a;b'  # c 'd'")
  = Boundaries [4] [8] (Some 11).
Proof. vm_compute. reflexivity. Qed.

Example snake1 : is_snake_case "my_arg2" = true ∧ is_snake_case "myArg" = false
  ∧ is_camel_case "FooBar" = true ∧ is_camel_case "fooBar" = false.
Proof. vm_compute. done. Qed.

Example kw1 : re_match pattern_def (chars "def  foo():") = true
  ∧ re_match pattern_def (chars "def foo():") = false
  ∧ re_match pattern_class (chars "  class  Foo:") = true.
Proof. vm_compute. done. Qed.

Example run1 :
  main (one_file "a.py" ("def  f(myArg, x=[]):" +:+ nl +:+ "    return x;  #todo" +:+ nl)
          (Some [FunctionDef "f" 1 [Arg "myArg" 1; Arg "x" 1] [Default EList 1]]))
       ["prog"; "a.py"]%string
  = (["a.py: Line 1: S007 Too many spaces after 'def'";
      "a.py: Line 1: S010 Argument name 'myArg' should be snake_case";
      "a.py: Line 1: S012 Default argument value is mutable";
      "a.py: Line 2: S003 Unnecessary semicolon"]%string, None).
Proof. vm_compute. reflexivity. Qed.

(** Two badly named arguments on one line: the model lists them in the
    order of the additions. *)
Example run2 :
  main (one_file "a.py" ("def f(bB, aA): pass" +:+ nl)
          (Some [FunctionDef "f" 1 [Arg "bB" 1; Arg "aA" 1] []]))
       ["prog"; "a.py"]%string
  = (["a.py: Line 1: S010 Argument name 'bB' should be snake_case";
      "a.py: Line 1: S010 Argument name 'aA' should be snake_case"]%string, None).
Proof. vm_compute. reflexivity. Qed.

(** A directory whose first file does not parse: the semicolon of the
    second file is never looked at, and nothing is printed.  When the first
    file parses, the semicolon is reported. *)
Example run3 :
  main (two_files ("x = (" +:+ nl) ("y = 1;" +:+ nl) None [Name "y" Store 1])
       ["prog"; "d"]%string
  = ([], Some SyntaxError)
  ∧ main (two_files ("x = 1" +:+ nl) ("y = 1;" +:+ nl)
            (Some [Name "x" Store 1]) [Name "y" Store 1])
         ["prog"; "d"]%string
    = (["d/b.py: Line 1: S003 Unnecessary semicolon"]%string, None).
Proof. vm_compute. done. Qed.

(** ** Python sequences *)

Lemma py_index_nonneg {A} (l : list A) (i : Z) :
  0 ≤ i → py_index l i = l !! Z.to_nat i.
Proof. intros Hi. unfold py_index. by rewrite bool_decide_eq_true_2. Qed.

Lemma py_index_is_Some {A} (l : list A) (i : Z) (x : A) :
  0 ≤ i → py_index l i = Some x → i < py_len l.
Proof.
  intros Hi. rewrite py_index_nonneg by done. intros Hx%lookup_lt_Some.
  unfold py_len. lia.
Qed.

Lemma py_index_nat {A} (l : list A) (n : nat) :
  py_index l (Z.of_nat n) = l !! n.
Proof. rewrite py_index_nonneg by lia. by rewrite Nat2Z.id. Qed.

(** ** The boundary scanner *)

Lemma quotes_from_0 line : quotes line = quotes_from line 0.
Proof. unfold quotes, quotes_from, py_range. by rewrite Z.sub_0_r. Qed.

Lemma quotes_from_end line lo : py_len line ≤ lo → quotes_from line lo = [].
Proof. intros. unfold quotes_from. rewrite seqZ_nil by lia. done. Qed.

Lemma quotes_from_step line lo :
  lo < py_len line →
  quotes_from line lo =
    (if is_quote_or_hash (py_index line lo) then [lo] else []) ++ quotes_from line (lo + 1).
Proof.
  intros Hlo. unfold quotes_from. rewrite (seqZ_cons lo) by lia.
  replace (Z.pred (py_len line - lo)) with (py_len line - (lo + 1)) by lia.
  replace (Z.succ lo) with (lo + 1) by lia.
  destruct (is_quote_or_hash (py_index line lo)) eqn:Hq.
  - by rewrite filter_cons_True.
  - rewrite filter_cons_False; [done|]. by rewrite Hq.
Qed.

Lemma elem_of_quotes_from line lo i :
  i ∈ quotes_from line lo ↔
    lo ≤ i < py_len line ∧ is_quote_or_hash (py_index line i) = true.
Proof.
  unfold quotes_from. rewrite list_elem_of_filter, elem_of_seqZ. intuition lia.
Qed.

Lemma Forall_range_mono (l : list Z) (lo lo' : Z) :
  lo ≤ lo' → Forall (λ h, 0 ≤ h < lo) l → Forall (λ h, 0 ≤ h < lo') l.
Proof. intros Hle Hl. eapply Forall_impl; [done|]. intros; simpl in *; lia. Qed.

Lemma zip_snoc_l (hs ts : list Z) (h : Z) :
  length hs = length ts → zip (hs ++ [h]) ts = zip hs ts.
Proof.
  intros Hlen. transitivity (zip (hs ++ [h]) (ts ++ [])); [by rewrite app_nil_r|].
  rewrite (zip_with_app pair hs [h] ts []) by done. simpl. by rewrite app_nil_r.
Qed.

Lemma zip_snoc (hs ts : list Z) (h t : Z) :
  length hs = length ts → zip (hs ++ [h]) (ts ++ [t]) = zip hs ts ++ [(h, t)].
Proof. intros Hlen. by rewrite (zip_with_app pair hs [h] ts [t]). Qed.

Lemma scan_inv_skip line lo opened quote res :
  is_quote_or_hash (py_index line lo) = false →
  scan_inv line lo opened quote res → scan_inv line (lo + 1) opened quote res.
Proof.
  intros Hq [Hc Hh Ht Hs Hqu Hhash]. split; try done.
  - eapply Forall_range_mono; [|done]. lia.
  - eapply Forall_range_mono; [|done]. lia.
  - intros p Hp Hp'. destruct (decide (p = lo)) as [->|].
    + rewrite Hp' in Hq. unfold is_quote_or_hash in Hq.
      rewrite (bool_decide_eq_true_2 (Some hash = Some hash)) in Hq by done.
      by rewrite orb_true_r in Hq.
    + apply Hhash; [lia|done].
Qed.

Lemma scan_inv_open line lo res :
  0 ≤ lo →
  py_index line lo ≠ Some hash →
  scan_inv line lo false None res →
  scan_inv line (lo + 1) true (py_index line lo)
    (Boundaries (b_head res ++ [lo]) (b_tail res) (b_comment res)).
Proof.
  intros Hlo Hnh [Hc Hh Ht Hs Hqu Hhash]. simpl in Hs. split; simpl; try done.
  - apply Forall_app. split; [eapply Forall_range_mono; [|done]; lia|].
    apply Forall_singleton. lia.
  - eapply Forall_range_mono; [|done]. lia.
  - exists (b_head res), lo. split_and!; [done..|].
    eapply Forall_impl; [done|]. intros; simpl in *; lia.
  - intros p Hp Hp'. destruct (decide (p = lo)) as [->|]; [done|].
    destruct (Hhash p) as [(h & t & Hin & Hlt)|[? _]]; [lia|done| |done].
    left. exists h, t. split; [|done]. simpl. by rewrite zip_snoc_l.
Qed.

Lemma scan_inv_close line lo quote res :
  0 ≤ lo →
  py_index line lo = quote →
  scan_inv line lo true quote res →
  scan_inv line (lo + 1) false quote
    (Boundaries (b_head res) (b_tail res ++ [lo]) (b_comment res)).
Proof.
  intros Hlo Hq [Hc Hh Ht Hs Hqu Hhash]. simpl in Hs.
  destruct Hs as (hs & h & Hhs & Hlen & Hlt).
  assert (h < lo) as Hhlo.
  { rewrite Hhs in Hh. apply Forall_app in Hh as [_ Hh].
    rewrite Forall_singleton in Hh. lia. }
  split; simpl; try done.
  - eapply Forall_range_mono; [|done]. lia.
  - apply Forall_app. split; [eapply Forall_range_mono; [|done]; lia|].
    apply Forall_singleton. lia.
  - rewrite Hhs, !length_app. simpl. lia.
  - intros p Hp Hp'. left. destruct (decide (p = lo)) as [->|].
    { exfalso. apply Hqu; [done|]. by rewrite <-Hq. }
    unfold inside. simpl. rewrite Hhs, zip_snoc by done.
    destruct (Hhash p) as [(h' & t' & Hin & Hlt')|[_ (h' & Hlast & Hlt')]]; [lia|done|..].
    + exists h', t'. split; [|done]. apply elem_of_app. left.
      by rewrite Hhs, zip_snoc_l in Hin.
    + rewrite Hhs, last_snoc in Hlast. simplify_eq.
      exists h', lo. split; [|lia]. apply elem_of_app. right. by apply list_elem_of_singleton.
Qed.

Lemma scan_inv_stay line lo quote res :
  scan_inv line lo true quote res → scan_inv line (lo + 1) true quote res.
Proof.
  intros [Hc Hh Ht Hs Hqu Hhash]. split; try done.
  - eapply Forall_range_mono; [|done]. lia.
  - eapply Forall_range_mono; [|done]. lia.
  - intros p Hp Hp'. destruct (decide (p = lo)) as [->|]; [|apply Hhash; [lia|done]].
    right. split; [done|]. simpl in Hs. destruct Hs as (hs & h & Hhs & _ & _).
    exists h. rewrite Hhs, last_snoc. split; [done|].
    rewrite Hhs in Hh. apply Forall_app in Hh as [_ Hh].
    rewrite Forall_singleton in Hh. lia.
Qed.

Lemma scan_spec line (n : nat) : ∀ lo opened quote res,
  n = Z.to_nat (py_len line - lo) →
  0 ≤ lo ≤ py_len line →
  scan_inv line lo opened quote res →
  scan_post line (scan line (quotes_from line lo) opened quote res).
Proof.
  induction n as [|n IH]; intros lo opened quote res Hn Hlo Hinv.
  - rewrite quotes_from_end by lia. simpl. unfold scan_post.
    rewrite (inv_comment _ _ _ _ _ Hinv). exists opened, quote.
    by replace (py_len line) with lo by lia.
  - rewrite quotes_from_step by lia.
    destruct (is_quote_or_hash (py_index line lo)) eqn:Hq; simpl.
    2:{ apply IH; [lia|lia|]. by apply scan_inv_skip. }
    destruct opened; simpl.
    + rewrite andb_false_r.
      destruct (negb (bool_decide (py_index line lo = quote))
                || bool_decide (py_index line (lo - 1) = Some backslash)) eqn:Hc.
      * apply IH; [lia|lia|]. by apply scan_inv_stay.
      * apply orb_false_iff in Hc as [Hc _].
        apply negb_false_iff, bool_decide_eq_true in Hc.
        apply IH; [lia|lia|]. apply scan_inv_close; [lia|done|done].
    + rewrite andb_true_r. case_bool_decide as Hh.
      * unfold scan_post. simpl. split; [lia|]. split; [done|].
        destruct Hinv as [Hc ? ? ? ? Hhash]. split; simpl; done.
      * apply IH; [lia|lia|].
        assert (scan_inv line lo false None res) as Hinv'.
        { destruct Hinv. split; done. }
        apply scan_inv_open; [lia|done|done].
Qed.

Lemma find_boundaries_post line : scan_post line (find_boundaries line).
Proof.
  unfold find_boundaries. rewrite quotes_from_0.
  apply (scan_spec line (Z.to_nat (py_len line - 0))); [done|unfold py_len; lia|].
  split; simpl; try done. intros p Hp. lia.
Qed.

Lemma scan_comment_elem line qs : ∀ opened quote res c,
  b_comment res = None →
  b_comment (scan line qs opened quote res) = Some c → c ∈ qs.
Proof.
  induction qs as [|i qs IH]; intros opened quote res c Hres; simpl.
  - congruence.
  - repeat case_match; simpl; intros Hc.
    + simplify_eq. apply elem_of_cons. by left.
    + apply elem_of_cons. right. eapply IH; [|done]; done.
    + apply elem_of_cons. right. eapply IH; [|done]; done.
    + apply elem_of_cons. right. eapply IH; [|done]; done.
Qed.

(** Two lines that agree up to [c] are scanned alike when the scan of the
    first stops at [c]. *)
Lemma scan_agree (line line' : list ascii) (c : Z) :
  (∀ i, 0 ≤ i ≤ c → py_index line i = py_index line' i) →
  c < py_len line → c < py_len line' →
  ∀ (n : nat) lo opened quote res,
    n = Z.to_nat (c + 1 - lo) → 0 ≤ lo → (opened = true → 1 ≤ lo) →
    b_comment res = None →
    b_comment (scan line (quotes_from line lo) opened quote res) = Some c →
    scan line' (quotes_from line' lo) opened quote res
    = scan line (quotes_from line lo) opened quote res.
Proof.
  intros Hagree Hc Hc'. induction n as [|n IH]; intros lo opened quote res Hn Hlo Hop Hres Hcom.
  { apply scan_comment_elem, elem_of_quotes_from in Hcom; [lia|done]. }
  assert (lo ≤ c) as Hle by lia.
  revert Hcom. rewrite (quotes_from_step line lo), (quotes_from_step line' lo) by lia.
  rewrite <-(Hagree lo) by lia.
  destruct (is_quote_or_hash (py_index line lo)); simpl.
  2:{ intros. apply IH; [lia|lia|lia|done|done]. }
  rewrite <-?(Hagree lo) by lia.
  destruct opened; simpl.
  - specialize (Hop eq_refl). rewrite !andb_false_r. rewrite <-(Hagree (lo - 1)) by lia.
    case_match; intros; (apply IH; [lia|lia|lia|done|done]).
  - rewrite !andb_true_r. case_match; [done|].
    intros. apply IH; [lia|lia|lia|done|done].
Qed.

Lemma py_index_take_app (line rest : list ascii) (c i : Z) :
  0 ≤ i ≤ c → c < py_len line →
  py_index line i = py_index (take (Z.to_nat c + 1) line ++ rest) i.
Proof.
  intros Hi Hc. rewrite !py_index_nonneg by lia. unfold py_len in Hc.
  rewrite lookup_app_l by (rewrite length_take; lia).
  by rewrite lookup_take_lt by lia.
Qed.

(** ** The stray-semicolon check *)

Lemma seqZ_sorted (n : nat) : ∀ m, StronglySorted Z.lt (seqZ m (Z.of_nat n)).
Proof.
  induction n as [|n IH]; intros m.
  - rewrite seqZ_nil by lia. constructor.
  - rewrite seqZ_cons by lia. replace (Z.pred (Z.of_nat (S n))) with (Z.of_nat n) by lia.
    constructor; [apply IH|]. apply Forall_seqZ. intros; lia.
Qed.

Lemma filter_sorted (P : Z → Prop) `{!∀ x, Decision (P x)} (l : list Z) :
  StronglySorted Z.lt l → StronglySorted Z.lt (filter P l).
Proof.
  induction 1 as [|x l Hl IH Hx]; [constructor|].
  destruct (decide (P x)).
  - rewrite filter_cons_True by done. constructor; [done|].
    apply Forall_forall. intros y [_ Hy]%list_elem_of_filter.
    by eapply Forall_forall in Hx.
  - by rewrite filter_cons_False.
Qed.

Lemma semicolons_sorted line : StronglySorted Z.lt (semicolons line).
Proof.
  unfold semicolons, py_range, py_len. apply filter_sorted, seqZ_sorted.
Qed.

Lemma elem_of_semicolons line j :
  j ∈ semicolons line ↔ 0 ≤ j ∧ py_index line j = Some ";"%char.
Proof.
  unfold semicolons, py_range. rewrite list_elem_of_filter, elem_of_seqZ. split.
  - intros [? ?]. split; [lia|done].
  - intros [? Hj]. split; [done|]. split; [lia|]. by eapply py_index_is_Some.
Qed.

(** The loop leaves at the first position of [js] that is not [found]. *)
Lemma s003_loop_Some line js j :
  s003_loop line js = Some j ↔
    ∃ js1 js2, js = js1 ++ j :: js2 ∧ s003_found line j = false
               ∧ ∀ j', j' ∈ js1 → s003_found line j' = true.
Proof.
  induction js as [|i js IH]; simpl.
  - split; [done|]. intros ([|??] & ? & ? & _); simplify_eq.
  - destruct (s003_found line i) eqn:Hi; simpl.
    + rewrite IH. split.
      * intros (js1 & js2 & -> & Hj & Hjs1). exists (i :: js1), js2.
        split_and!; [done|done|]. intros j' [->|?]%elem_of_cons; auto.
      * intros ([|i' js1] & js2 & Heq & Hj & Hjs1); simplify_eq/=; [congruence|].
        exists js1, js2. split_and!; [done|done|]. intros. apply Hjs1. apply elem_of_cons. by right.
    + split.
      * intros [= ->]. exists [], js. split_and!; [done|done|]. by intros ? ?%elem_of_nil.
      * intros ([|i' js1] & js2 & Heq & Hj & Hjs1); simplify_eq/=; [done|].
        rewrite Hjs1 in Hi; [done|apply elem_of_cons; by left].
Qed.

Lemma s003_loop_None line js :
  s003_loop line js = None ↔ ∀ j, j ∈ js → s003_found line j = true.
Proof.
  induction js as [|i js IH]; simpl.
  - split; [|done]. by intros _ ? ?%elem_of_nil.
  - destruct (s003_found line i) eqn:Hi; simpl.
    + rewrite IH. split.
      * intros Hjs j [->|?]%elem_of_cons; auto.
      * intros Hjs j ?. apply Hjs. apply elem_of_cons. by right.
    + split; [done|]. intros Hjs. rewrite Hjs in Hi; [done|apply elem_of_cons; by left].
Qed.

Lemma s003_found_false line j :
  py_index line j = Some ";"%char →
  s003_found line j = false ↔
    (∀ h t, (h, t) ∈ zip (b_head (find_boundaries line)) (b_tail (find_boundaries line)) →
       ¬ (h < j < t))
    ∧ (∀ c, b_comment (find_boundaries line) = Some c → j < c).
Proof.
  intros Hj. unfold s003_found.
  pose proof (find_boundaries_post line) as Hpost. unfold scan_post in Hpost.
  set (r := find_boundaries line) in *.
  assert (existsb (λ ht, (ht.1 <? j) && (j <? ht.2)) (zip (b_head r) (b_tail r)) = false
          ↔ ∀ h t, (h, t) ∈ zip (b_head r) (b_tail r) → ¬ (h < j < t)) as Hex.
  { rewrite <-not_true_iff_false, existsb_exists. split.
    - intros Hno h t Hin Hlt. apply Hno. exists (h, t). split; [by apply list_elem_of_In|].
      simpl. apply andb_true_iff. split; apply Z.ltb_lt; lia.
    - intros Hno ([h t] & Hin%list_elem_of_In & Hlt). simpl in Hlt.
      apply andb_true_iff in Hlt as [?%Z.ltb_lt ?%Z.ltb_lt]. by eapply Hno. }
  destruct (b_comment r) as [c|] eqn:Hc.
  - destruct Hpost as (_ & Hhash & _).
    assert (j ≠ c) by (intros ->; rewrite Hhash in Hj; by inversion Hj).
    destruct (Z.gtb_spec j c).
    + split; [done|]. intros [_ Hlt]. specialize (Hlt c eq_refl). lia.
    + rewrite Hex. split; [|tauto]. intros ?. split; [done|]. intros ? [= <-]. lia.
  - rewrite Hex. split; [|tauto]. intros ?. split; [done|]. by intros ? [=].
Qed.

(** ** The registry under the checks *)

Lemma same_keys_refl a : same_keys a a.
Proof. done. Qed.

Lemma same_keys_trans a1 a2 a3 : same_keys a1 a2 → same_keys a2 a3 → same_keys a1 a3.
Proof.
  intros (Ha&Hb&Hc&Hd1) (Ha'&Hb'&Hc'&Hd2). split_and!; [congruence..|].
  intros f. by rewrite Hd2, Hd1.
Qed.

Lemma keys_ok_same_keys file a a' : same_keys a a' → keys_ok file a → keys_ok file a'.
Proof.
  intros (_&_&Hcode&Hdom) (lines & m & Hl & Hm & Hkeys).
  specialize (Hdom file). rewrite Hm in Hdom.
  destruct (issues a' !! file) as [m'|] eqn:Hm'; simpl in Hdom; [|done].
  injection Hdom as Hdom.
  exists lines, m'. split_and!; [congruence|done|].
  intros i Hi. apply elem_of_dom. rewrite Hdom. by apply elem_of_dom, Hkeys.
Qed.

Lemma add_issue_same_keys file i x a a' :
  add_issue file i x a = Ok a' → same_keys a a'.
Proof.
  unfold add_issue. destruct (issues a !! file) as [m|] eqn:Hm; [|done].
  destruct (m !! i) as [s|] eqn:Hs; [|done]. intros [= <-].
  split_and!; [done..|]. intros f. simpl. destruct (decide (f = file)) as [->|].
  - rewrite lookup_insert_eq, Hm. simpl. f_equal. by apply dom_insert_lookup_L.
  - by rewrite lookup_insert_ne.
Qed.

Lemma add_issue_total file i x a :
  keys_ok file a → (∀ lines, code a !! file = Some lines → 1 ≤ i ≤ py_len lines) →
  ∃ a', add_issue file i x a = Ok a'.
Proof.
  intros (lines & m & Hl & Hm & Hkeys) Hi. unfold add_issue. rewrite Hm.
  destruct (Hkeys i (Hi _ Hl)) as [s ->]. eauto.
Qed.

Lemma add_like_same_keys file i f a a' : add_like file i f → f a = Ok a' → same_keys a a'.
Proof.
  intros Hf Ha. destruct (Hf a) as [Heq|[x Heq]]; rewrite Heq in Ha.
  - by simplify_eq.
  - by eapply add_issue_same_keys.
Qed.

Lemma add_like_when file i b x : add_like file i (when b (add_issue file i x)).
Proof. intros a. destruct b; simpl; eauto. Qed.

Lemma for_each_same_keys {A} (body : A → analyzer → result analyzer) (l : list A) :
  (∀ x a a', x ∈ l → body x a = Ok a' → same_keys a a') →
  ∀ a a', for_each l body a = Ok a' → same_keys a a'.
Proof.
  induction l as [|x l IH]; intros Hbody a a'; simpl.
  - by intros [= ->].
  - destruct (body x a) as [a1|] eqn:Hx; simpl; [|done]. intros Hl.
    eapply same_keys_trans.
    + eapply Hbody; [|done]. apply elem_of_cons. by left.
    + eapply IH; [|done]. intros ??? ?. apply Hbody. apply elem_of_cons. by right.
Qed.

Lemma elem_of_enumerate1 {A} (l : list A) (i : Z) (x : A) :
  (i, x) ∈ enumerate1 l ↔ 1 ≤ i ∧ l !! Z.to_nat (i - 1) = Some x.
Proof.
  unfold enumerate1. rewrite list_elem_of_lookup. split.
  - intros (k & Hk). apply lookup_zip_with_Some in Hk as (j & y & [= -> ->] & Hj & Hy).
    apply lookup_seqZ in Hj as [-> _]. split; [lia|].
    by replace (Z.to_nat (1 + Z.of_nat k - 1)) with k by lia.
  - intros [Hi Hx]. exists (Z.to_nat (i - 1)). apply lookup_zip_with_Some.
    exists i, x. split_and!; [done| |done]. apply lookup_seqZ. split; [lia|].
    apply lookup_lt_Some in Hx. unfold py_len. lia.
Qed.

Lemma enumerate1_range {A} (l : list A) (i : Z) (x : A) :
  (i, x) ∈ enumerate1 l → 1 ≤ i ≤ py_len l.
Proof.
  intros [Hi Hx%lookup_lt_Some]%elem_of_enumerate1. unfold py_len. lia.
Qed.

(** A loop of additions over lines of the file runs to its end. *)
Lemma for_each_lines_total file (body : Z → list ascii → analyzer → result analyzer)
    (l : list (Z * list ascii)) :
  (∀ i line, add_like file i (body i line)) →
  ∀ a, keys_ok file a →
    (∀ i line lines, (i, line) ∈ l → code a !! file = Some lines → 1 ≤ i ≤ py_len lines) →
    ∃ a', for_each l (λ il, body il.1 il.2) a = Ok a' ∧ same_keys a a'.
Proof.
  intros Hbody. induction l as [|[i line] l IH]; intros a Hkeys Hl; simpl.
  - eauto using same_keys_refl.
  - assert (∃ a1, body i line a = Ok a1 ∧ same_keys a a1) as (a1 & Ha1 & Hk1).
    { destruct (Hbody i line a) as [Heq|[x Heq]].
      - eauto using same_keys_refl.
      - destruct (add_issue_total file i x a) as [a1 Ha1]; [done| |].
        + intros lines Hlines. eapply Hl; [|done]. apply elem_of_cons. by left.
        + exists a1. split; [congruence|]. by eapply add_issue_same_keys. }
    rewrite Ha1. simpl. destruct (IH a1) as (a' & Ha' & Hk').
    + by eapply keys_ok_same_keys.
    + intros i' line' lines Hin Hlines. eapply Hl; [apply elem_of_cons; by right|].
      destruct Hk1 as (_&_&<-&_). done.
    + exists a'. split; [done|]. by eapply same_keys_trans.
Qed.

Lemma for_lines_total file (body : Z → list ascii → analyzer → result analyzer) a :
  (∀ i line, add_like file i (body i line)) →
  keys_ok file a →
  ∃ a', for_lines file body a = Ok a' ∧ same_keys a a'.
Proof.
  intros Hbody Hkeys. unfold for_lines.
  destruct Hkeys as (lines & m & Hl & Hm & Hk). rewrite Hl.
  apply (for_each_lines_total file); [done|by exists lines, m|].
  intros i line lines' Hin ?. simplify_eq. by eapply enumerate1_range.
Qed.

Lemma s006_loop_total file (l : list (Z * list ascii)) : ∀ count a,
  keys_ok file a →
  (∀ i line lines, (i, line) ∈ l → code a !! file = Some lines → 1 ≤ i ≤ py_len lines) →
  ∃ a', s006_loop file l count a = Ok a' ∧ same_keys a a'.
Proof.
  induction l as [|[i line] l IH]; intros count a Hkeys Hl; simpl.
  - eauto using same_keys_refl.
  - case_bool_decide.
    + apply IH; [done|]. intros ???? ?. eapply Hl; [apply elem_of_cons; by right|done].
    + assert (∃ a1, when (bool_decide (count > 2)) (add_issue file i (Plain "S006")) a = Ok a1
                    ∧ same_keys a a1) as (a1 & Ha1 & Hk1).
      { destruct (bool_decide (count > 2)); simpl; [|eauto using same_keys_refl].
        destruct (add_issue_total file i (Plain "S006") a) as [a1 Ha1]; [done| |].
        - intros lines Hlines. eapply Hl; [|done]. apply elem_of_cons. by left.
        - exists a1. split; [done|]. by eapply add_issue_same_keys. }
      rewrite Ha1. simpl. destruct (IH 0 a1) as (a' & Ha' & Hk').
      * by eapply keys_ok_same_keys.
      * intros i' line' lines Hin Hlines. eapply Hl; [apply elem_of_cons; by right|].
        destruct Hk1 as (_&_&<-&_). done.
      * exists a'. split; [done|]. by eapply same_keys_trans.
Qed.

(** The seven line checks of a file never raise once [get_code] has read
    it. *)
Lemma line_checks_total file a :
  keys_ok file a → ∃ a', line_checks file a = Ok a' ∧ same_keys a a'.
Proof.
  intros Hk. unfold line_checks.
  destruct (for_lines_total file
    (λ i line, when (s001_line line) (add_issue file i (Plain "S001"))) a)
    as (a1 & H1 & K1); [intros; apply add_like_when|done|].
  destruct (for_lines_total file
    (λ i line, when (s002_line line) (add_issue file i (Plain "S002"))) a1)
    as (a2 & H2 & K2); [intros; apply add_like_when|by eapply keys_ok_same_keys|].
  destruct (for_lines_total file
    (λ i line, when (bool_decide (is_Some (s003_line line))) (add_issue file i (Plain "S003"))) a2)
    as (a3 & H3 & K3); [intros; apply add_like_when|eauto using keys_ok_same_keys|].
  destruct (for_lines_total file
    (λ i line, when (s004_line line) (add_issue file i (Plain "S004"))) a3)
    as (a4 & H4 & K4); [intros; apply add_like_when|eauto using keys_ok_same_keys|].
  destruct (for_lines_total file
    (λ i line, when (s005_line line) (add_issue file i (Plain "S005"))) a4)
    as (a5 & H5 & K5); [intros; apply add_like_when|eauto 6 using keys_ok_same_keys|].
  assert (keys_ok file a5) as Hk5 by eauto 7 using keys_ok_same_keys.
  assert (∃ a6, check_s006 file a5 = Ok a6 ∧ same_keys a5 a6) as (a6 & H6 & K6).
  { unfold check_s006. destruct Hk5 as (lines & m & Hl & Hm & Hkeys). rewrite Hl.
    apply s006_loop_total; [by exists lines, m|].
    intros i line lines' Hin ?. simplify_eq. by eapply enumerate1_range. }
  destruct (for_lines_total file
    (λ i line a,
      if re_match pattern_def line then add_issue file i (Named "S007" "def") a
      else if re_match pattern_class line then add_issue file i (Named "S007" "class") a
      else Ok a) a6) as (a7 & H7 & K7).
  { intros i line a0. repeat case_match; eauto. }
  { by eapply keys_ok_same_keys. }
  exists a7. split.
  - unfold check_s001, check_s002, check_s003, check_s004, check_s005, check_s007.
    rewrite H1; simpl. rewrite H2; simpl. rewrite H3; simpl. rewrite H4; simpl.
    rewrite H5; simpl. rewrite H6; simpl. done.
  - eauto 10 using same_keys_trans.
Qed.

Lemma set_issues_id a : set_issues a (issues a) = a.
Proof. by destruct a. Qed.

Lemma set_add_idemp x s : set_add x (set_add x s) = set_add x s.
Proof.
  unfold set_add at 2. case_bool_decide as Hx; [done|].
  unfold set_add. rewrite (bool_decide_eq_false_2 (x ∈ s)) by done.
  rewrite bool_decide_eq_true_2; [done|].
  apply elem_of_app. right. by apply list_elem_of_singleton.
Qed.

Lemma set_add_elem x y s : y ∈ set_add x s ↔ y = x ∨ y ∈ s.
Proof.
  unfold set_add. case_bool_decide as Hx.
  - split; [by right|]. by intros [->|?].
  - rewrite elem_of_app, list_elem_of_singleton. tauto.
Qed.

Lemma set_add_NoDup x s : NoDup s → NoDup (set_add x s).
Proof.
  intros Hs. unfold set_add. case_bool_decide as Hx; [done|].
  apply NoDup_app. split_and!; [done| |apply NoDup_singleton].
  intros y Hy ->%list_elem_of_singleton. done.
Qed.

(** A loop that adds the issue [x] at the line [key y] of every item [y]
    with [p y]: the set of each such line receives [x], once, and no other
    set changes. *)
Lemma for_each_add_spec {A} (key : A → Z) (p : A → bool) (x : issue) (file : string)
    (l : list A) : ∀ a m,
  issues a !! file = Some m →
  (∀ y, y ∈ l → p y = true → is_Some (m !! key y)) →
  ∃ m', for_each l (λ y, when (p y) (add_issue file (key y) x)) a
        = Ok (set_issues a (<[file := m']> (issues a)))
    ∧ ∀ i, m' !! i =
        if existsb (λ y, p y && bool_decide (key y = i)) l
        then set_add x <$> m !! i else m !! i.
Proof.
  induction l as [|y l IH]; intros a m Hm Hkeys; simpl.
  - exists m. split; [|done]. by rewrite insert_id, set_issues_id.
  - destruct (p y) eqn:Hp; simpl.
    + destruct (Hkeys y) as [s Hs]; [apply elem_of_cons; by left|done|].
      set (m1 := <[key y := set_add x s]> m).
      assert (add_issue file (key y) x a = Ok (set_issues a (<[file := m1]> (issues a)))) as ->.
      { unfold add_issue. by rewrite Hm, Hs. }
      simpl.
      destruct (IH (set_issues a (<[file := m1]> (issues a))) m1) as (m' & Hrun & Hm').
      { simpl. by rewrite lookup_insert_eq. }
      { intros y' Hy' Hp'. unfold m1. apply lookup_insert_is_Some'.
        right. apply Hkeys; [apply elem_of_cons; by right|done]. }
      exists m'. split.
      { rewrite Hrun. simpl. by rewrite insert_insert_eq. }
      intros i. rewrite Hm'. unfold m1. case_bool_decide as Hi; simpl.
      * subst i. rewrite lookup_insert_eq, Hs. simpl.
        destruct (existsb _ l); simpl; [by rewrite set_add_idemp|done].
      * by rewrite lookup_insert_ne.
    + destruct (IH a m) as (m' & Hrun & Hm'); [done| |].
      { intros y' Hy' Hp'. apply Hkeys; [apply elem_of_cons; by right|done]. }
      exists m'. split; [done|]. intros i. by rewrite Hm'.
Qed.

(** ** Reading the files *)

Lemma readlines_concat text : concat (readlines text) = text.
Proof.
  induction text as [|c text IH]; simpl; [done|].
  case_bool_decide; simpl; [by rewrite IH|].
  destruct (readlines text) as [|l ls]; simpl in *; by rewrite <-IH.
Qed.

Lemma readlines_line_feed text : readlines (text ++ [newline]) ≠ [].
Proof.
  induction text as [|c text IH]; simpl; [done|].
  case_bool_decide; [done|]. by destruct (readlines (text ++ [newline])).
Qed.

Lemma readlines_app text1 text2 :
  readlines (text1 ++ newline :: text2) = readlines (text1 ++ [newline]) ++ readlines text2.
Proof.
  induction text1 as [|c text1 IH]; simpl.
  - done.
  - case_bool_decide; [by rewrite IH|]. rewrite IH.
    pose proof (readlines_line_feed text1).
    by destruct (readlines (text1 ++ [newline])).
Qed.

(** A text without a line feed is one line. *)
Lemma readlines_one text : text ≠ [] → newline ∉ text → readlines text = [text].
Proof.
  induction text as [|c text IH]; [done|]. intros _ Hnl. simpl.
  rewrite bool_decide_eq_false_2.
  2:{ intros ->. apply Hnl. apply elem_of_cons. by left. }
  destruct text as [|c' text]; [done|]. rewrite IH; [done|done|].
  intros ?. apply Hnl. apply elem_of_cons. by right.
Qed.

Lemma readlines_one_line_feed text :
  newline ∉ text → readlines (text ++ [newline]) = [text ++ [newline]].
Proof.
  induction text as [|c text IH]; intros Hnl; simpl.
  - done.
  - rewrite bool_decide_eq_false_2.
    2:{ intros ->. apply Hnl. apply elem_of_cons. by left. }
    rewrite IH; [done|]. intros ?. apply Hnl. apply elem_of_cons. by right.
Qed.

Lemma readlines_lines text line : line ∈ readlines text → line_of_file line.
Proof.
  revert line. induction text as [|c text IH]; intros line; simpl.
  - by intros ?%elem_of_nil.
  - case_bool_decide as Hc.
    + intros [->|?]%elem_of_cons; [|by apply IH].
      intros [|i]; simpl; [done|]. by intros ?.
    + destruct (readlines text) as [|l ls] eqn:Hr.
      * intros ->%list_elem_of_singleton. intros [|[|i]]; simpl; [|done..].
        by intros [= ->].
      * intros [->|?]%elem_of_cons; [|apply IH; apply elem_of_cons; by right].
        intros [|i]; simpl; [by intros [= ->]|]. intros Hi. f_equal.
        apply (IH l); [apply elem_of_cons; by left|done].
Qed.

Lemma lookup_empty_sets lines i :
  empty_sets lines !! i = if bool_decide (1 ≤ i ≤ py_len lines) then Some [] else None.
Proof.
  unfold empty_sets. case_bool_decide as Hi.
  - apply elem_of_list_to_map.
    + rewrite <-list_fmap_compose. simpl. rewrite list_fmap_id. apply NoDup_seqZ.
    + apply list_elem_of_fmap. exists i. split; [done|]. apply elem_of_seqZ. lia.
  - apply not_elem_of_list_to_map. rewrite <-list_fmap_compose. simpl.
    rewrite list_fmap_id. rewrite elem_of_seqZ. lia.
Qed.

Lemma empty_sets_keys_ok file a lines :
  code a !! file = Some lines → issues a !! file = Some (empty_sets lines) → keys_ok file a.
Proof.
  intros Hl Hm. exists lines, (empty_sets lines). split_and!; [done..|].
  intros i Hi. rewrite lookup_empty_sets, bool_decide_eq_true_2 by done. eauto.
Qed.

Section reading.
Variable E : env.

Lemma get_code_loop (l : list string) : ∀ a a',
  for_each l (read_file E) a = Ok a' →
  dir a' = dir a ∧ filenames a' = filenames a
  ∧ (∀ f, f ∈ l → ∃ text, file_text E f = Some text
        ∧ code a' !! f = Some (readlines text)
        ∧ issues a' !! f = Some (empty_sets (readlines text)))
  ∧ (∀ f, f ∉ l → code a' !! f = code a !! f ∧ issues a' !! f = issues a !! f).
Proof.
  induction l as [|name l IH]; intros a a'; simpl.
  - intros [= <-]. split_and!; [done|done|by intros ? ?%elem_of_nil|by intros].
  - destruct (read_file E name a) as [a1|] eqn:Ha1; simpl; [|done].
    unfold read_file in Ha1. destruct (file_text E name) as [text|] eqn:Ht; [|done].
    injection Ha1 as <-. intros (Hd & Hf & Hin & Hout)%IH. simpl in *. split_and!; [done..| |].
    + intros f Hf'. destruct (decide (f ∈ l)) as [?|Hnl]; [by apply Hin|].
      apply elem_of_cons in Hf' as [->|?]; [|done].
      destruct (Hout name Hnl) as [-> ->]. exists text.
      by rewrite !lookup_insert_eq.
    + intros f Hf'. apply not_elem_of_cons in Hf' as [? Hnl].
      destruct (Hout f Hnl) as [-> ->]. by rewrite !lookup_insert_ne.
Qed.

Lemma get_code_spec a a' :
  get_code E a = Ok a' →
  dir a' = dir a ∧ filenames a' = filenames a
  ∧ ∀ f, f ∈ filenames a → ∃ text, file_text E f = Some text
        ∧ code a' !! f = Some (readlines text)
        ∧ issues a' !! f = Some (empty_sets (readlines text)).
Proof. intros (?&?&?&_)%get_code_loop. done. Qed.
End reading.

(** ** Regular expressions: the matcher decides the language *)

Lemma matches_never s : matches Never s ↔ False.
Proof. split; [inversion 1|done]. Qed.

Lemma matches_eps s : matches Eps s ↔ s = [].
Proof. split; [by inversion 1|intros ->; constructor]. Qed.

Lemma matches_class p s : matches (Class p) s ↔ ∃ c, s = [c] ∧ p c = true.
Proof.
  split.
  - inversion 1; subst. eauto.
  - intros (c & -> & ?). by constructor.
Qed.

Lemma matches_cat r1 r2 s :
  matches (Cat r1 r2) s ↔ ∃ s1 s2, s = s1 ++ s2 ∧ matches r1 s1 ∧ matches r2 s2.
Proof.
  split.
  - inversion 1; subst. eauto.
  - intros (s1 & s2 & -> & ? & ?). by constructor.
Qed.

Lemma matches_alt r1 r2 s : matches (Alt r1 r2) s ↔ matches r1 s ∨ matches r2 s.
Proof.
  split.
  - inversion 1; subst; auto.
  - intros [?|?]; [by apply M_alt_l|by apply M_alt_r].
Qed.

Lemma matches_star_cons r c s :
  matches (Star r) (c :: s) →
  ∃ s1 s2, s = s1 ++ s2 ∧ matches r (c :: s1) ∧ matches (Star r) s2.
Proof.
  intros H. remember (Star r) as r' eqn:Hr. remember (c :: s) as s' eqn:Hs.
  revert s Hs. induction H as [| | | | | |r0 s1 s2 H1 _ H2 IH2]; intros s0 Hs; try done.
  injection Hr as ->. destruct s1 as [|c' s1]; simpl in Hs.
  - by apply IH2.
  - injection Hs as -> <-. eauto.
Qed.

Lemma matches_cat_cons r1 r2 c s :
  matches (Cat r1 r2) (c :: s) ↔
    (∃ s1 s2, s = s1 ++ s2 ∧ matches r1 (c :: s1) ∧ matches r2 s2)
    ∨ (matches r1 [] ∧ matches r2 (c :: s)).
Proof.
  rewrite matches_cat. split.
  - intros ([|c' s1] & s2 & Heq & H1 & H2); simpl in Heq; subst; [by right|].
    injection Heq as -> ->. left. eauto.
  - intros [(s1 & s2 & -> & H1 & H2)|[H1 H2]].
    + by exists (c :: s1), s2.
    + by exists [], (c :: s).
Qed.

Lemma nullable_matches r : nullable r = true ↔ matches r [].
Proof.
  induction r as [| |p|r1 IH1 r2 IH2|r1 IH1 r2 IH2|r IH]; simpl.
  - by rewrite matches_never.
  - by rewrite matches_eps.
  - rewrite matches_class. split; [done|]. by intros (c & ? & _).
  - rewrite andb_true_iff, IH1, IH2, matches_cat. split.
    + intros [H1 H2]. by exists [], [].
    + intros (s1 & s2 & Heq & H1 & H2). symmetry in Heq.
      by apply app_eq_nil in Heq as [-> ->].
  - by rewrite orb_true_iff, IH1, IH2, matches_alt.
  - split; [constructor|done].
Qed.

Lemma deriv_matches c r : ∀ s, matches (deriv c r) s ↔ matches r (c :: s).
Proof.
  induction r as [| |p|r1 IH1 r2 IH2|r1 IH1 r2 IH2|r IH]; intros s; simpl.
  - by rewrite !matches_never.
  - rewrite matches_never, matches_eps. done.
  - rewrite matches_class. destruct (p c) eqn:Hp.
    + rewrite matches_eps. split; [intros ->; eauto|]. by intros (c' & [= -> ->] & _).
    + rewrite matches_never. split; [done|]. intros (c' & [= -> ->] & ?). congruence.
  - rewrite matches_cat_cons.
    assert (matches (Cat (deriv c r1) r2) s ↔
            ∃ s1 s2, s = s1 ++ s2 ∧ matches r1 (c :: s1) ∧ matches r2 s2) as Hcat.
    { rewrite matches_cat. by setoid_rewrite IH1. }
    destruct (nullable r1) eqn:Hn.
    + rewrite matches_alt, Hcat, IH2, <-nullable_matches, Hn. tauto.
    + rewrite Hcat, <-nullable_matches, Hn. intuition congruence.
  - by rewrite !matches_alt, IH1, IH2.
  - rewrite matches_cat. setoid_rewrite IH. split.
    + intros (s1 & s2 & -> & H1 & H2). by apply (M_star_cons _ (c :: s1) s2).
    + by intros ?%matches_star_cons.
Qed.

Lemma re_match_spec r s :
  re_match r s = true ↔ ∃ s1 s2, s = s1 ++ s2 ∧ matches r s1.
Proof.
  revert r. induction s as [|c s IH]; intros r; simpl.
  - rewrite orb_false_r, nullable_matches. split.
    + intros ?. by exists [], [].
    + intros (s1 & s2 & Heq & ?). symmetry in Heq. by apply app_eq_nil in Heq as [-> _].
  - rewrite orb_true_iff, nullable_matches, IH. split.
    + intros [?|(s1 & s2 & -> & H1%deriv_matches)].
      * by exists [], (c :: s).
      * by exists (c :: s1), s2.
    + intros ([|c' s1] & s2 & Heq & H1); [by left|]. right.
      injection Heq as <- ->. exists s1, s2. split; [done|]. by apply deriv_matches.
Qed.

Lemma matches_star_class p s : matches (Star (Class p)) s ↔ Forall (λ c, p c = true) s.
Proof.
  split.
  - intros H. remember (Star (Class p)) as r eqn:Hr.
    induction H as [| | | | | |r0 s1 s2 H1 _ H2 IH2]; [done..|constructor|].
    injection Hr as ->. apply matches_class in H1 as (c & -> & Hc).
    simpl. constructor; [done|]. by apply IH2.
  - induction 1 as [|c s Hc _ IH]; [constructor|].
    apply (M_star_cons _ [c] s); [by constructor|done].
Qed.

Lemma matches_plus_class p s :
  matches (Plus (Class p)) s ↔ s ≠ [] ∧ Forall (λ c, p c = true) s.
Proof.
  unfold Plus. rewrite matches_cat. split.
  - intros (s1 & s2 & -> & (c & -> & Hc)%matches_class & H2%matches_star_class).
    split; [done|]. by constructor.
  - intros [Hne Hs]. destruct Hs as [|c s Hc Hs]; [done|].
    exists [c], s. split_and!; [done|by constructor|by apply matches_star_class].
Qed.

(** A line check that adds [x] where [p] holds: the set of each such line
    receives [x], and no other set changes. *)
Lemma for_lines_spec file (p : list ascii → bool) (x : issue) a lines m :
  code a !! file = Some lines → issues a !! file = Some m →
  (∀ i, 1 ≤ i ≤ py_len lines → is_Some (m !! i)) →
  ∃ m', for_lines file (λ i line, when (p line) (add_issue file i x)) a
        = Ok (set_issues a (<[file := m']> (issues a)))
    ∧ (∀ i line, (i, line) ∈ enumerate1 lines →
         m' !! i = (if p line then set_add x else id) <$> m !! i)
    ∧ (∀ i, ¬ (1 ≤ i ≤ py_len lines) → m' !! i = m !! i).
Proof.
  intros Hl Hm Hkeys. unfold for_lines. rewrite Hl.
  destruct (for_each_add_spec (λ il : Z * list ascii, il.1) (λ il, p il.2) x file
              (enumerate1 lines) a m) as (m' & Hrun & Hm'); [done| |].
  { intros [i line] Hin _. simpl. apply Hkeys. by eapply enumerate1_range. }
  exists m'. split; [done|].
  assert (∀ i, existsb (λ y : Z * list ascii, p y.2 && bool_decide (y.1 = i)) (enumerate1 lines)
               = true ↔ ∃ line, (i, line) ∈ enumerate1 lines ∧ p line = true) as Hex.
  { intros i. rewrite existsb_exists. split.
    - intros ([i' line] & Hin%list_elem_of_In & Hp). simpl in Hp.
      apply andb_true_iff in Hp as [? ->%bool_decide_eq_true]. eauto.
    - intros (line & Hin & Hp). exists (i, line). split; [by apply list_elem_of_In|].
      simpl. by rewrite Hp, bool_decide_eq_true_2. }
  split.
  - intros i line Hin. rewrite Hm'. destruct (p line) eqn:Hp.
    + destruct (existsb _ _) eqn:Hb; [done|]. apply not_true_iff_false in Hb.
      destruct Hb. apply Hex. eauto.
    + destruct (existsb _ _) eqn:Hb; [|by rewrite option_fmap_id].
      apply Hex in Hb as (line' & Hin' & Hp').
      apply elem_of_enumerate1 in Hin as [_ Hin]. apply elem_of_enumerate1 in Hin' as [_ Hin'].
      congruence.
  - intros i Hi. rewrite Hm'. destruct (existsb _ _) eqn:Hb; [|done].
    apply Hex in Hb as (line' & Hin'%enumerate1_range & _). done.
Qed.

(** The loop over the semicolons is left at the least stray one. *)
Lemma s003_line_first line j :
  s003_line line = Some j ↔ stray line j ∧ ∀ j', stray line j' → j ≤ j'.
Proof.
  unfold s003_line. rewrite s003_loop_Some. split.
  - intros (js1 & js2 & Hjs & Hj & Hjs1).
    assert (j ∈ semicolons line) as Hin.
    { rewrite Hjs. apply elem_of_app. right. apply elem_of_cons. by left. }
    apply elem_of_semicolons in Hin as [Hj0 Hjc].
    apply s003_found_false in Hj as [Hsp Hcm]; [|done].
    split.
    + by split_and!.
    + intros j' (Hj'0 & Hj'c & Hj').
      assert (j' ∈ semicolons line) as Hin' by by apply elem_of_semicolons.
      assert (s003_found line j' = false) as Hf' by by apply s003_found_false.
      pose proof (semicolons_sorted line) as Hsort. rewrite Hjs in Hsort, Hin'.
      apply elem_of_app in Hin' as [Hin'|Hin'].
      * rewrite (Hjs1 _ Hin') in Hf'. done.
      * apply StronglySorted_app in Hsort as (_ & _ & Hsort).
        apply StronglySorted_cons in Hsort as [Hsort _].
        apply elem_of_cons in Hin' as [->|Hin']; [lia|].
        eapply Forall_forall in Hsort; [|done]. lia.
  - intros [(Hj0 & Hjc & Hj) Hleast].
    assert (j ∈ semicolons line) as Hin by by apply elem_of_semicolons.
    apply list_elem_of_split in Hin as (js1 & js2 & Hjs). exists js1, js2.
    split_and!; [done|by apply s003_found_false|].
    intros j' Hin'. apply not_false_iff_true. intros Hf'.
    pose proof (semicolons_sorted line) as Hsort. rewrite Hjs in Hsort.
    assert (j' < j) as Hlt.
    { eapply (StronglySorted_app_1_elem_of _ js1 (j :: js2)); [done..|].
      apply elem_of_cons. by left. }
    assert (j' ∈ semicolons line) as [Hj'0 Hj'c]%elem_of_semicolons.
    { rewrite Hjs. apply elem_of_app. by left. }
    assert (j ≤ j'); [|lia]. apply Hleast.
    apply s003_found_false in Hf' as [Hsp' Hcm']; [|done]. by split_and!.
Qed.

Lemma s003_line_is_Some line : is_Some (s003_line line) ↔ ∃ j, stray line j.
Proof.
  split.
  - intros [j Hj]. exists j. by apply s003_line_first.
  - intros [j (Hj0 & Hjc & Hj)]. destruct (s003_line line) eqn:Hl; [done|].
    unfold s003_line in Hl. rewrite s003_loop_None in Hl.
    rewrite <-s003_found_false in Hj by done. rewrite Hl in Hj; [done|].
    by apply elem_of_semicolons.
Qed.

(** * The claims *)

(** C7.  When [find_boundaries] reports a comment offset [c]: the line has
    a hash sign at [c]; no string is open there (as many heads as tails);
    [c] lies outside every reported span; every head and every tail is
    before [c], so nothing is recorded after it; every hash sign before [c]
    lies inside a reported span, so [c] is the first one outside a string;
    and the scan has stopped at [c]: whatever follows [c] on the line, the
    result is the same. *)
Theorem comment_offset_outside_strings (line : list ascii) (c : Z) :
  b_comment (find_boundaries line) = Some c →
  py_index line c = Some hash
  ∧ length (b_head (find_boundaries line)) = length (b_tail (find_boundaries line))
  ∧ (∀ h t, (h, t) ∈ zip (b_head (find_boundaries line)) (b_tail (find_boundaries line)) →
       ¬ (h ≤ c ≤ t))
  ∧ Forall (λ h, 0 ≤ h < c) (b_head (find_boundaries line))
  ∧ Forall (λ t, 0 ≤ t < c) (b_tail (find_boundaries line))
  ∧ (∀ p, 0 ≤ p < c → py_index line p = Some hash → inside (find_boundaries line) p)
  ∧ (∀ rest, find_boundaries (take (Z.to_nat c + 1) line ++ rest) = find_boundaries line).
Proof.
  intros Hc. pose proof (find_boundaries_post line) as Hpost.
  unfold scan_post in Hpost. rewrite Hc in Hpost.
  destruct Hpost as (Hrange & Hhash & [_ Hh Ht Hs _ Hin]). simpl in *.
  split_and!; [done|done| |done|done| |].
  - intros h t Hht%elem_of_zip_r Hle.
    eapply Forall_forall in Ht; [|done]. simpl in Ht. lia.
  - intros p Hp Hp'. destruct (Hin p Hp Hp') as [?|[? _]]; done.
  - intros rest. unfold find_boundaries. rewrite !quotes_from_0.
    apply (scan_agree line _ c) with (n := Z.to_nat (c + 1 - 0)); try done; try lia.
    + intros i Hi. apply py_index_take_app; lia.
    + unfold py_len in *. rewrite length_app, length_take. lia.
    + by rewrite <-quotes_from_0.
Qed.

(** The theorem at a line with a hash sign inside a string, a comment at
    offset 18 and a quoted hash sign after it. *)
Lemma comment_offset_outside_strings_witness :
  py_index (chars "s = '#' + x['a']  # '#'") 18 = Some hash.
Proof.
  apply (comment_offset_outside_strings (chars "s = '#' + x['a']  # '#'") 18).
  vm_compute. reflexivity.
Defined.


(** C2, as the code has it.  On a line with an unterminated span (one head
    more than tails) there is no comment offset, and a semicolon past the
    unmatched head is outside every completed span: it counts as code, and
    the check adds [S003] to the line. *)
Theorem semicolon_after_open_string (line : list ascii) (h j : Z) :
  (length (b_tail (find_boundaries line)) < length (b_head (find_boundaries line)))%nat →
  last (b_head (find_boundaries line)) = Some h →
  h < j →
  py_index line j = Some ";"%char →
  b_comment (find_boundaries line) = None
  ∧ stray line j
  ∧ is_Some (s003_line line).
Proof.
  intros Hlen Hlast Hlt Hj. pose proof (find_boundaries_post line) as Hpost.
  unfold scan_post in Hpost. destruct (b_comment (find_boundaries line)) as [c|] eqn:Hc.
  { destruct Hpost as (_ & _ & [_ _ _ Hs _ _]). simpl in Hs. lia. }
  destruct Hpost as (opened & quote & [_ Hh _ Hs _ _]).
  destruct opened; simpl in Hs; [|lia]. destruct Hs as (hs & h' & Hhs & _ & Htl).
  rewrite Hhs, last_snoc in Hlast. injection Hlast as ->.
  rewrite Hhs in Hh. apply Forall_app in Hh as [_ Hh]. rewrite Forall_singleton in Hh.
  assert (stray line j) as Hstray.
  { split_and!; [lia|done| |by rewrite Hc].
    intros h0 t0 Hin%elem_of_zip_r ?. eapply Forall_forall in Htl; [|done].
    simpl in Htl. lia. }
  split_and!; [done|done|]. apply s003_line_is_Some. eauto.
Qed.

(** The theorem at a line whose string opens at 4 and never closes; the
    semicolon stands at 8. *)
Lemma semicolon_after_open_string_witness : is_Some (s003_line (chars "x = 'abc; def")).
Proof.
  apply (semicolon_after_open_string (chars "x = 'abc; def") 4 8).
  - vm_compute. lia.
  - vm_compute. reflexivity.
  - lia.
  - vm_compute. reflexivity.
Defined.

(** C2 as stated fails: the semicolon at 8, past the unmatched head at 4,
    is the one the loop stops at. *)
Lemma open_string_counterexample :
  ¬ (∀ (line : list ascii) (h j : Z),
       (length (b_tail (find_boundaries line)) < length (b_head (find_boundaries line)))%nat →
       last (b_head (find_boundaries line)) = Some h →
       h ≤ j →
       s003_line line ≠ Some j).
Proof.
  intros H. apply (H (chars "x = 'abc; def") 4 8).
  - vm_compute. lia.
  - vm_compute. reflexivity.
  - lia.
  - vm_compute. reflexivity.
Qed.

(** C4, at the failing input.  Inside a string the active quote closes the
    span unless the character before it is a backslash, whether or not that
    backslash is itself escaped.  So the escaped quote of
    ['it\'s a test; done'] does not close the string and its semicolon is
    not flagged; but in [s = 'a\\'], where the quote follows an escaped
    backslash, the closing quote is not taken as one and the span stays
    open. *)
Theorem escaped_backslash_before_quote :
  (∀ line i qs quote res,
     py_index line i = quote →
     scan line (i :: qs) true quote res =
       if bool_decide (py_index line (i - 1) = Some backslash)
       then scan line qs true quote res
       else scan line qs false quote
              (Boundaries (b_head res) (b_tail res ++ [i]) (b_comment res)))
  ∧ find_boundaries (chars "'it\'s a test; done'") = Boundaries [0] [19] None
  ∧ s003_line (chars "'it\'s a test; done'") = None
  ∧ find_boundaries (chars "s = 'a\\'") = Boundaries [4] [] None.
Proof.
  split_and!; [|by vm_compute..].
  intros line i qs quote res Hq. simpl.
  rewrite andb_false_r. simpl. rewrite (bool_decide_eq_true_2 _ Hq). simpl.
  by case_bool_decide.
Qed.

(** C6, at the failing input.  The check adds [S004] exactly when the
    comment offset is 1, or is above 2 and the two characters before it are
    not two spaces.  An offset of 2 is never reported: on [x #c] the
    comment follows a letter and one space, and the line passes. *)
Theorem comment_spacing_check :
  (∀ line, s004_line line = true ↔
     ∃ pos, b_comment (find_boundaries line) = Some pos
            ∧ (pos = 1 ∨ (2 < pos ∧ py_slice line (pos - 2) pos ≠ two_spaces)))
  ∧ b_comment (find_boundaries (chars "x #c" ++ [newline])) = Some 2
  ∧ py_slice (chars "x #c" ++ [newline]) 0 2 = chars "x "
  ∧ s004_line (chars "x #c" ++ [newline]) = false.
Proof.
  split_and!; [|by vm_compute..].
  intros line. unfold s004_line. destruct (b_comment (find_boundaries line)) as [pos|].
  - rewrite andb_true_iff, orb_true_iff, andb_true_iff, !negb_true_iff.
    rewrite Z.eqb_neq, Z.eqb_eq, Z.gtb_gt, bool_decide_eq_false. split.
    + intros [? Hpos]. exists pos. split; [done|]. destruct Hpos as [?|[? ?]]; [by left|].
      right. split; [lia|done].
    + intros (? & [= <-] & [->|[? ?]]); (split; [lia|]); [by left|]. right. split; [lia|done].
  - split; [done|]. by intros (? & ? & _).
Qed.

(** ** The TODO check *)

Lemma matches_todo_word s :
  matches todo_word s ↔ ∃ a b c d, s = [a; b; c; d] ∧ todo_letters a b c d.
Proof.
  unfold todo_word, todo_letters. split.
  - intros (s1 & s2 & -> & (a & -> & Ha)%matches_class & H2)%matches_cat.
    apply matches_cat in H2 as (s3 & s4 & -> & (b & -> & Hb)%matches_class & H4).
    apply matches_cat in H4
      as (s5 & s6 & -> & (c & -> & Hc)%matches_class & (d & -> & Hd)%matches_class).
    by exists a, b, c, d.
  - intros (a & b & c & d & -> & Ha & Hb & Hc & Hd).
    apply (M_cat _ _ [a] [b; c; d]); [by constructor|].
    apply (M_cat _ _ [b] [c; d]); [by constructor|].
    apply (M_cat _ _ [c] [d]); by constructor.
Qed.

Lemma pattern_todo_match (text : list ascii) :
  (∀ i : nat, text !! i = Some newline → S i = length text) →
  text !! 0%nat = Some hash →
  re_match pattern_todo text = true ↔ todo_token text.
Proof.
  intros Hnl Hhash. rewrite re_match_spec. unfold pattern_todo. split.
  - intros (s1 & s2 & -> & H).
    apply matches_cat in H as (x0 & x1 & -> & (c0 & -> & _)%matches_class & H).
    apply matches_cat in H as (d1 & x2 & -> & _ & H).
    apply matches_cat in H as (w & x3 & -> & [Hw Hws]%matches_plus_class & H).
    apply matches_cat in H as (td & x4 & -> & (a & b & c & d & -> & Htd)%matches_todo_word & H).
    apply matches_cat in H as (w' & d2 & -> & [Hw' Hws']%matches_plus_class & _).
    destruct (exists_last Hw) as (w0 & w1 & ->).
    destruct w' as [|w2 w2']; [done|].
    apply Forall_app in Hws as [_ Hw1]. rewrite Forall_singleton in Hw1.
    apply Forall_cons in Hws' as [Hw2 _].
    exists ([c0] ++ d1 ++ w0), w1, a, b, c, d, w2, (w2' ++ d2 ++ s2).
    split_and!; [|done..]. rewrite <-!app_assoc. simpl. by rewrite <-?app_assoc.
  - intros (pre & w1 & a & b & c & d & w2 & post & -> & Hw1 & Htd & Hw2).
    destruct pre as [|c0 pre]; simpl in Hhash.
    { injection Hhash as ->. by vm_compute in Hw1. }
    injection Hhash as ->.
    exists (hash :: pre ++ [w1] ++ [a; b; c; d] ++ [w2] ++ []), post.
    split; [simpl; by rewrite <-!app_assoc|].
    apply (M_cat _ _ [hash]); [by constructor|].
    apply M_cat.
    { apply matches_star_class. apply Forall_forall. intros x Hx.
      apply list_elem_of_lookup in Hx as [i Hi]. unfold is_dot.
      apply negb_true_iff, bool_decide_eq_false. intros ->.
      specialize (Hnl (S i)). simpl in Hnl.
      rewrite lookup_app_l in Hnl by by eapply lookup_lt_Some.
      specialize (Hnl Hi). rewrite length_app in Hnl. simpl in Hnl.
      apply lookup_lt_Some in Hi. lia. }
    apply M_cat; [apply matches_plus_class; split; [done|by apply Forall_singleton]|].
    apply M_cat; [apply matches_todo_word; by exists a, b, c, d|].
    apply M_cat; [apply matches_plus_class; split; [done|by apply Forall_singleton]|].
    constructor.
Qed.

(** C9, as the code has it.  On a line of a file with comment offset
    [pos], the check adds [S005] if and only if the stored text from [pos]
    on holds the letters TODO, in either case, with a whitespace character
    right before and right after them.  The line feed that ends a stored
    line is such a character: a comment that ends in TODO is reported when
    its line ends with a line feed, and is not when the letters are the last
    characters of the stored line, as on a last line without a line feed. *)
Theorem todo_check (line : list ascii) (pos : Z) :
  line_of_file line →
  b_comment (find_boundaries line) = Some pos →
  (s005_line line = true ↔ todo_token (py_slice_from line pos))
  ∧ s005_line (chars "x = 1  # TODO" ++ [newline]) = true
  ∧ s005_line (chars "x = 1  # TODO") = false
  ∧ s005_line (chars "x = 1  # todo: fix" ++ [newline]) = false
  ∧ s005_line (chars "x = 1  # a Todo b" ++ [newline]) = true.
Proof.
  intros Hline Hpos. split; [|by vm_compute].
  unfold s005_line. rewrite Hpos.
  pose proof (find_boundaries_post line) as Hpost. unfold scan_post in Hpost.
  rewrite Hpos in Hpost. destruct Hpost as (Hrange & Hhash & _).
  assert (py_slice_from line pos = drop (Z.to_nat pos) line) as ->.
  { unfold py_slice_from, py_clamp. rewrite bool_decide_eq_false_2 by lia.
    f_equal. lia. }
  apply pattern_todo_match.
  - intros i Hi. rewrite lookup_drop in Hi. apply Hline in Hi.
    rewrite length_drop. unfold py_len in Hrange. lia.
  - rewrite lookup_drop, Nat.add_0_r. by rewrite py_index_nonneg in Hhash by lia.
Qed.

(** The theorem at a stored line with its line feed. *)
Lemma todo_check_witness :
  s005_line (chars "y = 2  # see TODO list" ++ [newline]) = true
  ↔ todo_token (py_slice_from (chars "y = 2  # see TODO list" ++ [newline]) 7).
Proof.
  apply (todo_check (chars "y = 2  # see TODO list" ++ [newline]) 7).
  - apply (readlines_lines (chars "y = 2  # see TODO list" ++ [newline])).
    vm_compute. apply elem_of_cons. by left.
  - vm_compute. reflexivity.
Defined.

(** C9 as stated fails: a stored line whose comment ends right after TODO,
    with nothing but the line feed behind it, is reported. *)
Lemma todo_check_counterexample :
  ¬ (∀ (line : list ascii) (pos : Z) (comment_text : list ascii),
       b_comment (find_boundaries line) = Some pos →
       py_slice_from line pos = comment_text ++ [newline] →
       (∃ pre, comment_text = pre ++ chars "TODO") →
       s005_line line = false).
Proof.
  intros H.
  specialize (H (chars "x = 1  # TODO" ++ [newline]) 7 (chars "# TODO")).
  assert (s005_line (chars "x = 1  # TODO" ++ [newline]) = true) as Ht by by vm_compute.
  rewrite H in Ht; [done|by vm_compute|by vm_compute|].
  by exists (chars "# ").
Qed.

(** ** Stored lines and the length check *)

Lemma readlines_prefix (pre rest : list ascii) :
  pre = [] ∨ (∃ pre', pre = pre' ++ [newline]) →
  readlines (pre ++ rest) = readlines pre ++ readlines rest.
Proof.
  intros [->|[pre' ->]]; [done|].
  rewrite <-app_assoc. simpl. by rewrite readlines_app.
Qed.

Lemma get_code_one_file E d file text :
  file_text E file = Some text →
  get_code E (Analyzer d [file] ∅ ∅)
  = Ok (Analyzer d [file] {[file := readlines text]} {[file := empty_sets (readlines text)]}).
Proof.
  intros Ht. unfold get_code. simpl. unfold read_file. rewrite Ht. simpl.
  by rewrite !insert_empty.
Qed.

(** The registry entry of line [k] after [get_code] and [check_s001] on a
    single file whose line [k] is [line]. *)
Lemma check_s001_one_file E d file text (n : nat) line :
  file_text E file = Some text →
  readlines text !! n = Some line →
  ∃ a1 a2 m,
    get_code E (Analyzer d [file] ∅ ∅) = Ok a1
    ∧ code a1 !! file = Some (readlines text)
    ∧ concat (readlines text) = text
    ∧ check_s001 file a1 = Ok a2
    ∧ issues a2 !! file = Some m
    ∧ m !! (Z.of_nat n + 1) = Some (if s001_line line then [Plain "S001"] else []).
Proof.
  intros Ht Hn.
  set (a1 := Analyzer d [file] {[file := readlines text]}
               {[file := empty_sets (readlines text)]}).
  destruct (for_lines_spec file s001_line (Plain "S001") a1 (readlines text)
              (empty_sets (readlines text))) as (m' & Hrun & Hm' & _).
  { simpl. by rewrite lookup_singleton_eq. }
  { simpl. by rewrite lookup_singleton_eq. }
  { intros i Hi. rewrite lookup_empty_sets, bool_decide_eq_true_2 by done. eauto. }
  exists a1, (set_issues a1 (<[file := m']> (issues a1))), m'.
  split_and!.
  - by apply get_code_one_file.
  - simpl. by rewrite lookup_singleton_eq.
  - apply readlines_concat.
  - done.
  - simpl. by rewrite lookup_insert_eq.
  - rewrite (Hm' _ line).
    + rewrite lookup_empty_sets, bool_decide_eq_true_2.
      * by destruct (s001_line line).
      * apply lookup_lt_Some in Hn. unfold py_len. lia.
    + apply elem_of_enumerate1. split; [lia|].
      by replace (Z.to_nat (Z.of_nat n + 1 - 1)) with n by lia.
Qed.

(** C10.  [get_code] stores the lines as [readlines] returns them, line
    feed included, and [check_s001] compares the length of the stored line
    with 79.  A line of 79 visible characters followed by a line feed is
    stored with length 80 and receives [S001]; the same 79 characters as the
    last line of the file, with no line feed, are stored with length 79 and
    receive nothing.  [pre] is the text of the lines before, [n] their
    number. *)
Theorem line_too_long_counts_line_feed (pre vis : list ascii) :
  pre = [] ∨ (∃ pre', pre = pre' ++ [newline]) →
  newline ∉ vis →
  length vis = 79%nat →
  py_len (vis ++ [newline]) = 80
  ∧ s001_line (vis ++ [newline]) = true
  ∧ s001_line vis = false
  ∧ (∀ E d file post,
       file_text E file = Some (pre ++ vis ++ newline :: post) →
       ∃ a1 a2 m,
         get_code E (Analyzer d [file] ∅ ∅) = Ok a1
         ∧ code a1 !! file = Some (readlines (pre ++ vis ++ newline :: post))
         ∧ concat (readlines (pre ++ vis ++ newline :: post)) = pre ++ vis ++ newline :: post
         ∧ readlines (pre ++ vis ++ newline :: post) !! length (readlines pre)
           = Some (vis ++ [newline])
         ∧ check_s001 file a1 = Ok a2
         ∧ issues a2 !! file = Some m
         ∧ m !! (Z.of_nat (length (readlines pre)) + 1) = Some [Plain "S001"])
  ∧ (∀ E d file,
       file_text E file = Some (pre ++ vis) →
       ∃ a1 a2 m,
         get_code E (Analyzer d [file] ∅ ∅) = Ok a1
         ∧ code a1 !! file = Some (readlines (pre ++ vis))
         ∧ readlines (pre ++ vis) !! length (readlines pre) = Some vis
         ∧ check_s001 file a1 = Ok a2
         ∧ issues a2 !! file = Some m
         ∧ m !! (Z.of_nat (length (readlines pre)) + 1) = Some []).
Proof.
  intros Hpre Hnl Hlen.
  assert (py_len (vis ++ [newline]) = 80) as H80.
  { unfold py_len. rewrite length_app, Hlen. done. }
  assert (s001_line (vis ++ [newline]) = true) as Hlong.
  { unfold s001_line. rewrite H80. done. }
  assert (s001_line vis = false) as Hshort.
  { unfold s001_line, py_len. rewrite Hlen. done. }
  split_and!; [done..| |].
  - intros E d file post Ht.
    assert (readlines (pre ++ vis ++ newline :: post) !! length (readlines pre)
            = Some (vis ++ [newline])) as Hline.
    { rewrite readlines_prefix, readlines_app, readlines_one_line_feed by done.
      rewrite lookup_app_r by done. by rewrite Nat.sub_diag. }
    destruct (check_s001_one_file E d file _ _ _ Ht Hline)
      as (a1 & a2 & m & ? & ? & ? & ? & ? & Hm).
    rewrite Hlong in Hm. by exists a1, a2, m.
  - intros E d file Ht.
    assert (readlines (pre ++ vis) !! length (readlines pre) = Some vis) as Hline.
    { rewrite readlines_prefix, (readlines_one vis) by (done || by intros ->).
      rewrite lookup_app_r by done. by rewrite Nat.sub_diag. }
    destruct (check_s001_one_file E d file _ _ _ Ht Hline)
      as (a1 & a2 & m & ? & ? & ? & ? & ? & Hm).
    rewrite Hshort in Hm. by exists a1, a2, m.
Qed.

(** The theorem at a second line of 79 letters. *)
Lemma line_too_long_counts_line_feed_witness :
  s001_line (replicate 79 "x"%char ++ [newline]) = true
  ∧ s001_line (replicate 79 "x"%char) = false.
Proof.
  destruct (line_too_long_counts_line_feed
              (chars "import os" ++ [newline]) (replicate 79 "x"%char))
    as (_ & Hlong & Hshort & _).
  - right. by exists (chars "import os").
  - vm_compute. intros Hin. apply list_elem_of_In in Hin. simpl in Hin.
    repeat (destruct Hin as [Hin|Hin]; [discriminate Hin|]). done.
  - reflexivity.
  - by split.
Defined.

(** ** The mutable-default check *)

(** C3, as the code has it.  For a function definition, the check adds
    [S012] to the set of every line that carries a default that is a list,
    dict or set literal, and changes no other set.  The findings of a line
    form a set: a line with two such defaults receives [S012] once. *)
Theorem mutable_default_findings (file name : string) (lineno : Z) (args : list arg)
    (defaults : list default_expr) (a : analyzer) (m : gmap Z (list issue)) :
  issues a !! file = Some m →
  (∀ d, d ∈ defaults → is_mutable d = true → is_Some (m !! d_lineno d)) →
  ∃ m', check_s012 file (FunctionDef name lineno args defaults) a
        = Ok (set_issues a (<[file := m']> (issues a)))
    ∧ (∀ i, m' !! i =
         if existsb (λ d, is_mutable d && bool_decide (d_lineno d = i)) defaults
         then set_add (Plain "S012") <$> m !! i else m !! i)
    ∧ (∀ i s', m !! i = Some [] → m' !! i = Some s' → (length s' ≤ 1)%nat).
Proof.
  intros Hm Hkeys.
  destruct (for_each_add_spec d_lineno is_mutable (Plain "S012") file defaults a m)
    as (m' & Hrun & Hm'); [done..|].
  exists m'. split_and!; [done|done|].
  intros i s' Hi. rewrite Hm', Hi. case_match; simpl; intros [= <-]; simpl; lia.
Qed.

(** The theorem at [def f(a=[], b={})], both defaults on line 1: one
    finding. *)
Lemma mutable_default_findings_witness :
  ∃ m', check_s012 "a.py"
          (FunctionDef "f" 1 [Arg "a" 1; Arg "b" 1] [Default EList 1; Default EDict 1])
          (Analyzer None ["a.py"]%string ∅ {[ "a.py"%string := {[ 1 := [] ]} ]})
        = Ok (Analyzer None ["a.py"]%string ∅ {[ "a.py"%string := m' ]})
    ∧ m' !! 1 = Some [Plain "S012"].
Proof.
  destruct (mutable_default_findings "a.py" "f" 1 [Arg "a" 1; Arg "b" 1]
              [Default EList 1; Default EDict 1]
              (Analyzer None ["a.py"]%string ∅ {[ "a.py"%string := {[ 1 := [] ]} ]})
              {[ 1 := [] ]})
    as (m' & Hrun & Hm' & _).
  - reflexivity.
  - intros d Hd _. apply list_elem_of_In in Hd. simpl in Hd.
    destruct Hd as [<-|[<-|[]]]; by exists [].
  - exists m'. split.
    + rewrite Hrun. unfold set_issues. simpl. by rewrite insert_singleton_eq.
    + by rewrite Hm'.
Defined.

(** C3 as stated fails: two offending defaults on line 1, one finding. *)
Lemma two_defaults_counterexample :
  ¬ (∀ (file name : string) (lineno : Z) (args : list arg) (defaults : list default_expr)
       (a a' : analyzer) (m m' : gmap Z (list issue)) (i : Z) (s' : list issue),
       check_s012 file (FunctionDef name lineno args defaults) a = Ok a' →
       issues a !! file = Some m → m !! i = Some [] →
       issues a' !! file = Some m' → m' !! i = Some s' →
       length s'
       = length (filter (λ d, is_mutable d = true ∧ d_lineno d = i) defaults)).
Proof.
  intros H.
  specialize (H "a.py"%string "f"%string 1 [Arg "a" 1; Arg "b" 1]
                [Default EList 1; Default EDict 1]
                (Analyzer None ["a.py"]%string ∅ {[ "a.py"%string := {[ 1 := [] ]} ]})
                (Analyzer None ["a.py"]%string ∅
                   {[ "a.py"%string := {[ 1 := [Plain "S012"] ]} ]})
                {[ 1 := [] ]} {[ 1 := [Plain "S012"] ]} 1 [Plain "S012"]).
  assert (1 = 2)%nat; [|done]. apply H; by vm_compute.
Qed.

(** ** A file that does not parse *)

Lemma for_each_app {A} (body : A → analyzer → result analyzer) (l1 l2 : list A) a :
  for_each (l1 ++ l2) body a = a' ← for_each l1 body a; for_each l2 body a'.
Proof.
  revert a. induction l1 as [|x l1 IH]; intros a; simpl; [done|].
  destruct (body x a); simpl; [apply IH|done].
Qed.

Lemma when_add_same_keys file i b x a a' :
  when b (add_issue file i x) a = Ok a' → same_keys a a'.
Proof. apply (add_like_same_keys file i), add_like_when. Qed.

Lemma tree_checks_same_keys file (n : node) a a' :
  (a ← check_s008 file n a; a ← check_s009 file n a; a ← check_s010 file n a;
   a ← check_s011 file n a; check_s012 file n a) = Ok a' →
  same_keys a a'.
Proof.
  assert (∀ a a', check_s008 file n a = Ok a' → same_keys a a') as H8.
  { intros ??. destruct n; simpl; try (by intros [= ->]). apply when_add_same_keys. }
  assert (∀ a a', check_s009 file n a = Ok a' → same_keys a a') as H9.
  { intros ??. destruct n; simpl; try (by intros [= ->]). apply when_add_same_keys. }
  assert (∀ a a', check_s010 file n a = Ok a' → same_keys a a') as H10.
  { intros ??. destruct n; simpl; try (by intros [= ->]).
    apply for_each_same_keys. intros ??? _. apply when_add_same_keys. }
  assert (∀ a a', check_s011 file n a = Ok a' → same_keys a a') as H11.
  { intros ??. destruct n as [| |? []|? []|]; simpl; try (by intros [= ->]);
      apply when_add_same_keys. }
  assert (∀ a a', check_s012 file n a = Ok a' → same_keys a a') as H12.
  { intros ??. destruct n; simpl; try (by intros [= ->]).
    apply for_each_same_keys. intros ??? _. apply when_add_same_keys. }
  destruct (check_s008 file n a) as [a1|] eqn:E1; simpl; [|done].
  destruct (check_s009 file n a1) as [a2|] eqn:E2; simpl; [|done].
  destruct (check_s010 file n a2) as [a3|] eqn:E3; simpl; [|done].
  destruct (check_s011 file n a3) as [a4|] eqn:E4; simpl; [|done].
  intros E5. eauto 10 using same_keys_trans.
Qed.

Lemma check_ast_same_keys E file a a' : check_ast E file a = Ok a' → same_keys a a'.
Proof.
  unfold check_ast. destruct (code a !! file); [|done].
  destruct (ast_walk E _); [|done].
  apply for_each_same_keys. intros n ?? _. apply tree_checks_same_keys.
Qed.

Lemma analyze_file_same_keys E file a a' :
  keys_ok file a → analyze_file E file a = Ok a' → same_keys a a'.
Proof.
  intros Hk. unfold analyze_file.
  destruct (line_checks_total file a Hk) as (a1 & -> & Hk1). simpl.
  intros ?%check_ast_same_keys. by eapply same_keys_trans.
Qed.

Lemma analyze_files_same_keys E (l : list string) : ∀ a a',
  (∀ f, f ∈ l → keys_ok f a) →
  for_each l (analyze_file E) a = Ok a' → same_keys a a'.
Proof.
  induction l as [|f l IH]; intros a a' Hk; simpl.
  - by intros [= ->].
  - destruct (analyze_file E f a) as [a1|] eqn:Hf; simpl; [|done]. intros Hl.
    assert (same_keys a a1) as Hk1.
    { eapply analyze_file_same_keys; [|done]. apply Hk. apply elem_of_cons. by left. }
    eapply same_keys_trans; [done|]. apply IH; [|done].
    intros f' Hf'. eapply keys_ok_same_keys; [done|]. apply Hk. apply elem_of_cons. by right.
Qed.

(** ** The order of the report *)

Lemma string_leb_trans (a b c : string) :
  String.leb a b = true → String.leb b c = true → String.leb a c = true.
Proof.
  revert b c. induction a as [|x a IH]; intros [|y b] [|z c]; unfold String.leb; simpl;
    try done.
  unfold Ascii.compare.
  destruct (N.compare_spec (N_of_ascii x) (N_of_ascii y)) as [Hxy|Hxy|Hxy],
           (N.compare_spec (N_of_ascii y) (N_of_ascii z)) as [Hyz|Hyz|Hyz],
           (N.compare_spec (N_of_ascii x) (N_of_ascii z)) as [Hxz|Hxz|Hxz];
    try done; try lia.
  apply IH.
Qed.

Lemma string_leb_refl (a : string) : String.leb a a = true.
Proof. by destruct (String.leb_total a a). Qed.

Section sorted_by.
Context {A : Type} (le : A → A → bool).

Lemma insert_by_perm x l : insert_by le x l ≡ₚ x :: l.
Proof.
  induction l as [|y l IH]; simpl; [done|].
  destruct (le x y); [done|]. by rewrite IH, Permutation_swap.
Qed.

Lemma sorted_by_perm l : sorted_by le l ≡ₚ l.
Proof.
  induction l as [|x l IH]; simpl; [done|]. by rewrite insert_by_perm, IH.
Qed.

Hypothesis le_total : ∀ x y, le x y = true ∨ le y x = true.
Hypothesis le_trans : ∀ x y z, le x y = true → le y z = true → le x z = true.

Lemma insert_by_sorted x l :
  StronglySorted (λ a b, le a b = true) l →
  StronglySorted (λ a b, le a b = true) (insert_by le x l).
Proof.
  induction 1 as [|y l Hl IH Hy]; simpl; [repeat constructor|].
  destruct (le x y) eqn:Hxy.
  - constructor; [by constructor|]. constructor; [done|].
    eapply Forall_impl; [done|]. intros z Hz. simpl in *. by eapply le_trans.
  - constructor; [done|]. rewrite insert_by_perm. constructor; [|done].
    destruct (le_total x y); congruence.
Qed.

Lemma sorted_by_sorted l : StronglySorted (λ a b, le a b = true) (sorted_by le l).
Proof.
  induction l as [|x l IH]; simpl; [constructor|]. by apply insert_by_sorted.
Qed.

(** The sort is stable: elements that compare equal keep their order. *)
Lemma insert_by_filter (P : A → Prop) `{!∀ x, Decision (P x)} x l :
  (∀ y, y ∈ l → P x → P y → le x y = true) →
  filter P (insert_by le x l) = filter P (x :: l).
Proof.
  induction l as [|y l IH]; intros Hle; simpl; [done|].
  destruct (le x y) eqn:Hxy; [done|].
  assert (filter P (insert_by le x l) = filter P (x :: l)) as IH'.
  { apply IH. intros z Hz. apply Hle. apply elem_of_cons. by right. }
  destruct (decide (P y)) as [Hy|Hy].
  - rewrite (filter_cons_True P y) by done. rewrite IH'.
    assert (¬ P x) as Hx.
    { intros Hx. rewrite Hle in Hxy; [done|apply elem_of_cons; by left|done..]. }
    rewrite !(filter_cons_False P x) by done. by rewrite filter_cons_True.
  - rewrite (filter_cons_False P y) by done. rewrite IH'.
    destruct (decide (P x)).
    + rewrite !(filter_cons_True P x) by done. by rewrite filter_cons_False.
    + rewrite !(filter_cons_False P x) by done. by rewrite filter_cons_False.
Qed.

Lemma sorted_by_filter (P : A → Prop) `{!∀ x, Decision (P x)} l :
  (∀ x y, P x → P y → le x y = true) →
  filter P (sorted_by le l) = filter P l.
Proof.
  intros Hle. induction l as [|x l IH]; simpl; [done|].
  rewrite insert_by_filter by (intros; by apply Hle).
  destruct (decide (P x)).
  - rewrite !(filter_cons_True P x) by done. by rewrite IH.
  - rewrite !(filter_cons_False P x) by done. by rewrite IH.
Qed.
End sorted_by.

Lemma bind_perm_ext {A B} (f g : A → list B) (l : list A) :
  (∀ x, x ∈ l → f x ≡ₚ g x) → l ≫= f ≡ₚ l ≫= g.
Proof.
  induction l as [|x l IH]; intros Hfg; [done|]. rewrite !bind_cons.
  rewrite (Hfg x) by (apply elem_of_cons; by left).
  rewrite IH; [done|]. intros y Hy. apply Hfg. apply elem_of_cons. by right.
Qed.

Lemma bind_sorted {A B} (R : relation B) (Rk : relation A) (f : A → list B) (l : list A) :
  StronglySorted Rk l →
  (∀ x, x ∈ l → StronglySorted R (f x)) →
  (∀ x y a b, Rk x y → a ∈ f x → b ∈ f y → R a b) →
  StronglySorted R (l ≫= f).
Proof.
  intros Hl Hf HR. induction Hl as [|x l Hl IH Hx]; [constructor|].
  rewrite bind_cons. apply StronglySorted_app. split_and!.
  - intros a b Ha Hb. apply list_elem_of_bind in Hb as (y & Hb & Hy).
    eapply HR; [|done..]. by eapply Forall_forall in Hx.
  - apply Hf. apply elem_of_cons. by left.
  - apply IH. intros y Hy. apply Hf. apply elem_of_cons. by right.
Qed.

Lemma sorted_strict {A K} (R : relation A) (key : A → K) (l : list A) :
  StronglySorted R l → NoDup (key <$> l) →
  StronglySorted (λ x y, R x y ∧ key x ≠ key y) l.
Proof.
  induction 1 as [|x l Hl IH Hx]; intros Hnd; [constructor|].
  rewrite fmap_cons in Hnd. apply NoDup_cons in Hnd as [Hnx Hnd].
  constructor; [by apply IH|]. apply Forall_forall. intros y Hy. split.
  - by eapply Forall_forall in Hx.
  - intros Heq. apply Hnx. rewrite Heq. apply list_elem_of_fmap. eauto.
Qed.

Lemma filter_none {B} (P : B → Prop) `{!∀ b, Decision (P b)} (l : list B) :
  (∀ b, b ∈ l → ¬ P b) → filter P l = [].
Proof.
  induction l as [|b l IH]; intros Hn; [done|].
  rewrite filter_cons_False by (apply Hn, elem_of_cons; by left).
  apply IH. intros b' Hb'. apply Hn, elem_of_cons. by right.
Qed.

Lemma filter_all {B} (P : B → Prop) `{!∀ b, Decision (P b)} (l : list B) :
  (∀ b, b ∈ l → P b) → filter P l = l.
Proof.
  induction l as [|b l IH]; intros Hn; [done|].
  rewrite filter_cons_True by (apply Hn, elem_of_cons; by left).
  f_equal. apply IH. intros b' Hb'. apply Hn, elem_of_cons. by right.
Qed.

(** The records picked by [P] all come from the one item [x]. *)
Lemma filter_bind_one {A B} (P : B → Prop) `{!∀ b, Decision (P b)} (g : A → list B)
    (x : A) (l : list A) :
  NoDup l → x ∈ l →
  (∀ y b, y ∈ l → y ≠ x → b ∈ g y → ¬ P b) →
  filter P (l ≫= g) = filter P (g x).
Proof.
  assert (∀ l' : list A, (∀ y b, y ∈ l' → b ∈ g y → ¬ P b) → filter P (l' ≫= g) = []) as Hnone.
  { induction l' as [|y l' IH]; intros Hn; [done|]. rewrite bind_cons, filter_app.
    rewrite IH by (intros z b Hz; apply Hn; apply elem_of_cons; by right).
    rewrite app_nil_r. apply filter_none. intros b Hb. apply (Hn y); [|done].
    apply elem_of_cons. by left. }
  induction l as [|y l IH]; intros Hnd Hx Hne; [by apply elem_of_nil in Hx|].
  apply NoDup_cons in Hnd as [Hny Hnd]. rewrite bind_cons, filter_app.
  apply elem_of_cons in Hx as [->|Hx].
  - rewrite Hnone; [by rewrite app_nil_r|]. intros z b Hz. apply Hne.
    + apply elem_of_cons. by right.
    + by intros ->.
  - rewrite IH; [|done|done|].
    + assert (filter P (g y) = []) as ->; [|done]. apply filter_none.
      intros b Hb. apply (Hne y); [apply elem_of_cons; by left| |done]. by intros ->.
    + intros z b Hz. apply Hne. apply elem_of_cons. by right.
Qed.

Lemma fmap_sorted {A B} (R : relation A) (R' : relation B) (f : A → B) (l : list A) :
  (∀ x y, R x y → R' (f x) (f y)) → StronglySorted R l → StronglySorted R' (f <$> l).
Proof.
  intros Hf. induction 1 as [|x l Hl IH Hx]; [constructor|].
  rewrite fmap_cons. constructor; [done|]. apply Forall_fmap.
  eapply Forall_impl; [done|]. intros y ?. by apply Hf.
Qed.

Lemma sorted_keys_strict {K V} (le : K → K → bool) (l : list (K * V)) :
  (∀ x y, le x y = true ∨ le y x = true) →
  (∀ x y z, le x y = true → le y z = true → le x z = true) →
  NoDup (l.*1) →
  StronglySorted (λ x y, le x.1 y.1 = true ∧ x.1 ≠ y.1) (sorted_by (λ x y, le x.1 y.1) l)
  ∧ NoDup (sorted_by (λ x y, le x.1 y.1) l).
Proof.
  intros Htot Htrans Hnd.
  assert (NoDup ((sorted_by (λ x y : K * V, le x.1 y.1) l).*1)) as Hnd'.
  { by rewrite sorted_by_perm. }
  split.
  - apply sorted_strict; [|done]. apply sorted_by_sorted; [intros; apply Htot|].
    intros ???. apply Htrans.
  - by apply NoDup_fmap_1 in Hnd'.
Qed.

Lemma elem_of_line_records file (lines : gmap Z (list issue)) (r : report) :
  r ∈ (sorted_by (λ x y, x.1 <=? y.1) (map_to_list lines) ≫=
         λ '(line, s), Report file line <$> sorted_by issue_le s) →
  r_file r = file ∧ ∃ s, lines !! r_line r = Some s ∧ r_issue r ∈ s.
Proof.
  intros ([line s] & Hr & Hls)%list_elem_of_bind.
  apply list_elem_of_fmap in Hr as (x & -> & Hx). simpl. split; [done|].
  rewrite sorted_by_perm in Hls. rewrite sorted_by_perm in Hx.
  apply elem_of_map_to_list in Hls. eauto.
Qed.

(** The records of one line of one file, as the report lists them. *)
Lemma filter_line_records (Q : report → Prop) `{!∀ r, Decision (Q r)}
    (iss : gmap string (gmap Z (list issue))) f lines l s :
  iss !! f = Some lines → lines !! l = Some s →
  (∀ r, Q r → r_file r = f ∧ r_line r = l) →
  filter Q (show_msgs_calls iss) = filter Q (Report f l <$> sorted_by issue_le s).
Proof.
  intros Hf Hl HQ. unfold show_msgs_calls.
  destruct (sorted_keys_strict String.leb (map_to_list iss)) as [_ Hnd1];
    [apply String.leb_total|apply string_leb_trans|apply NoDup_fst_map_to_list|].
  rewrite (filter_bind_one Q _ (f, lines)); [|done| |].
  - destruct (sorted_keys_strict Z.leb (map_to_list lines)) as [_ Hnd2];
      [lia|lia|apply NoDup_fst_map_to_list|].
    rewrite (filter_bind_one Q _ (l, s)); [done|done| |].
    + rewrite sorted_by_perm. by apply elem_of_map_to_list.
    + intros [l' s'] r Hin Hne Hr HQr. apply HQ in HQr as [_ HQr].
      apply list_elem_of_fmap in Hr as (x & -> & _). simpl in HQr. subst l'.
      rewrite sorted_by_perm in Hin. apply elem_of_map_to_list in Hin. congruence.
  - rewrite sorted_by_perm. by apply elem_of_map_to_list.
  - intros [f' lines'] r Hin Hne Hr HQr. apply HQ in HQr as [HQr _].
    apply elem_of_line_records in Hr as [Hr _]. subst f'. rewrite HQr in Hin.
    rewrite sorted_by_perm in Hin. apply elem_of_map_to_list in Hin. congruence.
Qed.

(** C5, as the code has it.  The report lists every finding of the
    registry, none twice and none dropped; files in the order of their
    identifiers, character by character; within a file, lines in ascending
    order; within a line, issues by code.  The sort of the issues of a line
    compares codes only and is stable: issues with the same code, such as
    two names under one code, come in the order in which the set of the
    line yields them, which is not the order of the names. *)
Theorem report_order (iss : gmap string (gmap Z (list issue))) :
  show_msgs_calls iss ≡ₚ all_records iss
  ∧ StronglySorted report_le (show_msgs_calls iss)
  ∧ (∀ f lines l s, iss !! f = Some lines → lines !! l = Some s →
       filter (λ r, r_file r = f ∧ r_line r = l) (show_msgs_calls iss)
       = Report f l <$> sorted_by issue_le s
       ∧ StronglySorted (λ x y, String.leb (issue_key x) (issue_key y) = true)
           (sorted_by issue_le s)
       ∧ ∀ c, filter (λ x, issue_key x = c) (sorted_by issue_le s)
              = filter (λ x, issue_key x = c) s).
Proof.
  split_and!.
  - unfold show_msgs_calls, all_records. rewrite sorted_by_perm.
    apply bind_perm_ext. intros [file lines] _. rewrite sorted_by_perm.
    apply bind_perm_ext. intros [line s] _. by rewrite sorted_by_perm.
  - unfold show_msgs_calls.
    destruct (sorted_keys_strict String.leb (map_to_list iss)) as [Hs1 _];
      [apply String.leb_total|apply string_leb_trans|apply NoDup_fst_map_to_list|].
    eapply bind_sorted; [exact Hs1| |].
    + intros [file lines] _.
      destruct (sorted_keys_strict Z.leb (map_to_list lines)) as [Hs2 _];
        [lia|lia|apply NoDup_fst_map_to_list|].
      eapply bind_sorted; [exact Hs2| |].
      * intros [line s] _.
        eapply fmap_sorted; [|apply (sorted_by_sorted issue_le)].
        -- intros x y Hxy. right. simpl. split; [done|]. right. done.
        -- intros x y. apply String.leb_total.
        -- intros x y z. apply string_leb_trans.
      * intros [l1 s1] [l2 s2] a b [Hle Hne] Ha Hb. simpl in *.
        apply list_elem_of_fmap in Ha as (x & -> & _).
        apply list_elem_of_fmap in Hb as (y & -> & _).
        right. simpl. split; [done|]. left. lia.
    + intros [f1 m1] [f2 m2] a b [Hle Hne] Ha Hb. simpl in *.
      apply elem_of_line_records in Ha as [Ha _].
      apply elem_of_line_records in Hb as [Hb _]. left. by rewrite Ha, Hb.
  - intros f lines l s Hf Hl. split_and!.
    + rewrite (filter_line_records _ iss f lines l s) by done.
      apply filter_all. intros r (x & -> & _)%list_elem_of_fmap. done.
    + apply (sorted_by_sorted issue_le).
      * intros x y. apply String.leb_total.
      * intros x y z. apply string_leb_trans.
    + intros c. apply sorted_by_filter. intros x y Hx Hy. unfold issue_le.
      rewrite Hx, Hy. apply string_leb_refl.
Qed.

(** C5 as stated fails: two names under one code on one line are listed as
    the set yields them, here [bB] before [aA]. *)
Lemma report_order_counterexample :
  ¬ (∀ (iss : gmap string (gmap Z (list issue))) (i j : nat) (file : string) (line : Z)
       (c n1 n2 : string),
       show_msgs_calls iss !! i = Some (Report file line (Named c n1)) →
       show_msgs_calls iss !! j = Some (Report file line (Named c n2)) →
       (i < j)%nat →
       String.leb n1 n2 = true).
Proof.
  intros H.
  specialize (H {[ "a.py"%string := {[ 1 := [Named "S010" "bB"; Named "S010" "aA"] ]} ]}
                0%nat 1%nat "a.py"%string 1 "S010"%string "bB"%string "aA"%string).
  assert (String.leb "bB" "aA" = true) as Hle; [|by vm_compute in Hle].
  apply H; [by vm_compute|by vm_compute|lia].
Qed.

(** * Further properties of the code *)

(** ** The registry *)

(** A loop of additions, each item with its own line and its own issue:
    the set of a line receives the issues of the items of that line, and no
    set loses an element. *)
Lemma for_each_add_elem {A} (key : A → Z) (p : A → bool) (x : A → issue) (file : string)
    (l : list A) : ∀ a m,
  issues a !! file = Some m →
  (∀ y, y ∈ l → p y = true → is_Some (m !! key y)) →
  ∃ m', for_each l (λ y, when (p y) (add_issue file (key y) (x y))) a
        = Ok (set_issues a (<[file := m']> (issues a)))
    ∧ (∀ i, m !! i = None → m' !! i = None)
    ∧ ∀ i s, m !! i = Some s →
        ∃ s', m' !! i = Some s'
          ∧ (NoDup s → NoDup s')
          ∧ ∀ z, z ∈ s' ↔ z ∈ s ∨ ∃ y, y ∈ l ∧ p y = true ∧ key y = i ∧ z = x y.
Proof.
  induction l as [|y l IH]; intros a m Hm Hkeys; simpl.
  - exists m. split; [by rewrite insert_id, set_issues_id|]. split; [done|].
    intros i s Hs. exists s. split_and!; [done|done|]. intros z. split; [by left|].
    intros [?|(y & Hy%elem_of_nil & _)]; done.
  - destruct (p y) eqn:Hp; simpl.
    + destruct (Hkeys y) as [s0 Hs0]; [apply elem_of_cons; by left|done|].
      set (m1 := <[key y := set_add (x y) s0]> m).
      assert (add_issue file (key y) (x y) a
              = Ok (set_issues a (<[file := m1]> (issues a)))) as ->.
      { unfold add_issue. by rewrite Hm, Hs0. }
      simpl.
      destruct (IH (set_issues a (<[file := m1]> (issues a))) m1)
        as (m' & Hrun & Hnone & Hm').
      { simpl. by rewrite lookup_insert_eq. }
      { intros y' Hy' Hp'. unfold m1. apply lookup_insert_is_Some'.
        right. apply Hkeys; [apply elem_of_cons; by right|done]. }
      exists m'. split; [rewrite Hrun; simpl; by rewrite insert_insert_eq|]. split.
      { intros i Hi. apply Hnone. unfold m1. rewrite lookup_insert_ne; [done|].
        intros <-. congruence. }
      intros i s Hs. destruct (decide (key y = i)) as [Heq|Hne].
      * subst i. rewrite Hs0 in Hs. injection Hs as <-.
        destruct (Hm' (key y) (set_add (x y) s0)) as (s' & Hs' & Hnd & Hel).
        { unfold m1. by rewrite lookup_insert_eq. }
        exists s'. split_and!; [done|intros; by apply Hnd, set_add_NoDup|].
        intros z. rewrite Hel, set_add_elem. split.
        -- intros [[->|?]|(y' & ? & ? & ? & ?)].
           ++ right. exists y. split_and!; [apply elem_of_cons; by left|done..].
           ++ by left.
           ++ right. exists y'. split_and!; [apply elem_of_cons; by right|done..].
        -- intros [?|(y' & [->|?]%elem_of_cons & ? & ? & ->)].
           ++ left. by right.
           ++ left. by left.
           ++ right. by exists y'.
      * destruct (Hm' i s) as (s' & Hs' & Hnd & Hel).
        { unfold m1. by rewrite lookup_insert_ne. }
        exists s'. split_and!; [done|done|].
        intros z. rewrite Hel. split.
        -- intros [?|(y' & ? & ? & ? & ?)]; [by left|].
           right. exists y'. split_and!; [apply elem_of_cons; by right|done..].
        -- intros [?|(y' & [->|?]%elem_of_cons & ? & ? & ->)]; [by left|done|].
           right. by exists y'.
    + destruct (IH a m) as (m' & Hrun & Hnone & Hm'); [done| |].
      { intros y' Hy' Hp'. apply Hkeys; [apply elem_of_cons; by right|done]. }
      exists m'. split; [done|]. split; [done|].
      intros i s Hs. destruct (Hm' i s Hs) as (s' & Hs' & Hnd & Hel).
      exists s'. split_and!; [done|done|]. intros z. rewrite Hel. split.
      * intros [?|(y' & ? & ? & ? & ?)]; [by left|].
        right. exists y'. split_and!; [apply elem_of_cons; by right|done..].
      * intros [?|(y' & [->|?]%elem_of_cons & ? & ? & ->)]; [by left|congruence|].
        right. by exists y'.
Qed.

(** X1.  [self.issues[file][i].add(x)] needs the file and the line to be
    keys of the registry, and raises [KeyError] otherwise.  When it returns,
    the set of line [i] holds [x] and what it held before, without
    repetition; every other set, the stored code and the file names are
    untouched; and adding [x] again changes nothing. *)
Theorem add_issue_spec (file : string) (i : Z) (x : issue) (a a' : analyzer) :
  add_issue file i x a = Ok a' →
  ∃ m s, issues a !! file = Some m ∧ m !! i = Some s
    ∧ issues a' !! file = Some (<[i := set_add x s]> m)
    ∧ (∀ y, y ∈ set_add x s ↔ y = x ∨ y ∈ s)
    ∧ (NoDup s → NoDup (set_add x s))
    ∧ (∀ j, j ≠ i → <[i := set_add x s]> m !! j = m !! j)
    ∧ (∀ f, f ≠ file → issues a' !! f = issues a !! f)
    ∧ dir a' = dir a ∧ filenames a' = filenames a ∧ code a' = code a
    ∧ add_issue file i x a' = Ok a'
    ∧ (∀ b, issues b !! file = None → add_issue file i x b = Raise KeyError)
    ∧ (∀ b mb, issues b !! file = Some mb → mb !! i = None →
         add_issue file i x b = Raise KeyError).
Proof.
  unfold add_issue at 1. destruct (issues a !! file) as [m|] eqn:Hm; [|done].
  destruct (m !! i) as [s|] eqn:Hs; [|done]. intros [= <-]. exists m, s.
  split_and!; try done.
  - simpl. by rewrite lookup_insert_eq.
  - intros y. apply set_add_elem.
  - apply set_add_NoDup.
  - intros j Hj. by rewrite lookup_insert_ne.
  - intros f Hf. simpl. by rewrite lookup_insert_ne.
  - unfold add_issue. simpl. rewrite !lookup_insert_eq. simpl.
    by rewrite set_add_idemp, !insert_insert_eq.
  - intros b Hb. unfold add_issue. by rewrite Hb.
  - intros b mb Hb Hi. unfold add_issue. by rewrite Hb, Hi.
Qed.

(** The theorem at a registry with one file of one line. *)
Lemma add_issue_spec_witness :
  ∃ m s, issues (Analyzer None [] ∅ {[ "a.py"%string := {[ 1 := [Plain "S001"] ]} ]})
           !! "a.py"%string = Some m
         ∧ m !! 1 = Some s.
Proof.
  destruct (add_issue_spec "a.py" 1 (Plain "S003")
              (Analyzer None [] ∅ {[ "a.py"%string := {[ 1 := [Plain "S001"] ]} ]})
              (Analyzer None [] ∅
                 {[ "a.py"%string := {[ 1 := [Plain "S001"; Plain "S003"] ]} ]}))
    as (m & s & Hm & Hs & _).
  - by vm_compute.
  - by exists m, s.
Defined.

(** ** The spans of the boundary scanner *)

Lemma zip_with_snoc_l {A B C} (f : A → B → C) (hs : list A) (ts : list B) (h : A) :
  length hs = length ts → zip_with f (hs ++ [h]) ts = zip_with f hs ts.
Proof.
  intros Hlen. transitivity (zip_with f (hs ++ [h]) (ts ++ [])); [by rewrite app_nil_r|].
  rewrite (zip_with_app f hs [h] ts []) by done. simpl. by rewrite app_nil_r.
Qed.

Lemma merged_open (hs ts : list Z) (c c' : option Z) (i : Z) :
  length hs = length ts →
  merged (Boundaries (hs ++ [i]) ts c) = merged (Boundaries hs ts c') ++ [i].
Proof.
  intros Hlen. unfold merged. simpl. rewrite zip_with_snoc_l by done.
  rewrite <-Hlen, drop_app_length, drop_all. by rewrite app_nil_r.
Qed.

Lemma merged_close (hs ts : list Z) (c c' : option Z) (h i : Z) :
  length hs = length ts →
  merged (Boundaries (hs ++ [h]) (ts ++ [i]) c)
  = merged (Boundaries (hs ++ [h]) ts c') ++ [i].
Proof.
  intros Hlen. unfold merged. simpl.
  rewrite (zip_with_app _ hs [h] ts [i]) by done. rewrite zip_with_snoc_l by done.
  simpl. rewrite concat_app. simpl.
  rewrite <-Hlen, drop_app_length, drop_ge by (rewrite !length_app; simpl; lia).
  by rewrite !app_nil_r, <-app_assoc.
Qed.

Lemma sorted_snoc (l : list Z) (lo i : Z) :
  0 ≤ lo ≤ i → StronglySorted Z.lt l → Forall (λ p, 0 ≤ p < lo) l →
  StronglySorted Z.lt (l ++ [i]) ∧ Forall (λ p, 0 ≤ p < i + 1) (l ++ [i]).
Proof.
  intros Hi Hl Hlo. split.
  - apply StronglySorted_app. split_and!; [|done|repeat constructor].
    intros a b Ha ->%list_elem_of_singleton.
    eapply Forall_forall in Hlo; [|done]. simpl in Hlo. lia.
  - apply Forall_app. split; [|apply Forall_singleton].
    + eapply Forall_impl; [done|]. intros; simpl in *; lia.
    + lia.
Qed.

Lemma is_quote_or_hash_cases (c : option ascii) :
  is_quote_or_hash c = true ↔ is_quote c ∨ c = Some hash.
Proof.
  unfold is_quote_or_hash, is_quote.
  rewrite !orb_true_iff, !bool_decide_eq_true. tauto.
Qed.

Lemma is_quote_not_hash (c : option ascii) : is_quote c → c ≠ Some hash.
Proof. intros [Hc | Hc]; by rewrite Hc. Qed.

Lemma span_inv_skip line lo opened quote res :
  is_quote_or_hash (py_index line lo) = false →
  span_inv line lo opened quote res → span_inv line (lo + 1) opened quote res.
Proof.
  intros Hq [Hp Hm Hb Hc Ho]. split; try done.
  - eapply Forall_impl; [done|]. intros; simpl in *; lia.
  - intros Hop. destruct (Ho Hop) as (hs & h & Hhs & Hlen & Hqu & Hisq & Hbetween).
    exists hs, h. split_and!; try done. intros p Hp' Hpq.
    destruct (decide (p = lo)) as [->|]; [|apply Hbetween; [lia|done]].
    apply not_true_iff_false in Hq. destruct Hq. apply is_quote_or_hash_cases.
    left. by rewrite Hpq.
Qed.

Lemma span_inv_stay line lo quote res :
  py_index line lo ≠ quote ∨ py_index line (lo - 1) = Some backslash →
  span_inv line lo true quote res → span_inv line (lo + 1) true quote res.
Proof.
  intros Hq [Hp Hm Hb Hc Ho]. split; try done.
  - eapply Forall_impl; [done|]. intros; simpl in *; lia.
  - intros Hop. destruct (Ho Hop) as (hs & h & Hhs & Hlen & Hqu & Hisq & Hbetween).
    exists hs, h. split_and!; try done. intros p Hp' Hpq.
    destruct (decide (p = lo)) as [->|]; [|apply Hbetween; [lia|done]].
    by destruct Hq.
Qed.

Lemma span_inv_open line lo quote res :
  0 ≤ lo →
  is_quote (py_index line lo) →
  span_inv line lo false quote res →
  span_inv line (lo + 1) true (py_index line lo)
    (Boundaries (b_head res ++ [lo]) (b_tail res) (b_comment res)).
Proof.
  intros Hlo Hq [Hp Hm Hb Hc Ho]. specialize (Hc eq_refl).
  destruct (sorted_snoc (merged res) lo lo) as [Hs' Hb']; [lia|done|done|].
  destruct res as [hs ts c]. simpl in *.
  split; simpl.
  - intros h t Hin. apply Hp. by rewrite zip_snoc_l in Hin.
  - by rewrite (merged_open hs ts c c).
  - by rewrite (merged_open hs ts c c).
  - done.
  - intros _. exists hs, lo. split_and!; try done. intros; lia.
Qed.

Lemma span_inv_close line lo quote res :
  0 ≤ lo < py_len line →
  py_index line lo = quote →
  py_index line (lo - 1) ≠ Some backslash →
  span_inv line lo true quote res →
  span_inv line (lo + 1) false quote
    (Boundaries (b_head res) (b_tail res ++ [lo]) (b_comment res)).
Proof.
  intros Hlo Hq Hnb [Hp Hm Hb Hc Ho].
  destruct (Ho eq_refl) as (hs & h & Hhs & Hlen & Hqu & Hisq & Hbetween).
  destruct (sorted_snoc (merged res) lo lo) as [Hs' Hb']; [lia|done|done|].
  destruct res as [hs0 ts c]. simpl in *. subst hs0.
  assert (0 ≤ h < lo) as Hh.
  { eapply Forall_forall in Hb; [exact Hb|]. unfold merged. simpl.
    apply elem_of_app. right. rewrite <-Hlen, drop_app_length.
    by apply list_elem_of_singleton. }
  split; simpl.
  - intros h' t'. rewrite zip_snoc by done. intros [Hin|Hin]%elem_of_app.
    + apply Hp. by rewrite zip_snoc_l.
    + apply list_elem_of_singleton in Hin. injection Hin as -> ->.
      split_and!; [lia|lia|lia|by rewrite <-Hqu|congruence|done|].
      intros p Hp' Hpq. apply Hbetween; [done|congruence].
  - by rewrite (merged_close hs ts c c).
  - by rewrite (merged_close hs ts c c).
  - intros _. rewrite !length_app. simpl. lia.
  - done.
Qed.

(** What holds of the spans of the result. *)
Lemma span_spec line (n : nat) : ∀ lo opened quote res,
  n = Z.to_nat (py_len line - lo) →
  0 ≤ lo ≤ py_len line →
  span_inv line lo opened quote res →
  ∃ lo' opened' quote',
    span_inv line lo' opened' quote' (scan line (quotes_from line lo) opened quote res)
    ∧ (b_comment (scan line (quotes_from line lo) opened quote res) = None →
       b_comment res = None ∧ lo' = py_len line)
    ∧ (opened' = true →
       b_comment (scan line (quotes_from line lo) opened quote res) = b_comment res).
Proof.
  induction n as [|n IH]; intros lo opened quote res Hn Hlo Hinv.
  - rewrite quotes_from_end by lia. simpl. exists lo, opened, quote.
    split_and!; [done| |done]. intros ?. split; [done|lia].
  - rewrite quotes_from_step by lia.
    destruct (is_quote_or_hash (py_index line lo)) eqn:Hq; simpl.
    2:{ apply IH; [lia|lia|]. by apply span_inv_skip. }
    destruct opened; simpl.
    + rewrite andb_false_r.
      destruct (negb (bool_decide (py_index line lo = quote))
                || bool_decide (py_index line (lo - 1) = Some backslash)) eqn:Hc.
      * apply IH; [lia|lia|]. apply span_inv_stay; [|done].
        apply orb_true_iff in Hc as [Hc|Hc].
        -- left. by apply negb_true_iff, bool_decide_eq_false in Hc.
        -- right. by apply bool_decide_eq_true in Hc.
      * apply orb_false_iff in Hc as [Hc Hc'].
        apply negb_false_iff, bool_decide_eq_true in Hc.
        apply bool_decide_eq_false in Hc'.
        destruct (IH (lo + 1) false quote
                    (Boundaries (b_head res) (b_tail res ++ [lo]) (b_comment res)))
          as (lo' & o' & q' & Hinv' & Hnone & Hop);
          [lia|lia|apply span_inv_close; [lia|done..]|].
        by exists lo', o', q'.
    + rewrite andb_true_r. case_bool_decide as Hh.
      * exists lo, false, quote. split_and!; [|done|done].
        destruct Hinv as [Hp Hm Hb Hc Ho]. split; try done.
      * apply is_quote_or_hash_cases in Hq as [Hq|Hq]; [|done].
        destruct (IH (lo + 1) true (py_index line lo)
                    (Boundaries (b_head res ++ [lo]) (b_tail res) (b_comment res)))
          as (lo' & o' & q' & Hinv' & Hnone & Hop);
          [lia|lia|apply (span_inv_open _ _ quote); [lia|done|done]|].
        by exists lo', o', q'.
Qed.

Lemma span_inv_init line : span_inv line 0 false None (Boundaries [] [] None).
Proof.
  split; simpl; try done; try (by intros ?? ?%elem_of_nil);
    try apply SSorted_nil; try apply Forall_nil_2.
Qed.

(** X2.  The spans that [find_boundaries] reports are well formed.  A head
    holds a quote character; the tail paired with it holds the same
    character and is the first position after the head that does so with no
    backslash right before it.  In the order head, tail, next head, ... the
    positions increase strictly, so the spans are disjoint and ordered.
    There is at most one head without a tail; when there is one, the line
    has no comment offset, the head is the last one, and no position after
    it holds its quote character without a backslash before. *)
Theorem spans_well_formed (line : list ascii) :
  (∀ h t, (h, t) ∈ zip (b_head (find_boundaries line)) (b_tail (find_boundaries line)) →
     span_ok line h t)
  ∧ StronglySorted Z.lt (merged (find_boundaries line))
  ∧ (length (b_tail (find_boundaries line)) ≤ length (b_head (find_boundaries line))
     ≤ length (b_tail (find_boundaries line)) + 1)%nat
  ∧ (length (b_head (find_boundaries line)) ≠ length (b_tail (find_boundaries line)) →
     b_comment (find_boundaries line) = None
     ∧ ∃ h, last (b_head (find_boundaries line)) = Some h
         ∧ is_quote (py_index line h)
         ∧ ∀ p, h < p < py_len line → py_index line p = py_index line h →
                py_index line (p - 1) = Some backslash).
Proof.
  unfold find_boundaries. rewrite quotes_from_0.
  destruct (span_spec line (Z.to_nat (py_len line - 0)) 0 false None (Boundaries [] [] None))
    as (lo' & o' & q' & [Hp Hm Hb Hc Ho] & Hnone & Hop);
    [done|unfold py_len; lia|apply span_inv_init|].
  set (r := scan line (quotes_from line 0) false None (Boundaries [] [] None)) in *.
  assert (length (b_head r) = length (b_tail r)
          ∨ (o' = true ∧ length (b_head r) = S (length (b_tail r)))) as Hlen.
  { destruct o'; [right|left; by apply Hc]. split; [done|].
    destruct (Ho eq_refl) as (hs & h & -> & <- & _). rewrite length_app. simpl. lia. }
  split_and!; [done|done|lia|lia|].
  intros Hne. destruct Hlen as [?|[-> _]]; [done|].
  specialize (Hop eq_refl). simpl in Hop. destruct (Hnone Hop) as [_ ->].
  split; [done|]. destruct (Ho eq_refl) as (hs & h & Hhs & _ & Hq & Hisq & Hbetween).
  exists h. rewrite Hhs, last_snoc. split_and!; [done|congruence|].
  intros p Hp' Hpq. apply Hbetween; [done|congruence].
Qed.

(** ** Indentation and blank lines *)

Lemma lstrip_app (ws rest : list ascii) :
  Forall (λ c, is_space c = true) ws →
  (∀ c, head rest = Some c → is_space c = false) →
  lstrip (ws ++ rest) = rest.
Proof.
  intros Hws Hrest. induction Hws as [|c ws Hc _ IH]; simpl.
  - destruct rest as [|c rest]; [done|]. simpl. by rewrite (Hrest c).
  - by rewrite Hc.
Qed.

(** X3.  A line is split into its leading whitespace [ws] and the rest.
    [check_s002] reports it if and only if the rest is not empty and the
    number of leading whitespace characters, each counted as one whatever
    it is, is not a multiple of four.  A line of whitespace only, the line
    feed included, is never reported. *)
Theorem indentation_check (ws rest : list ascii) :
  Forall (λ c, is_space c = true) ws →
  (∀ c, head rest = Some c → is_space c = false) →
  (s002_line (ws ++ rest) = true ↔ rest ≠ [] ∧ Z.of_nat (length ws) `mod` 4 ≠ 0)
  ∧ s002_line ws = false.
Proof.
  intros Hws Hrest.
  assert (∀ r, (∀ c, head r = Some c → is_space c = false) →
            s002_line (ws ++ r) = true ↔ r ≠ [] ∧ Z.of_nat (length ws) `mod` 4 ≠ 0) as Hgen.
  { intros r Hr. unfold s002_line. rewrite lstrip_app by done. unfold py_len, indentation.
    rewrite length_app, andb_true_iff, !bool_decide_eq_true.
    replace (Z.of_nat (length ws + length r) - Z.of_nat (length r))
      with (Z.of_nat (length ws)) by lia.
    pose proof (Z.mod_pos_bound (Z.of_nat (length ws)) 4).
    destruct r; simpl; split; intros [? ?]; split; try done; lia. }
  split; [by apply Hgen|].
  apply not_true_iff_false. intros Ht. rewrite <-(app_nil_r ws) in Ht.
  apply Hgen in Ht as [? _]; done.
Qed.

(** The theorem at a line indented by two spaces. *)
Lemma indentation_check_witness :
  s002_line (chars "  x = 1" ++ [newline]) = true
  ↔ chars "x = 1" ++ [newline] ≠ [] ∧ Z.of_nat (length (chars "  ")) `mod` 4 ≠ 0.
Proof.
  apply (indentation_check (chars "  ") (chars "x = 1" ++ [newline])).
  - by repeat constructor.
  - by intros c [= <-].
Defined.

Lemma vblank_cons_blank l ls start count p :
  blank l = true → 0 ≤ count →
  vblank (l :: ls) start count p = vblank ls (start + 1) (count + 1) p.
Proof.
  intros Hl Hc. unfold vblank.
  destruct (Z.ltb_spec p start), (Z.ltb_spec p (start + 1)); try lia.
  - replace p with start by lia. rewrite Z.sub_diag. simpl. rewrite Hl.
    symmetry. apply Z.leb_le. lia.
  - replace (Z.to_nat (p - start)) with (S (Z.to_nat (p - (start + 1)))) by lia. done.
Qed.

Lemma vblank_cons_after l ls start count count' p :
  start < p → vblank (l :: ls) start count p = vblank ls (start + 1) count' p.
Proof.
  intros Hp. unfold vblank.
  destruct (Z.ltb_spec p start), (Z.ltb_spec p (start + 1)); try lia.
  replace (Z.to_nat (p - start)) with (S (Z.to_nat (p - (start + 1)))) by lia. done.
Qed.

Lemma vblank_cons_here l ls start count : vblank (l :: ls) start count start = blank l.
Proof.
  unfold vblank. rewrite Z.ltb_irrefl, Z.sub_diag. done.
Qed.

Lemma hit_from_before lines start count i : i < start → hit_from lines start count i = false.
Proof.
  intros Hi. unfold hit_from. destruct (Z.leb_spec start i); [lia|done].
Qed.

Lemma lookup_cons_after {A} (l : A) (ls : list A) (start i : Z) :
  start < i → (l :: ls) !! Z.to_nat (i - start) = ls !! Z.to_nat (i - (start + 1)).
Proof.
  intros Hi. by replace (Z.to_nat (i - start)) with (S (Z.to_nat (i - (start + 1)))) by lia.
Qed.

Lemma hit_from_cons_blank l ls start count i :
  blank l = true → 0 ≤ count →
  hit_from (l :: ls) start count i = hit_from ls (start + 1) (count + 1) i.
Proof.
  intros Hl Hc. destruct (Z.lt_trichotomy i start) as [Hi|[->|Hi]].
  - rewrite !hit_from_before by lia. done.
  - rewrite (hit_from_before ls) by lia. unfold hit_from.
    rewrite Z.sub_diag. simpl. rewrite Hl. simpl. by rewrite andb_false_r.
  - unfold hit_from. rewrite !(vblank_cons_blank l ls) by done.
    rewrite lookup_cons_after by done.
    destruct (Z.leb_spec start i), (Z.leb_spec (start + 1) i); try lia. done.
Qed.

Lemma vblank_cons_code l ls start count p :
  blank l = false → start ≤ p →
  vblank (l :: ls) start count p = vblank ls (start + 1) 0 p.
Proof.
  intros Hl Hp. destruct (decide (p = start)) as [->|].
  - rewrite vblank_cons_here, Hl. unfold vblank.
    destruct (Z.ltb_spec start (start + 1)); [|lia]. symmetry. apply Z.leb_gt. lia.
  - apply vblank_cons_after. lia.
Qed.

Lemma hit_from_cons_code l ls start count i :
  blank l = false → start < i →
  hit_from (l :: ls) start count i = hit_from ls (start + 1) 0 i.
Proof.
  intros Hl Hi. unfold hit_from. rewrite lookup_cons_after by done.
  destruct (Z.leb_spec start i), (Z.leb_spec (start + 1) i); try lia. simpl.
  destruct (ls !! Z.to_nat (i - (start + 1))) as [l'|]; [|done].
  destruct (negb (blank l')); [|done]. simpl.
  rewrite (vblank_cons_code l ls start count (i - 1)) by (done || lia).
  destruct (decide (i - 1 = start)) as [Heq|].
  { rewrite Heq. unfold vblank at 1 4.
    destruct (Z.ltb_spec start (start + 1)); [|lia].
    destruct (Z.leb_spec (start + 1 - start) 0); [lia|done]. }
  rewrite (vblank_cons_code l ls start count (i - 2)) by (done || lia).
  destruct (decide (i - 2 = start)) as [Heq|].
  { rewrite Heq. unfold vblank at 2 5.
    destruct (Z.ltb_spec start (start + 1)); [|lia].
    destruct (Z.leb_spec (start + 1 - start) 0); [lia|]. by rewrite !andb_false_r. }
  by rewrite (vblank_cons_code l ls start count (i - 3)) by (done || lia).
Qed.

Lemma hit_from_cons_here l ls start count :
  blank l = false → hit_from (l :: ls) start count start = (count >? 2).
Proof.
  intros Hl. unfold hit_from. rewrite Z.leb_refl, Z.sub_diag. simpl. rewrite Hl. simpl.
  unfold vblank.
  destruct (Z.ltb_spec (start - 1) start), (Z.ltb_spec (start - 2) start),
    (Z.ltb_spec (start - 3) start); lia.
Qed.

Lemma s006_loop_spec file (lines : list (list ascii)) : ∀ start count a m,
  0 ≤ count →
  issues a !! file = Some m →
  (∀ i, start ≤ i < start + py_len lines → is_Some (m !! i)) →
  ∃ m', s006_loop file (zip (seqZ start (py_len lines)) lines) count a
        = Ok (set_issues a (<[file := m']> (issues a)))
    ∧ ∀ i, m' !! i =
        if hit_from lines start count i
        then set_add (Plain "S006") <$> m !! i else m !! i.
Proof.
  induction lines as [|l ls IH]; intros start count a m Hc Hm Hkeys.
  - exists m. simpl. split; [by rewrite insert_id, set_issues_id|].
    intros i. unfold hit_from. rewrite lookup_nil. by rewrite andb_false_r.
  - assert (py_len (l :: ls) = py_len ls + 1) as Hlen by (unfold py_len; simpl; lia).
    rewrite Hlen in Hkeys. rewrite Hlen, seqZ_cons by (unfold py_len; lia).
    replace (Z.pred (py_len ls + 1)) with (py_len ls) by lia.
    replace (Z.succ start) with (start + 1) by lia. simpl.
    fold (blank l). destruct (blank l) eqn:Hl.
    + destruct (IH (start + 1) (count + 1) a m) as (m' & Hrun & Hm'); [lia|done| |].
      { intros i Hi. apply Hkeys. lia. }
      exists m'. split; [done|]. intros i. by rewrite Hm', hit_from_cons_blank.
    + destruct (Z.gtb_spec count 2) as [Hgt|Hle].
      * rewrite bool_decide_eq_true_2 by lia. simpl.
        destruct (Hkeys start) as [s Hs]; [unfold py_len; lia|].
        set (m1 := <[start := set_add (Plain "S006") s]> m).
        assert (add_issue file start (Plain "S006") a
                = Ok (set_issues a (<[file := m1]> (issues a)))) as ->.
        { unfold add_issue. by rewrite Hm, Hs. }
        simpl.
        destruct (IH (start + 1) 0 (set_issues a (<[file := m1]> (issues a))) m1)
          as (m' & Hrun & Hm'); [lia|simpl; by rewrite lookup_insert_eq| |].
        { intros i Hi. unfold m1. apply lookup_insert_is_Some'. right. apply Hkeys. lia. }
        exists m'. split; [rewrite Hrun; simpl; by rewrite insert_insert_eq|].
        intros i. rewrite Hm'. destruct (Z.lt_trichotomy i start) as [Hi|[->|Hi]].
        -- rewrite !hit_from_before by lia. unfold m1. by rewrite lookup_insert_ne by lia.
        -- rewrite hit_from_before by lia. rewrite hit_from_cons_here by done.
           destruct (Z.gtb_spec count 2); [|lia]. unfold m1.
           by rewrite lookup_insert_eq, Hs.
        -- rewrite <-(hit_from_cons_code l ls start count) by done.
           unfold m1. by rewrite lookup_insert_ne by lia.
      * rewrite bool_decide_eq_false_2 by lia. simpl.
        destruct (IH (start + 1) 0 a m) as (m' & Hrun & Hm'); [lia|done| |].
        { intros i Hi. apply Hkeys. lia. }
        exists m'. split; [done|].
        intros i. rewrite Hm'. destruct (Z.lt_trichotomy i start) as [Hi|[->|Hi]].
        -- by rewrite !hit_from_before by lia.
        -- rewrite hit_from_before by lia. rewrite hit_from_cons_here by done.
           by destruct (Z.gtb_spec count 2); [lia|].
        -- by rewrite <-(hit_from_cons_code l ls start count) by done.
Qed.

Lemma vblank_blank_line lines p : vblank lines 1 0 p = true ↔ blank_line lines p.
Proof.
  unfold vblank, blank_line. destruct (Z.ltb_spec p 1).
  - split; [|lia]. intros ?%Z.leb_le. lia.
  - destruct (lines !! Z.to_nat (p - 1)) as [l|].
    + split; [eauto|]. by intros (_ & l' & [= <-] & ?).
    + split; [done|]. by intros (_ & l' & ? & _).
Qed.

Lemma hit_from_lines lines i :
  hit_from lines 1 0 i = true ↔
    code_line lines i ∧ blank_line lines (i - 1) ∧ blank_line lines (i - 2)
    ∧ blank_line lines (i - 3).
Proof.
  unfold hit_from. rewrite !andb_true_iff, !vblank_blank_line, Z.leb_le.
  unfold code_line. destruct (lines !! Z.to_nat (i - 1)) as [l|].
  - rewrite negb_true_iff. split.
    + intros ((((? & ?) & ?) & ?) & ?). split_and!; eauto.
    + intros ((? & l' & [= <-] & ?) & ? & ? & ?). done.
  - split; [by intros ((((? & ?) & ?) & ?) & ?)|]. by intros ((? & l' & ? & ?) & _).
Qed.

(** X4.  [check_s006] adds [S006] to line [i] if and only if line [i] is
    not blank and the three lines before it exist and are blank: the run of
    blank lines right before it has more than two lines.  No other set
    changes; a blank line is never reported, so a run of blank lines that
    ends the file goes unreported, whatever its length. *)
Theorem blank_lines_check (file : string) (a : analyzer) (lines : list (list ascii))
    (m : gmap Z (list issue)) :
  code a !! file = Some lines →
  issues a !! file = Some m →
  (∀ i, 1 ≤ i ≤ py_len lines → is_Some (m !! i)) →
  ∃ m', check_s006 file a = Ok (set_issues a (<[file := m']> (issues a)))
    ∧ (∀ i, code_line lines i → blank_line lines (i - 1) → blank_line lines (i - 2) →
            blank_line lines (i - 3) →
            m' !! i = set_add (Plain "S006") <$> m !! i)
    ∧ (∀ i, ¬ (code_line lines i ∧ blank_line lines (i - 1) ∧ blank_line lines (i - 2)
               ∧ blank_line lines (i - 3)) →
            m' !! i = m !! i)
    ∧ (∀ i, blank_line lines i → m' !! i = m !! i).
Proof.
  intros Hl Hm Hkeys. unfold check_s006. rewrite Hl. unfold enumerate1.
  destruct (s006_loop_spec file lines 1 0 a m) as (m' & Hrun & Hm'); [done|done| |].
  { intros i Hi. apply Hkeys. lia. }
  exists m'. split; [done|].
  assert (∀ i, ¬ (code_line lines i ∧ blank_line lines (i - 1) ∧ blank_line lines (i - 2)
                  ∧ blank_line lines (i - 3)) → m' !! i = m !! i) as Hno.
  { intros i Hi. rewrite Hm'. destruct (hit_from lines 1 0 i) eqn:Hh; [|done].
    by apply hit_from_lines in Hh. }
  split_and!; [|done|].
  - intros i H0 H1 H2 H3. rewrite Hm'.
    by rewrite (proj2 (hit_from_lines lines i)).
  - intros i (_ & l & Hi & Hb). apply Hno. intros [(_ & l' & Hi' & Hb') _]. congruence.
Qed.

(** The theorem at a file of three empty lines and an assignment. *)
Lemma blank_lines_check_witness :
  ∃ m', check_s006 "a.py"
          (Analyzer None ["a.py"]%string
             {[ "a.py"%string := readlines (chars (nl +:+ nl +:+ nl +:+ "x = 1" +:+ nl)) ]}
             {[ "a.py"%string :=
                  empty_sets (readlines (chars (nl +:+ nl +:+ nl +:+ "x = 1" +:+ nl))) ]})
        = Ok (Analyzer None ["a.py"]%string
                {[ "a.py"%string := readlines (chars (nl +:+ nl +:+ nl +:+ "x = 1" +:+ nl)) ]}
                {[ "a.py"%string := m' ]})
    ∧ m' !! 4 = Some [Plain "S006"].
Proof.
  destruct (blank_lines_check "a.py"
              (Analyzer None ["a.py"]%string
                 {[ "a.py"%string := readlines (chars (nl +:+ nl +:+ nl +:+ "x = 1" +:+ nl)) ]}
                 {[ "a.py"%string :=
                      empty_sets (readlines (chars (nl +:+ nl +:+ nl +:+ "x = 1" +:+ nl))) ]})
              (readlines (chars (nl +:+ nl +:+ nl +:+ "x = 1" +:+ nl)))
              (empty_sets (readlines (chars (nl +:+ nl +:+ nl +:+ "x = 1" +:+ nl)))))
    as (m' & Hrun & Hhit & _).
  - by vm_compute.
  - by vm_compute.
  - intros i Hi. rewrite lookup_empty_sets, bool_decide_eq_true_2 by done. eauto.
  - exists m'. split.
    + rewrite Hrun. unfold set_issues. simpl. by rewrite insert_singleton_eq.
    + rewrite (Hhit 4).
      * by vm_compute.
      * split; [lia|]. eexists. split; [by vm_compute|by vm_compute].
      * split; [lia|]. eexists. split; [by vm_compute|by vm_compute].
      * split; [lia|]. eexists. split; [by vm_compute|by vm_compute].
      * split; [lia|]. eexists. split; [by vm_compute|by vm_compute].
Defined.

(** ** The naming conventions *)

Lemma re_fullmatch_spec r s : re_fullmatch r s = true ↔ matches r s.
Proof.
  revert r. induction s as [|c s IH]; intros r; simpl.
  - apply nullable_matches.
  - by rewrite IH, deriv_matches.
Qed.

Lemma last_removelast {A} (s : list A) (c : A) :
  last s = Some c ↔ s = removelast s ++ [c].
Proof.
  split.
  - induction s as [|x s IH]; [done|]. destruct s as [|y s]; simpl in *.
    + by intros [= ->].
    + intros Hl. f_equal. by apply IH.
  - intros ->. apply last_snoc.
Qed.

Lemma re_match_dollar_spec r s :
  re_match_dollar r s = true ↔
    matches r s ∨ ∃ s', s = s' ++ [newline] ∧ matches r s'.
Proof.
  unfold re_match_dollar. rewrite orb_true_iff, re_fullmatch_spec. split.
  - intros [?|Hl]; [by left|right]. destruct (last s) as [c|] eqn:Hc; [|done].
    apply andb_true_iff in Hl as [->%bool_decide_eq_true Hm%re_fullmatch_spec].
    exists (removelast s). split; [by apply last_removelast|done].
  - intros [?|(s' & -> & Hm)]; [by left|right].
    rewrite last_snoc, removelast_last. rewrite bool_decide_eq_true_2 by done.
    by apply re_fullmatch_spec.
Qed.

(** X5.  Among the names written with characters of code points below
    256, the only names the model holds, [is_snake_case] accepts a name if
    and only if it is not empty and each of its characters is a lowercase
    letter from a to z, a digit from 0 to 9 or an underscore; as the pattern
    ends in a dollar sign, one line feed after such a name is accepted too.
    So the empty name is refused, as is any name with a capital letter,
    while a name that starts with a digit or is made of underscores only is
    accepted.  Nothing is said of a name with a character of a higher code
    point, such as a decimal digit of another script, which [\d] matches
    too. *)
Theorem snake_case_names (s : string) :
  is_snake_case s = true ↔
    ∃ body, body ≠ [] ∧ Forall (λ c, snake_char c = true) body
            ∧ (chars s = body ∨ chars s = body ++ [newline]).
Proof.
  unfold is_snake_case. rewrite re_match_dollar_spec.
  change (λ c, is_lower c || is_digit c || is_char "_" c) with snake_char. split.
  - intros [[? ?]%matches_plus_class|(s' & Hs & [? ?]%matches_plus_class)].
    + exists (chars s). by split_and!; [..|left].
    + exists s'. by split_and!; [..|right].
  - intros (body & Hne & Hall & [->|Hs]).
    + left. by apply matches_plus_class.
    + right. exists body. split; [done|]. by apply matches_plus_class.
Qed.

Lemma matches_star r s :
  matches (Star r) s ↔ ∃ segs, s = concat segs ∧ Forall (matches r) segs.
Proof.
  split.
  - intros H. remember (Star r) as r' eqn:Hr.
    induction H as [| | | | |r0|r0 s1 s2 H1 _ H2 IH2]; try done.
    + by exists [].
    + injection Hr as ->. destruct (IH2 eq_refl) as (segs & -> & Hsegs).
      exists (s1 :: segs). split; [done|]. by constructor.
  - intros (segs & -> & Hsegs). induction Hsegs as [|seg segs Hseg _ IH]; simpl.
    + constructor.
    + by constructor.
Qed.

Lemma matches_segment seg :
  matches (Cat (Class is_upper) (Plus (Class lower_digit))) seg ↔ segment seg.
Proof.
  unfold segment. rewrite matches_cat. split.
  - intros (s1 & s2 & -> & (u & -> & Hu)%matches_class & [Hne Hall]%matches_plus_class).
    by exists u, s2.
  - intros (u & rest & -> & Hu & Hne & Hall). exists [u], rest.
    split_and!; [done|by apply matches_class; eauto|by apply matches_plus_class].
Qed.

Lemma upper_not_lower_digit c : is_upper c = true → lower_digit c = false.
Proof.
  unfold is_upper, lower_digit, is_lower, is_digit, in_range.
  intros [?%Z.leb_le ?%Z.leb_le]%andb_true_iff.
  apply orb_false_iff. split; apply andb_false_iff; rewrite !Z.leb_gt; lia.
Qed.

Lemma chars_ok_tail c s : chars_ok (c :: s) → chars_ok s.
Proof. intros H i d Hi. apply (H (S i) d Hi). Qed.

Lemma chars_ok_segment seg : segment seg → chars_ok seg.
Proof.
  intros (u & rest & -> & Hu & Hne & Hall) [|i] c; simpl.
  - intros [= <-]. left. split; [done|]. destruct rest as [|d rest]; [done|].
    exists d. split; [done|]. by apply Forall_cons in Hall as [? _].
  - intros Hi. right. eapply Forall_forall in Hall; [exact Hall|].
    by eapply list_elem_of_lookup_2.
Qed.

Lemma chars_ok_app s1 s2 : chars_ok s1 → chars_ok s2 → chars_ok (s1 ++ s2).
Proof.
  intros H1 H2 i c Hi. apply lookup_app_Some in Hi as [Hi|[Hlen Hi]].
  - destruct (H1 i c Hi) as [[Hu (d & Hd & Hld)]|?]; [left|by right].
    split; [done|]. exists d. split; [|done]. by apply lookup_app_l_Some.
  - destruct (H2 _ c Hi) as [[Hu (d & Hd & Hld)]|?]; [left|by right].
    split; [done|]. exists d. split; [|done]. apply lookup_app_Some. right.
    split; [lia|]. by replace (S i - length s1)%nat with (S (i - length s1)) by lia.
Qed.

Lemma chars_ok_concat segs : Forall segment segs → chars_ok (concat segs).
Proof.
  induction 1 as [|seg segs Hseg _ IH]; simpl.
  - by intros i c ?.
  - apply chars_ok_app; [by apply chars_ok_segment|done].
Qed.

(** A name of such characters is a run of lowercase letters and digits and
    then segments. *)
Lemma chars_ok_split s :
  chars_ok s →
  ∃ pre segs, s = pre ++ concat segs
    ∧ Forall (λ c, lower_digit c = true) pre ∧ Forall segment segs
    ∧ ((∃ u rest, s = u :: rest ∧ is_upper u = true) → pre = []).
Proof.
  induction s as [|c s IH]; intros Hok.
  - exists [], []. split_and!; [done|constructor|constructor|done].
  - destruct (IH (chars_ok_tail _ _ Hok)) as (pre & segs & Hs & Hpre & Hsegs & _).
    destruct (Hok 0%nat c eq_refl) as [[Hu (d & Hd & Hld)]|Hld].
    + assert (pre ≠ []) as Hne.
      { intros ->. simpl in Hs. subst s. destruct Hsegs as [|seg segs Hseg _]; [done|].
        destruct Hseg as (u & rest & -> & Hu' & _). simpl in Hd. injection Hd as <-.
        apply upper_not_lower_digit in Hu'. congruence. }
      exists [], ((c :: pre) :: segs). split_and!; [by rewrite Hs|constructor| |done].
      constructor; [|done]. by exists c, pre.
    + exists (c :: pre), segs. split_and!; [by rewrite Hs|by constructor|done|].
      intros (u & rest & [= <- <-] & Hu). apply upper_not_lower_digit in Hu. congruence.
Qed.

Lemma matches_camel s :
  matches (Plus (Cat (Class is_upper) (Plus (Class lower_digit)))) s ↔ camel_shape s.
Proof.
  unfold Plus at 1. rewrite matches_cat. split.
  - intros (seg & s2 & -> & Hseg%matches_segment & (segs & -> & Hsegs)%matches_star).
    assert (Forall segment segs) as Hsegs'.
    { eapply Forall_impl; [done|]. intros ?. apply matches_segment. }
    split.
    + destruct Hseg as (u & rest & -> & Hu & _). by exists u, (rest ++ concat segs).
    + apply (chars_ok_concat (seg :: segs)). by constructor.
  - intros [Hhead Hok]. destruct (chars_ok_split s Hok) as (pre & segs & Hs & _ & Hsegs & Hpre).
    rewrite (Hpre Hhead) in Hs. simpl in Hs. subst s.
    destruct Hsegs as [|seg segs Hseg Hsegs].
    { by destruct Hhead as (? & ? & ? & _). }
    exists seg, (concat segs). split_and!; [done|by apply matches_segment|].
    apply matches_star. exists segs. split; [done|].
    eapply Forall_impl; [done|]. intros ?. apply matches_segment.
Qed.

(** X6.  Among the names written with characters of code points below
    256, the only names the model holds, [is_camel_case] accepts a name if
    and only if it starts with a capital letter from A to Z and each of its
    characters is either a capital letter that is followed by a lowercase
    letter or a digit, or a lowercase letter from a to z or a digit from 0
    to 9; equally, the name is one or more segments, each a capital letter
    and then at least one lowercase letter or digit.  One line feed after
    such a name is accepted too.  So a name of one letter, a name with two
    capital letters in a row, a name that ends in a capital letter and a
    name with an underscore are refused.  Nothing is said of a name with a
    character of a higher code point, such as a decimal digit of another
    script, which [\d] matches too. *)
Theorem camel_case_names (s : string) :
  (is_camel_case s = true ↔
     ∃ body, camel_shape body ∧ (chars s = body ∨ chars s = body ++ [newline]))
  ∧ (∀ body, camel_shape body ↔
       ∃ seg segs, body = concat (seg :: segs) ∧ Forall segment (seg :: segs))
  ∧ (∀ body, camel_shape body →
       (2 ≤ length body)%nat
       ∧ (∀ (i : nat) c d, body !! i = Some c → body !! S i = Some d →
            is_upper c = true → is_upper d = false)
       ∧ (∀ c, last body = Some c → is_upper c = false)
       ∧ "_"%char ∉ body).
Proof.
  split_and!.
  - unfold is_camel_case. rewrite re_match_dollar_spec.
    change (λ c, is_lower c || is_digit c) with lower_digit. split.
    + intros [?%matches_camel|(s' & Hs & ?%matches_camel)].
      * exists (chars s). split; [done|by left].
      * exists s'. split; [done|by right].
    + intros (body & Hb & [->|Hs]).
      * left. by apply matches_camel.
      * right. exists body. split; [done|]. by apply matches_camel.
  - intros body. rewrite <-matches_camel. unfold Plus at 1. rewrite matches_cat. split.
    + intros (seg & s2 & -> & Hseg%matches_segment & (segs & -> & Hsegs)%matches_star).
      exists seg, segs. split; [done|]. constructor; [done|].
      eapply Forall_impl; [done|]. intros ?. apply matches_segment.
    + intros (seg & segs & -> & [Hseg Hsegs]%Forall_cons).
      exists seg, (concat segs). split_and!; [done|by apply matches_segment|].
      apply matches_star. exists segs. split; [done|].
      eapply Forall_impl; [done|]. intros ?. apply matches_segment.
  - intros body [(u & rest & -> & Hu) Hok].
    assert (∀ (i : nat) c, (u :: rest) !! i = Some c → is_upper c = true →
              ∃ d, (u :: rest) !! S i = Some d ∧ lower_digit d = true) as Hnext.
    { intros i c Hi Hc. destruct (Hok i c Hi) as [[_ ?]|Hld]; [done|].
      apply upper_not_lower_digit in Hc. congruence. }
    split_and!.
    + destruct (Hnext 0%nat u eq_refl Hu) as (d & Hd & _).
      apply lookup_lt_Some in Hd. simpl in *. lia.
    + intros i c d Hi Hd Hc. destruct (Hnext i c Hi Hc) as (d' & Hd' & Hld).
      rewrite Hd in Hd'. injection Hd' as <-. apply not_true_iff_false.
      intros Hud%upper_not_lower_digit. congruence.
    + intros c Hc. apply not_true_iff_false. intros Hcu.
      rewrite last_lookup in Hc. destruct (Hnext _ c Hc Hcu) as (d & Hd & _).
      apply lookup_lt_Some in Hd. simpl in *. lia.
    + intros Hin. apply list_elem_of_lookup in Hin as [i Hi].
      destruct (Hok i _ Hi) as [[Hc _]|Hc]; by vm_compute in Hc.
Qed.

(** ** The spacing after a keyword *)

Lemma is_w_S_D_all c : is_w_S_D c = true.
Proof. destruct c as [[] [] [] [] [] [] [] []]; reflexivity. Qed.

Lemma matches_literal_chars (cs : list ascii) s :
  matches (foldr (λ c r, Cat (Class (is_char c)) r) Eps cs) s ↔ s = cs.
Proof.
  revert s. induction cs as [|c cs IH]; intros s; simpl.
  - apply matches_eps.
  - rewrite matches_cat. split.
    + intros (s1 & s2 & -> & (c' & -> & Hc)%matches_class & ->%IH).
      apply bool_decide_eq_true in Hc. by subst.
    + intros ->. exists [c], cs. split_and!; [done| |by apply IH].
      apply matches_class. exists c. split; [done|]. by apply bool_decide_eq_true.
Qed.

Lemma matches_pattern_keyword (kw : string) (s : list ascii) :
  matches (pattern_keyword kw) s ↔
    ∃ ws s1 s2 x mid,
      s = ws ++ chars kw ++ s1 :: s2 :: x :: mid ++ [":"%char]
      ∧ Forall (λ c, is_space c = true) ws ∧ is_space s1 = true ∧ is_space s2 = true.
Proof.
  unfold pattern_keyword, literal. split.
  - intros H.
    apply matches_cat in H as (ws & r1 & -> & Hws%matches_star_class & H).
    apply matches_cat in H as (k & r2 & -> & ->%matches_literal_chars & H).
    apply matches_cat in H as (sp & r3 & -> & Hsp & H).
    apply matches_cat in Hsp
      as (a1 & sps & -> & (s1 & -> & Hs1)%matches_class & [Hne Hsps]%matches_plus_class).
    apply matches_cat in H as (body & r4 & -> & [Hbody _]%matches_plus_class & H).
    apply matches_cat in H as (o & r5 & -> & _ & (c & -> & Hc)%matches_class).
    apply bool_decide_eq_true in Hc. subst c.
    destruct sps as [|s2 sps]; [done|]. apply Forall_cons in Hsps as [Hs2 _].
    destruct body as [|b body]; [done|].
    destruct (sps ++ (b :: body) ++ o) as [|x mid] eqn:Hrest.
    { by destruct sps. }
    exists ws, s1, s2, x, mid. split_and!; [|done..].
    f_equal. f_equal. simpl. f_equal. f_equal.
    change (x :: mid ++ [":"%char]) with ((x :: mid) ++ [":"%char]).
    rewrite <-Hrest. by rewrite <-!app_assoc.
  - intros (ws & s1 & s2 & x & mid & -> & Hws & Hs1 & Hs2).
    apply M_cat; [by apply matches_star_class|].
    apply M_cat; [by apply matches_literal_chars|].
    change (s1 :: s2 :: x :: mid ++ [":"%char])
      with ([s1; s2] ++ (x :: mid) ++ [] ++ [":"%char]).
    apply M_cat.
    { apply (M_cat _ _ [s1] [s2]); [by constructor|].
      apply matches_plus_class. split; [done|]. by apply Forall_singleton. }
    apply M_cat.
    { apply matches_plus_class. split; [done|].
      apply Forall_forall. intros ? _. apply is_w_S_D_all. }
    apply M_cat; [apply M_alt_r; constructor|].
    constructor. by apply bool_decide_eq_true.
Qed.

Lemma first_code_char (ws ws' : list ascii) (c c' : ascii) (r r' : list ascii) :
  Forall (λ c, is_space c = true) ws → Forall (λ c, is_space c = true) ws' →
  is_space c = false → is_space c' = false →
  ws ++ c :: r = ws' ++ c' :: r' → c = c'.
Proof.
  intros Hws. revert ws'. induction Hws as [|w ws Hw _ IH]; intros ws' Hws' Hc Hc' Heq.
  - destruct Hws' as [|w' ws' Hw' _]; simpl in Heq; [congruence|].
    injection Heq as -> _. congruence.
  - destruct Hws' as [|w' ws' Hw' Hws']; simpl in Heq.
    + injection Heq as <- _. congruence.
    + injection Heq as _ Heq. by eapply IH.
Qed.

(** X7.  The pattern of [check_s007] matches a line if and only if the
    line is: whitespace, the keyword, two whitespace characters, at least
    one more character of any kind, and a colon somewhere after it.  The
    pattern asks for no name and no parentheses, and anything may follow
    the colon.  No line matches for both [def] and [class], so the order in
    which [check_s007] tries them decides nothing. *)
Theorem keyword_spacing_pattern (kw : string) (line : list ascii) :
  (re_match (pattern_keyword kw) line = true ↔
     ∃ ws s1 s2 x mid rest,
       line = ws ++ chars kw ++ s1 :: s2 :: x :: mid ++ ":"%char :: rest
       ∧ Forall (λ c, is_space c = true) ws ∧ is_space s1 = true ∧ is_space s2 = true)
  ∧ (re_match pattern_def line = true → re_match pattern_class line = false).
Proof.
  assert (∀ k, re_match (pattern_keyword k) line = true ↔
     ∃ ws s1 s2 x mid rest,
       line = ws ++ chars k ++ s1 :: s2 :: x :: mid ++ ":"%char :: rest
       ∧ Forall (λ c, is_space c = true) ws ∧ is_space s1 = true ∧ is_space s2 = true)
    as Hgen.
  { intros k. rewrite re_match_spec. split.
    - intros (p & rest & -> & (ws & s1 & s2 & x & mid & -> & ? & ? & ?)%matches_pattern_keyword).
      exists ws, s1, s2, x, mid, rest. split_and!; [|done..].
      rewrite <-!app_assoc. simpl. by rewrite <-!app_assoc.
    - intros (ws & s1 & s2 & x & mid & rest & -> & ? & ? & ?).
      exists (ws ++ chars k ++ s1 :: s2 :: x :: mid ++ [":"%char]), rest. split.
      + rewrite <-!app_assoc. simpl. by rewrite <-!app_assoc.
      + apply matches_pattern_keyword. by exists ws, s1, s2, x, mid. }
  split; [apply Hgen|].
  intros (ws & s1 & s2 & x & mid & rest & Hl & Hws & _)%Hgen.
  apply not_true_iff_false.
  intros (ws' & s1' & s2' & x' & mid' & rest' & Hl' & Hws' & _)%Hgen.
  rewrite Hl in Hl'. simpl in Hl'.
  by apply first_code_char in Hl'.
Qed.

(** ** Reading the files and keeping the registry *)

Lemma readlines_nonempty text : Forall (λ l, l ≠ []) (readlines text).
Proof.
  induction text as [|c text IH]; simpl; [constructor|].
  case_bool_decide; [by constructor|].
  destruct (readlines text) as [|l ls]; [by repeat constructor|].
  apply Forall_cons in IH as [_ IH]. by constructor.
Qed.

Lemma readlines_inner_lines text (i : nat) l :
  readlines text !! i = Some l → is_Some (readlines text !! S i) →
  last l = Some newline.
Proof.
  revert i l. induction text as [|c text IH]; intros i l; simpl; [done|].
  case_bool_decide as Hc.
  - destruct i as [|i]; simpl.
    + intros [= <-] _. by rewrite Hc.
    + apply IH.
  - destruct (readlines text) as [|l0 ls] eqn:Hr.
    + destruct i; simpl; [|done]. by intros _ [? ?].
    + destruct i as [|i]; simpl.
      * intros [= <-] Hnext. specialize (IH 0%nat l0 eq_refl Hnext).
        pose proof (readlines_nonempty text) as Hne. rewrite Hr in Hne.
        apply Forall_cons in Hne as [Hne _]. destruct l0; [done|]. done.
      * intros Hi Hnext. by apply (IH (S i)).
Qed.

(** X8.  The lines that [get_code] stores are the text of the file cut
    after each line feed: joined again, as [check_ast] does before parsing,
    they give back the text; no line is empty; a line feed occurs in a line
    only as its last character; and every line but the last ends with one,
    so only the last line of a file can lack its line feed. *)
Theorem readlines_round_trip (text : list ascii) :
  concat (readlines text) = text
  ∧ (∀ l, l ∈ readlines text → l ≠ [] ∧ line_of_file l)
  ∧ (∀ (i : nat) l, readlines text !! i = Some l → is_Some (readlines text !! S i) →
       last l = Some newline)
  ∧ (text = [] ↔ readlines text = []).
Proof.
  split_and!.
  - apply readlines_concat.
  - intros l Hl. split; [|by eapply readlines_lines].
    by eapply Forall_forall in Hl; [|apply readlines_nonempty].
  - apply readlines_inner_lines.
  - split; [by intros ->|]. intros Hr. by rewrite <-(readlines_concat text), Hr.
Qed.

Lemma read_first_unreadable E (pre : list string) (f : string) (post : list string) :
  ∀ a, (∀ g, g ∈ pre → is_Some (file_text E g)) → file_text E f = None →
       for_each (pre ++ f :: post) (read_file E) a = Raise (read_error E f).
Proof.
  induction pre as [|g pre IH]; intros a Hpre Hf; simpl.
  - destruct (read_file E f a) as [a1|e] eqn:Hrun; unfold read_file in Hrun;
      rewrite Hf in Hrun; [done|]. by injection Hrun as <-.
  - destruct (read_file E g a) as [a1|e] eqn:Hrun; simpl.
    + apply IH; [|done]. intros h Hh. apply Hpre, elem_of_cons. by right.
    + unfold read_file in Hrun. destruct (Hpre g) as [t Ht]; [apply elem_of_cons; by left|].
      by rewrite Ht in Hrun.
Qed.

(** X9.  A file of the list that cannot be read ends the whole run:
    [get_code] raises the exception that [open] or [readlines] raised for
    the first such file, an [OSError] for a file that cannot be opened, a
    [UnicodeDecodeError] for one whose bytes do not decode; nothing catches
    it, so [make_analyze] ends before any check of any file has run, and
    nothing is printed. *)
Theorem unreadable_file_ends_the_run (E : env) (prog d : string) (pre post : list string)
    (f : string) (a0 : analyzer) :
  get_filenames E (Analyzer (Some d) [] ∅ ∅) = Ok a0 →
  filenames a0 = pre ++ f :: post →
  (∀ g, g ∈ pre → is_Some (file_text E g)) →
  file_text E f = None →
  get_code E a0 = Raise (read_error E f)
  ∧ make_analyze E (Analyzer (Some d) [] ∅ ∅) = Raise (read_error E f)
  ∧ main E [prog; d] = ([], Some (read_error E f)).
Proof.
  intros Ha0 Hnames Hpre Ht.
  assert (get_code E a0 = Raise (read_error E f)) as Hcode.
  { unfold get_code. rewrite Hnames. by apply read_first_unreadable. }
  assert (make_analyze E (Analyzer (Some d) [] ∅ ∅) = Raise (read_error E f)) as Hmake.
  { unfold make_analyze. rewrite Ha0. simpl. by rewrite Hcode. }
  split_and!; [done|done|].
  unfold main, get_user_input. simpl. unfold init. by rewrite Hmake.
Qed.

(** The theorem at a directory whose third file does not decode, and at a
    path that is neither a directory nor a file. *)
Lemma unreadable_file_ends_the_run_witness :
  main (three_files ("v = 1;" +:+ nl) ("x = 1" +:+ nl) None
          [Name "v" Store 1] (Some [Name "x" Store 1]) [])
       ["prog"; "d"]%string
  = ([], Some UnicodeDecodeError)
  ∧ main (one_file "a.py" ("x = 1" +:+ nl) (Some [])) ["prog"; "b.py"]%string
    = ([], Some OSError).
Proof.
  split.
  - refine (proj2 (proj2 (unreadable_file_ends_the_run
              (three_files ("v = 1;" +:+ nl) ("x = 1" +:+ nl) None
                 [Name "v" Store 1] (Some [Name "x" Store 1]) [])
              "prog" "d" ["d/a.py"; "d/b.py"]%string [] "d/c.py"
              (Analyzer (Some "d"%string) ["d/a.py"; "d/b.py"; "d/c.py"]%string ∅ ∅)
              _ _ _ _))).
    + vm_compute. reflexivity.
    + reflexivity.
    + intros g [->|[->|[]%elem_of_nil]%elem_of_cons]%elem_of_cons; vm_compute; eauto.
    + reflexivity.
  - refine (proj2 (proj2 (unreadable_file_ends_the_run
              (one_file "a.py" ("x = 1" +:+ nl) (Some []))
              "prog" "b.py" [] [] "b.py"
              (Analyzer (Some "b.py"%string) ["b.py"]%string ∅ ∅) _ _ _ _))).
    + vm_compute. reflexivity.
    + reflexivity.
    + by intros g ?%elem_of_nil.
    + reflexivity.
Defined.

(** X10.  When [make_analyze] returns, the list of files is the one
    [get_filenames] made: for a directory, the joined paths of those of its
    entries that are regular files, in the order of the listing, whatever
    their extension and without descending into subdirectories; for any
    other path, the path itself, appended to the list.  For every file of
    the list the analyzer holds the lines of the file as read, and a set of
    issues for each of these lines and for no other line number: the keys of
    the registry of a file are the numbers from 1 to the number of its
    lines. *)
Theorem make_analyze_registry (E : env) (a a' : analyzer) :
  make_analyze E a = Ok a' →
  (∃ d, dir a = Some d ∧ dir a' = Some d
     ∧ filenames a' =
         if isdir E d
         then filter (λ p, isfile E p = true) (path_join E d <$> listdir E d)
         else filenames a ++ [d])
  ∧ ∀ f, f ∈ filenames a' →
      ∃ text m, file_text E f = Some text
        ∧ code a' !! f = Some (readlines text)
        ∧ issues a' !! f = Some m
        ∧ ∀ i, is_Some (m !! i) ↔ 1 ≤ i ≤ py_len (readlines text).
Proof.
  unfold make_analyze. destruct (get_filenames E a) as [a0|] eqn:Ha0; simpl; [|done].
  destruct (get_code E a0) as [a1|] eqn:Ha1; simpl; [|done]. intros Hrun.
  pose proof (get_code_spec E a0 a1 Ha1) as (Hdir & Hfn & Hfiles).
  assert (same_keys a1 a') as (Hdir' & Hfn' & Hcode & Hdom).
  { eapply analyze_files_same_keys; [|done]. intros f Hf. rewrite Hfn in Hf.
    destruct (Hfiles f Hf) as (t & _ & Hc & Hi). by eapply empty_sets_keys_ok. }
  split.
  - unfold get_filenames in Ha0. destruct (dir a) as [d|] eqn:Hd; [|done].
    exists d. rewrite Hdir', Hdir, Hfn', Hfn.
    destruct (isdir E d); [destruct (listdir_error E d); [done|]|];
      injection Ha0 as <-; by simpl.
  - intros f Hf. rewrite Hfn', Hfn in Hf.
    destruct (Hfiles f Hf) as (text & Ht & Hc & Hi).
    specialize (Hdom f). rewrite Hi in Hdom.
    destruct (issues a' !! f) as [m|] eqn:Hm; simpl in Hdom; [|done].
    injection Hdom as Hdom. exists text, m. split_and!; [done|congruence|done|].
    intros i. rewrite <-elem_of_dom, Hdom, elem_of_dom, lookup_empty_sets.
    case_bool_decide; split; [done|eauto|by intros [? ?]|done].
Qed.

(** The theorem at a file of two lines. *)
Lemma make_analyze_registry_witness :
  ∃ text (m : gmap Z (list issue)),
    file_text (one_file "a.py" ("x = 1;" +:+ nl +:+ "y = 2" +:+ nl) (Some []))
      "a.py" = Some text
    ∧ m !! 1 = Some [Plain "S003"] ∧ m !! 2 = Some [] ∧ m !! 3 = None.
Proof.
  assert (make_analyze (one_file "a.py" ("x = 1;" +:+ nl +:+ "y = 2" +:+ nl) (Some []))
            (Analyzer (Some "a.py"%string) [] ∅ ∅)
          = Ok (Analyzer (Some "a.py"%string) ["a.py"%string]
                  {[ "a.py"%string :=
                       [chars ("x = 1;" +:+ nl); chars ("y = 2" +:+ nl)] ]}
                  {[ "a.py"%string := {[ 1 := [Plain "S003"]; 2 := [] ]} ]})) as Hrun.
  { vm_compute. reflexivity. }
  pose proof (make_analyze_registry _ _ _ Hrun) as [_ Hfiles].
  specialize (Hfiles "a.py"%string).
  destruct Hfiles as (text & m & Ht & _ & Hm & _).
  - cbn [filenames]. apply elem_of_cons. by left.
  - exists text, m. split; [done|]. vm_compute in Hm.
    injection Hm as <-. by vm_compute.
Defined.

(** ** Steps that add findings *)

#[local] Set Warnings "-clear-no-such-hyp".

Lemma adds_ext file lines (R Q : Z → issue → Prop) f :
  (∀ i x, R i x ↔ Q i x) → adds file lines R f → adds file lines Q f.
Proof.
  intros HRQ Hf a m Hl Hm. destruct (Hf a m Hl Hm) as [(Hr & i & x & HR & Hi)|
    (m' & Hr & Hkeys & Hnone & Hsome)].
  - left. split; [done|]. exists i, x. by rewrite <-HRQ.
  - right. exists m'. split_and!; [done| |done|].
    + intros i x HQ. apply (Hkeys i x). by apply HRQ.
    + intros i s Hs. destruct (Hsome i s Hs) as (s' & Hs' & Hnd & Hel).
      exists s'. split_and!; [done..|]. intros z. by rewrite Hel, HRQ.
Qed.

Lemma adds_skip file lines : adds file lines (λ _ _, False) Ok.
Proof.
  intros a m Hl Hm. right. exists m. split_and!.
  - by rewrite insert_id, set_issues_id.
  - by intros ? ? [].
  - done.
  - intros i s Hs. exists s. split_and!; [done..|]. intros z. tauto.
Qed.

Lemma adds_add_issue file lines i x :
  adds file lines (λ j z, j = i ∧ z = x) (add_issue file i x).
Proof.
  intros a m Hl Hm. unfold add_issue. rewrite Hm.
  destruct (m !! i) as [s|] eqn:Hs.
  - right. exists (<[i := set_add x s]> m). split_and!; [done| | |].
    + by intros j z [-> _].
    + intros j Hj. rewrite lookup_insert_ne; [done|]. intros <-. congruence.
    + intros j t Ht. destruct (decide (j = i)) as [->|Hne].
      * rewrite lookup_insert_eq. exists (set_add x s). simplify_eq.
        split_and!; [done|apply set_add_NoDup|].
        intros z. rewrite set_add_elem. naive_solver.
      * rewrite lookup_insert_ne by done. exists t. split_and!; [done..|].
        intros z. naive_solver.
  - left. split; [done|]. by exists i, x.
Qed.

Lemma adds_when file lines (b : bool) R f :
  adds file lines R f → adds file lines (λ i x, b = true ∧ R i x) (when b f).
Proof.
  intros Hf. destruct b; simpl.
  - eapply adds_ext; [|done]. naive_solver.
  - eapply adds_ext; [|apply adds_skip]. naive_solver.
Qed.

Lemma adds_bind file lines R Q f g :
  adds file lines R f → adds file lines Q g →
  adds file lines (λ i x, R i x ∨ Q i x) (λ a, a' ← f a; g a').
Proof.
  intros Hf Hg a m Hl Hm.
  destruct (Hf a m Hl Hm) as [(Hr & i & x & HR & Hi)|(m1 & Hr & Hkeys & Hnone & Hsome)].
  - left. rewrite Hr. split; [done|]. exists i, x. auto.
  - rewrite Hr. simpl.
    destruct (Hg (set_issues a (<[file := m1]> (issues a))) m1) as
      [(Hr2 & i & x & HQ & Hi)|(m2 & Hr2 & Hkeys2 & Hnone2 & Hsome2)].
    { done. }
    { simpl. by rewrite lookup_insert_eq. }
    + left. split; [done|]. exists i, x. split; [auto|].
      destruct (m !! i) as [s|] eqn:Hs; [|done].
      destruct (Hsome i s Hs) as (s' & Hs' & _). congruence.
    + right. exists m2. split_and!.
      * rewrite Hr2. unfold set_issues. simpl. by rewrite insert_insert_eq.
      * intros i x [HR|HQ]; [by eapply Hkeys|].
        destruct (m !! i) as [s|] eqn:Hs; [done|].
        apply Hnone in Hs. destruct (Hkeys2 i x HQ). congruence.
      * intros i Hi. auto.
      * intros i s Hs. destruct (Hsome i s Hs) as (s1 & Hs1 & Hnd1 & Hel1).
        destruct (Hsome2 i s1 Hs1) as (s2 & Hs2 & Hnd2 & Hel2).
        exists s2. split_and!; [done|auto|]. intros z. rewrite Hel2, Hel1. tauto.
Qed.

Lemma adds_for_each {A} file lines (R : A → Z → issue → Prop)
    (body : A → analyzer → result analyzer) (l : list A) :
  (∀ y, y ∈ l → adds file lines (R y) (body y)) →
  adds file lines (λ i x, ∃ y, y ∈ l ∧ R y i x) (for_each l body).
Proof.
  induction l as [|y l IH]; intros Hbody.
  - eapply adds_ext; [|apply adds_skip]. intros i x. split; [done|].
    by intros (y & Hy%elem_of_nil & _).
  - eapply adds_ext; [|apply (adds_bind file lines (R y) (λ i x, ∃ y, y ∈ l ∧ R y i x)
                                 (body y) (for_each l body))].
    + intros i x. split.
      * intros [HR|(z & Hz & HR)]; [exists y|exists z]; split; try done;
          apply elem_of_cons; auto.
      * intros (z & [->|Hz]%elem_of_cons & HR); [by left|right; eauto].
    + apply Hbody. apply elem_of_cons. by left.
    + apply IH. intros z Hz. apply Hbody. apply elem_of_cons. by right.
Qed.

Lemma adds_for_lines file lines (R : Z → list ascii → Z → issue → Prop)
    (body : Z → list ascii → analyzer → result analyzer) :
  (∀ j line, (j, line) ∈ enumerate1 lines → adds file lines (R j line) (body j line)) →
  adds file lines (λ i x, ∃ j line, (j, line) ∈ enumerate1 lines ∧ R j line i x)
    (for_lines file body).
Proof.
  intros Hbody a m Hl Hm.
  assert (for_lines file body a
          = for_each (enumerate1 lines) (λ il, body il.1 il.2) a) as ->.
  { unfold for_lines. by rewrite Hl. }
  revert a m Hl Hm. fold (adds file lines
    (λ i x, ∃ j line, (j, line) ∈ enumerate1 lines ∧ R j line i x)
    (for_each (enumerate1 lines) (λ il, body il.1 il.2))).
  eapply adds_ext; [|apply (adds_for_each file lines (λ il, R il.1 il.2))].
  - intros i x. split.
    + intros ([j line] & Hin & HR). by exists j, line.
    + intros (j & line & Hin & HR). by exists (j, line).
  - intros [j line] Hin. by apply Hbody.
Qed.

Lemma adds_node file lines n :
  adds file lines (finding n) (λ a,
    a ← check_s008 file n a;
    a ← check_s009 file n a;
    a ← check_s010 file n a;
    a ← check_s011 file n a;
    check_s012 file n a).
Proof.
  assert (∀ R, (∀ i x, R i x ↔ False) → adds file lines R Ok) as Hskip.
  { intros R HR. eapply adds_ext; [|apply adds_skip]. intros i x. by rewrite HR. }
  eapply adds_ext; [|apply (adds_bind file lines
    (λ i x, ∃ name l, n = ClassDef name l ∧ is_camel_case name = false
                      ∧ i = l ∧ x = Named "S008" name)
    (λ i x, (∃ name l args ds, n = FunctionDef name l args ds
               ∧ is_snake_case name = false ∧ i = l ∧ x = Named "S009" name)
            ∨ (∃ name l args ds a, n = FunctionDef name l args ds ∧ a ∈ args
               ∧ is_snake_case (arg_name a) = false
               ∧ i = arg_lineno a ∧ x = Named "S010" (arg_name a))
            ∨ (∃ id l, (n = Name id Store l ∨ n = Attribute id Store l)
               ∧ is_snake_case id = false ∧ i = l ∧ x = Named "S011" id)
            ∨ (∃ name l args ds d, n = FunctionDef name l args ds ∧ d ∈ ds
               ∧ is_mutable d = true ∧ i = d_lineno d ∧ x = Plain "S012")));
    [|apply adds_bind; [|apply adds_bind; [|apply adds_bind]]]].
  - intros i x. split.
    + intros [(name & l & -> & ? & -> & ->)|[(name & l & args & ds & -> & ? & -> & ->)|
        [(name & l & args & ds & a & -> & ? & ? & -> & ->)|
         [(id & l & [-> | ->] & ? & -> & ->)|
          (name & l & args & ds & d & -> & ? & ? & -> & ->)]]]]; by constructor.
    + destruct 1; naive_solver.
  - destruct n as [name l|name l args ds|id ctx l|attr ctx l|]; simpl;
      try (apply Hskip; naive_solver).
    eapply adds_ext; [|apply adds_when, adds_add_issue]. intros i x. simpl.
    rewrite negb_true_iff. naive_solver.
  - destruct n as [name l|name l args ds|id ctx l|attr ctx l|]; simpl;
      try (apply Hskip; naive_solver).
    eapply adds_ext; [|apply adds_when, adds_add_issue]. intros i x. simpl.
    rewrite negb_true_iff. naive_solver.
  - destruct n as [name l|name l args ds|id ctx l|attr ctx l|]; simpl;
      try (apply Hskip; naive_solver).
    eapply adds_ext; [|apply (adds_for_each file lines
      (λ a i x, is_snake_case (arg_name a) = false
                ∧ i = arg_lineno a ∧ x = Named "S010" (arg_name a)))].
    + naive_solver.
    + intros a _. eapply adds_ext; [|apply adds_when, adds_add_issue]. intros i x. simpl.
      rewrite negb_true_iff. naive_solver.
  - destruct n as [name l|name l args ds|id ctx l|attr ctx l|]; simpl;
      try (apply Hskip; naive_solver).
    + destruct ctx; try (apply Hskip; naive_solver).
      eapply adds_ext; [|apply adds_when, adds_add_issue]. intros i x. simpl.
      rewrite negb_true_iff. naive_solver.
    + destruct ctx; try (apply Hskip; naive_solver).
      eapply adds_ext; [|apply adds_when, adds_add_issue]. intros i x. simpl.
      rewrite negb_true_iff. naive_solver.
  - destruct n as [name l|name l args ds|id ctx l|attr ctx l|]; simpl;
      try (apply Hskip; naive_solver).
    eapply adds_ext; [|apply (adds_for_each file lines
      (λ d i x, is_mutable d = true ∧ i = d_lineno d ∧ x = Plain "S012"))].
    + naive_solver.
    + intros d _. eapply adds_ext; [|apply adds_when, adds_add_issue]. naive_solver.
Qed.

Lemma adds_check_ast E file lines nodes a :
  code a !! file = Some lines → ast_walk E (concat lines) = Some nodes →
  check_ast E file a
  = for_each nodes (λ n a,
      a ← check_s008 file n a;
      a ← check_s009 file n a;
      a ← check_s010 file n a;
      a ← check_s011 file n a;
      check_s012 file n a) a.
Proof. intros Hl Hw. unfold check_ast. by rewrite Hl, Hw. Qed.

(** X11.  The tree checks of a file that parses, on a registry [m]:
    [check_ast] adds to the set of line [i] exactly the findings that the
    nodes of the tree have at line [i] (a class name that is not CamelCase
    at the line of the class; a function name, an argument name, an
    assigned name or attribute that is not snake_case at its own line; a
    list, dict or set default at the line of the default), and changes no
    other set.  It raises [KeyError] in exactly one case: a finding whose
    line has no set in the registry.  A node without finding is never
    looked up, whatever its line. *)
Theorem check_ast_findings (E : env) (file : string) (a : analyzer)
    (lines : list (list ascii)) (nodes : list node) (m : gmap Z (list issue)) :
  code a !! file = Some lines →
  ast_walk E (concat lines) = Some nodes →
  issues a !! file = Some m →
  (check_ast E file a = Raise KeyError
     ∧ ∃ n i x, n ∈ nodes ∧ finding n i x ∧ m !! i = None)
  ∨ (∃ m', check_ast E file a = Ok (set_issues a (<[file := m']> (issues a)))
       ∧ (∀ n i x, n ∈ nodes → finding n i x → is_Some (m !! i))
       ∧ (∀ i, m !! i = None → m' !! i = None)
       ∧ ∀ i s, m !! i = Some s →
           ∃ s', m' !! i = Some s' ∧ (NoDup s → NoDup s')
             ∧ ∀ z, z ∈ s' ↔ z ∈ s ∨ ∃ n, n ∈ nodes ∧ finding n i z).
Proof.
  intros Hl Hw Hm. rewrite (adds_check_ast E file lines nodes a Hl Hw).
  destruct (adds_for_each file lines finding _ nodes
              (λ n _, adds_node file lines n) a m Hl Hm)
    as [(Hr & i & x & (n & Hn & Hf) & Hi)|(m' & Hr & Hkeys & Hnone & Hsome)].
  - left. split; [done|]. by exists n, i, x.
  - right. exists m'. split_and!; [done| |done|done].
    intros n i x Hn Hf. apply (Hkeys i x). by exists n.
Qed.

(** The theorem at a tree of three nodes over a file of two lines: the
    class at line 1 and the argument at line 2 are reported, the function at
    line 7 is well named and never looked up. *)
Lemma check_ast_findings_witness :
  check_ast
    (one_file "a.py" ("class a: pass" +:+ nl +:+ "def f(X): pass" +:+ nl)
       (Some [ClassDef "a" 1; FunctionDef "f" 7 [Arg "X" 2] []; OtherNode]))
    "a.py"
    (Analyzer None ["a.py"%string]
       {[ "a.py"%string :=
            readlines (chars ("class a: pass" +:+ nl +:+ "def f(X): pass" +:+ nl)) ]}
       {[ "a.py"%string := {[ 1 := []; 2 := [] ]} ]})
  ≠ Raise KeyError.
Proof.
  destruct (check_ast_findings
    (one_file "a.py" ("class a: pass" +:+ nl +:+ "def f(X): pass" +:+ nl)
       (Some [ClassDef "a" 1; FunctionDef "f" 7 [Arg "X" 2] []; OtherNode]))
    "a.py"
    (Analyzer None ["a.py"%string]
       {[ "a.py"%string :=
            readlines (chars ("class a: pass" +:+ nl +:+ "def f(X): pass" +:+ nl)) ]}
       {[ "a.py"%string := {[ 1 := []; 2 := [] ]} ]})
    (readlines (chars ("class a: pass" +:+ nl +:+ "def f(X): pass" +:+ nl)))
    [ClassDef "a" 1; FunctionDef "f" 7 [Arg "X" 2] []; OtherNode]
    {[ 1 := []; 2 := [] ]})
    as [(Hr & _)|(m' & Hr & _)].
  - by vm_compute.
  - by vm_compute.
  - by vm_compute.
  - by vm_compute in Hr.
  - rewrite Hr. done.
Defined.

(** ** The exceptions of a run *)

Lemma read_ok_keys_ok E f a : read_ok E f a → keys_ok f a.
Proof.
  intros (text & m & _ & Hc & Hm & Hk). exists (readlines text), m.
  split_and!; [done..|]. intros i Hi. by apply Hk.
Qed.

Lemma read_ok_same_keys E f a a' : same_keys a a' → read_ok E f a → read_ok E f a'.
Proof.
  intros (_ & _ & Hcode & Hdom) (text & m & Ht & Hc & Hm & Hk).
  specialize (Hdom f). rewrite Hm in Hdom.
  destruct (issues a' !! f) as [m'|] eqn:Hm'; simpl in Hdom; [|done].
  injection Hdom as Hdom. exists text, m'. split_and!; [done|congruence|done|].
  intros i. by rewrite <-Hk, <-!elem_of_dom, Hdom.
Qed.

Lemma get_code_read_ok E a a1 f : get_code E a = Ok a1 → f ∈ filenames a → read_ok E f a1.
Proof.
  intros Hread Hf. pose proof (get_code_spec E a a1 Hread) as (_ & _ & Hfiles).
  destruct (Hfiles f Hf) as (text & Ht & Hc & Hi).
  exists text, (empty_sets (readlines text)). split_and!; [done..|].
  intros i. rewrite lookup_empty_sets.
  case_bool_decide; split; [done|eauto|by intros [? ?]|done].
Qed.

Lemma analyze_file_raises E f a e :
  read_ok E f a → analyze_file E f a = Raise e →
  (∃ text, file_text E f = Some text ∧ ast_walk E text = None ∧ e = parse_error E text)
  ∨ (e = KeyError
     ∧ ∃ text nodes n i x, file_text E f = Some text ∧ ast_walk E text = Some nodes
         ∧ n ∈ nodes ∧ finding n i x ∧ ¬ (1 ≤ i ≤ py_len (readlines text))).
Proof.
  intros Hok. unfold analyze_file.
  destruct (line_checks_total f a (read_ok_keys_ok E f a Hok)) as (a2 & -> & Hsame). simpl.
  destruct (read_ok_same_keys E f a a2 Hsame Hok) as (text & m & Ht & Hl & Hm & Hk).
  unfold check_ast. rewrite Hl, readlines_concat.
  destruct (ast_walk E text) as [nodes|] eqn:Hw.
  - destruct (adds_for_each f (readlines text) finding _ nodes
                (λ n _, adds_node f (readlines text) n) a2 m Hl Hm)
      as [(-> & i & x & (n & Hn & Hf) & Hi)|(m' & -> & _)]; [|done].
    intros [= <-]. right. split; [done|]. exists text, nodes, n, i, x.
    split_and!; [done..|]. rewrite <-Hk, Hi. by intros [? ?].
  - intros [= <-]. left. by exists text.
Qed.

Lemma analyze_files_raise E (l : list string) : ∀ a e,
  (∀ f, f ∈ l → read_ok E f a) →
  for_each l (analyze_file E) a = Raise e →
  (∃ f text, file_text E f = Some text ∧ ast_walk E text = None ∧ e = parse_error E text)
  ∨ (e = KeyError ∧ finding_out_of_range E).
Proof.
  induction l as [|f l IH]; intros a e Hk; simpl; [done|].
  assert (read_ok E f a) as Hf by (apply Hk, elem_of_cons; by left).
  destruct (analyze_file E f a) as [a1|e1] eqn:Hrun; simpl.
  - apply IH. intros g Hg. eapply read_ok_same_keys.
    + eapply analyze_file_same_keys; [|done]. by eapply read_ok_keys_ok.
    + apply Hk, elem_of_cons. by right.
  - intros [= <-].
    destruct (analyze_file_raises E f a e1 Hf Hrun)
      as [(text & ? & ? & ?)|(? & text & nodes & n & i & x & ?)].
    + left. by exists f, text.
    + right. split; [done|]. by exists f, text, nodes, n, i, x.
Qed.

Lemma get_code_raises E (l : list string) : ∀ a e,
  for_each l (read_file E) a = Raise e → ∃ f, f ∈ l ∧ file_text E f = None ∧ e = read_error E f.
Proof.
  induction l as [|f l IH]; intros a e; simpl; [done|].
  destruct (read_file E f a) as [a1|e1] eqn:Hrun; simpl.
  - intros (g & Hg & ?)%IH. exists g. split; [|done]. apply elem_of_cons. by right.
  - intros [= <-]. unfold read_file in Hrun.
    destruct (file_text E f) eqn:Ht; [done|]. injection Hrun as <-.
    exists f. split; [|done]. apply elem_of_cons. by left.
Qed.

(** X12.  What can end a run of [main].  With an argument count other
    than two the program prints its usage message and exits, before it
    touches any file.  Otherwise nothing is printed before an exception,
    and the exception is either one that a library call raised and nothing
    caught (the listing of the directory, the opening or reading of a file,
    the parsing of a text), or the [KeyError] of a tree finding at a line
    number the file does not have.  The analyzer raises nothing else
    itself: the seven line checks never raise, and the lookups
    [self.code.get(file)] never yield [None]. *)
Theorem main_exceptions (E : env) (argv out : list string) (e : exn) :
  main E argv = (out, Some e) →
  (length argv ≠ 2%nat ∧ out = ["Wrong number of arguments!"%string] ∧ e = SystemExit)
  ∨ (∃ prog d, argv = [prog; d] ∧ out = []
       ∧ (library_raised E d e ∨ e = KeyError ∧ finding_out_of_range E)).
Proof.
  intros Hmain. unfold main, get_user_input in Hmain.
  destruct (decide (length argv = 2%nat)) as [Hlen|Hlen].
  2: { rewrite bool_decide_eq_true_2 in Hmain by done. injection Hmain as <- <-. by left. }
  rewrite bool_decide_eq_false_2 in Hmain by (by intros []).
  right. destruct argv as [|prog [|d [|]]]; try done. exists prog, d.
  destruct (make_analyze E _) as [a'|e'] eqn:Hrun; [done|].
  injection Hmain as <- <-. split_and!; [done..|].
  unfold make_analyze in Hrun.
  destruct (get_filenames E _) as [a0|e0] eqn:Ha0; simpl in Hrun.
  - destruct (get_code E a0) as [a1|e1] eqn:Ha1; simpl in Hrun.
    + pose proof (get_code_spec E a0 a1 Ha1) as (_ & Hfn & _).
      destruct (analyze_files_raise E (filenames a1) a1 e') as [(f & text & ?)|?]; [|done| |].
      * intros f Hf. rewrite Hfn in Hf. by eapply get_code_read_ok.
      * left. right; right. by exists f, text.
      * by right.
    + injection Hrun as <-. apply get_code_raises in Ha1 as (f & _ & ? & ?).
      left. right; left. by exists f.
  - injection Hrun as <-. unfold get_filenames in Ha0. simpl in Ha0.
    destruct (isdir E d) eqn:Hd; [|done].
    destruct (listdir_error E d) as [e1|] eqn:He; [|done]. injection Ha0 as <-.
    left. by left.
Qed.

(** The theorem at a run that a parse failure ends. *)
Lemma main_exceptions_witness :
  ∃ f text, file_text (one_file "a.py" ("y = (" +:+ nl) None) f = Some text
    ∧ ast_walk (one_file "a.py" ("y = (" +:+ nl) None) text = None.
Proof.
  destruct (main_exceptions (one_file "a.py" ("y = (" +:+ nl) None)
              ["prog"; "a.py"]%string [] SyntaxError)
    as [(_ & _ & [=])|(prog & d & _ & _ &
         [[(_ & [=])|[(f & _ & [=])|(f & text & Ht & Hw & _)]]|([=] & _)])].
  - by vm_compute.
  - by exists f, text.
Defined.

(** ** The seven line checks together *)

Lemma line_adds_ext file lines (R Q : Z → issue → Prop) f :
  (∀ i x, R i x ↔ Q i x) → line_adds file lines R f → line_adds file lines Q f.
Proof.
  intros HRQ Hf a m Hl Hm Hk. destruct (Hf a m Hl Hm Hk) as (m' & Hr & Hnone & Hsome).
  exists m'. split_and!; [done..|].
  intros i s Hs. destruct (Hsome i s Hs) as (s' & Hs' & Hnd & Hel).
  exists s'. split_and!; [done..|]. intros z. by rewrite Hel, HRQ.
Qed.

Lemma line_adds_of_adds file lines (R : Z → issue → Prop) f :
  (∀ i x, R i x → 1 ≤ i ≤ py_len lines) → adds file lines R f → line_adds file lines R f.
Proof.
  intros Hin Hf a m Hl Hm Hk.
  destruct (Hf a m Hl Hm) as [(_ & i & x & HR & Hi)|(m' & Hr & _ & Hnone & Hsome)].
  - destruct (Hk i (Hin i x HR)). congruence.
  - by exists m'.
Qed.

Lemma line_adds_bind file lines R Q f g :
  line_adds file lines R f → line_adds file lines Q g →
  line_adds file lines (λ i x, R i x ∨ Q i x) (λ a, a' ← f a; g a').
Proof.
  intros Hf Hg a m Hl Hm Hk.
  destruct (Hf a m Hl Hm Hk) as (m1 & -> & Hnone & Hsome). simpl.
  destruct (Hg (set_issues a (<[file := m1]> (issues a))) m1) as (m2 & -> & Hnone2 & Hsome2).
  { done. }
  { simpl. by rewrite lookup_insert_eq. }
  { intros i Hi. destruct (Hk i Hi) as [s Hs].
    destruct (Hsome i s Hs) as (s' & -> & _). eauto. }
  exists m2. split_and!.
  - unfold set_issues. simpl. by rewrite insert_insert_eq.
  - auto.
  - intros i s Hs. destruct (Hsome i s Hs) as (s1 & Hs1 & Hnd1 & Hel1).
    destruct (Hsome2 i s1 Hs1) as (s2 & Hs2 & Hnd2 & Hel2).
    exists s2. split_and!; [done|auto|]. intros z. rewrite Hel2, Hel1. tauto.
Qed.

Lemma line_adds_check file lines (p : list ascii → bool) (x : issue) :
  line_adds file lines
    (λ i z, ∃ line, (i, line) ∈ enumerate1 lines ∧ p line = true ∧ z = x)
    (for_lines file (λ i line, when (p line) (add_issue file i x))).
Proof.
  apply line_adds_of_adds.
  { intros i z (line & Hin & _). by eapply enumerate1_range. }
  eapply adds_ext; [|apply (adds_for_lines file lines
    (λ j line i z, p line = true ∧ i = j ∧ z = x))].
  - intros i z. split.
    + intros (j & line & Hin & Hp & -> & ->). by exists line.
    + intros (line & Hin & Hp & ->). by exists i, line.
  - intros j line _. apply adds_when, adds_add_issue.
Qed.

Lemma line_adds_s007 file lines :
  line_adds file lines
    (λ i z, ∃ line, (i, line) ∈ enumerate1 lines
       ∧ (re_match pattern_def line = true ∧ z = Named "S007" "def"
          ∨ re_match pattern_def line = false ∧ re_match pattern_class line = true
            ∧ z = Named "S007" "class"))
    (check_s007 file).
Proof.
  apply line_adds_of_adds.
  { intros i z (line & Hin & _). by eapply enumerate1_range. }
  eapply adds_ext; [|apply (adds_for_lines file lines
    (λ j line i z, i = j
       ∧ (re_match pattern_def line = true ∧ z = Named "S007" "def"
          ∨ re_match pattern_def line = false ∧ re_match pattern_class line = true
            ∧ z = Named "S007" "class")))].
  - intros i z. split.
    + intros (j & line & Hin & -> & H). by exists line.
    + intros (line & Hin & H). by exists i, line.
  - intros j line _. destruct (re_match pattern_def line).
    + eapply adds_ext; [|apply adds_add_issue]. naive_solver.
    + destruct (re_match pattern_class line).
      * eapply adds_ext; [|apply adds_add_issue]. naive_solver.
      * eapply adds_ext; [|apply adds_skip]. naive_solver.
Qed.

Lemma line_adds_s006 file lines :
  line_adds file lines
    (λ i z, (code_line lines i ∧ blank_line lines (i - 1) ∧ blank_line lines (i - 2)
             ∧ blank_line lines (i - 3)) ∧ z = Plain "S006")
    (check_s006 file).
Proof.
  intros a m Hl Hm Hkeys. unfold check_s006. rewrite Hl. unfold enumerate1.
  destruct (s006_loop_spec file lines 1 0 a m) as (m' & Hrun & Hm'); [done|done| |].
  { intros i Hi. apply Hkeys. lia. }
  exists m'. split_and!; [done| |].
  - intros i Hi. rewrite Hm', Hi. by destruct (hit_from lines 1 0 i).
  - intros i s Hs. rewrite Hm', Hs. pose proof (hit_from_lines lines i) as Hhit.
    destruct (hit_from lines 1 0 i); simpl.
    + exists (set_add (Plain "S006") s). split_and!; [done|apply set_add_NoDup|].
      intros z. rewrite set_add_elem, <-Hhit. tauto.
    + exists s. split_and!; [done..|]. intros z. rewrite <-Hhit.
      split; [by left|]. by intros [?|[? _]].
Qed.

Lemma line_adds_line_checks file lines :
  line_adds file lines
    (λ i z, ∃ line, (i, line) ∈ enumerate1 lines
       ∧ (s001_line line = true ∧ z = Plain "S001"
          ∨ s002_line line = true ∧ z = Plain "S002"
          ∨ is_Some (s003_line line) ∧ z = Plain "S003"
          ∨ s004_line line = true ∧ z = Plain "S004"
          ∨ s005_line line = true ∧ z = Plain "S005"
          ∨ (code_line lines i ∧ blank_line lines (i - 1) ∧ blank_line lines (i - 2)
             ∧ blank_line lines (i - 3)) ∧ z = Plain "S006"
          ∨ re_match pattern_def line = true ∧ z = Named "S007" "def"
          ∨ re_match pattern_def line = false ∧ re_match pattern_class line = true
            ∧ z = Named "S007" "class"))
    (line_checks file).
Proof.
  eapply line_adds_ext; [|
    apply line_adds_bind; [apply (line_adds_check file lines s001_line)|
    apply line_adds_bind; [apply (line_adds_check file lines s002_line)|
    apply line_adds_bind; [apply (line_adds_check file lines
                                    (λ line, bool_decide (is_Some (s003_line line))))|
    apply line_adds_bind; [apply (line_adds_check file lines s004_line)|
    apply line_adds_bind; [apply (line_adds_check file lines s005_line)|
    apply line_adds_bind; [apply line_adds_s006|apply line_adds_s007]]]]]]].
  intros i z. simpl. split.
  - intros [(line & Hin & ? & ->)|[(line & Hin & ? & ->)|[(line & Hin & ?%bool_decide_eq_true & ->)|
      [(line & Hin & ? & ->)|[(line & Hin & ? & ->)|[(Hc & ->)|(line & Hin & H)]]]]]];
      try (exists line; split; [done|]; tauto).
    pose proof Hc as ((Hi & l & Hl & _) & _).
    exists l. split; [by apply elem_of_enumerate1|]. tauto.
  - intros (line & Hin & [(? & ->)|[(? & ->)|[(? & ->)|[(? & ->)|[(? & ->)|[(? & ->)|H]]]]]]).
    + left. by exists line.
    + right; left. by exists line.
    + right; right; left. exists line. by rewrite bool_decide_eq_true.
    + right; right; right; left. by exists line.
    + right; right; right; right; left. by exists line.
    + right; right; right; right; right; left. done.
    + right; right; right; right; right; right. by exists line.
Qed.

(** X13.  The seven line checks of a file that [get_code] has read run to
    their end, none raising [KeyError], and only change the registry of that
    file.  There the keys stay the line numbers of the file, and the set of
    line [i] holds exactly the findings of the seven rules at that line: each
    check adds its own code where its own test holds, whatever the others
    found, and none removes a finding.  So a line can carry up to seven
    findings, and [S007] names [def] or [class], never both. *)
Theorem line_checks_findings (E : env) (a a1 : analyzer) (f : string) :
  get_code E a = Ok a1 →
  f ∈ filenames a →
  ∃ text m', file_text E f = Some text
    ∧ line_checks f a1 = Ok (set_issues a1 (<[f := m']> (issues a1)))
    ∧ (∀ i, is_Some (m' !! i) ↔ 1 ≤ i ≤ py_len (readlines text))
    ∧ ∀ i line, (i, line) ∈ enumerate1 (readlines text) →
        ∃ s, m' !! i = Some s ∧ NoDup s ∧ ∀ z, z ∈ s ↔
            s001_line line = true ∧ z = Plain "S001"
          ∨ s002_line line = true ∧ z = Plain "S002"
          ∨ is_Some (s003_line line) ∧ z = Plain "S003"
          ∨ s004_line line = true ∧ z = Plain "S004"
          ∨ s005_line line = true ∧ z = Plain "S005"
          ∨ (code_line (readlines text) i ∧ blank_line (readlines text) (i - 1)
             ∧ blank_line (readlines text) (i - 2) ∧ blank_line (readlines text) (i - 3))
            ∧ z = Plain "S006"
          ∨ re_match pattern_def line = true ∧ z = Named "S007" "def"
          ∨ re_match pattern_def line = false ∧ re_match pattern_class line = true
            ∧ z = Named "S007" "class".
Proof.
  intros Hread Hf. pose proof (get_code_spec E a a1 Hread) as (_ & _ & Hfiles).
  destruct (Hfiles f Hf) as (text & Ht & Hc & Hi).
  assert (∀ i, is_Some (empty_sets (readlines text) !! i) ↔ 1 ≤ i ≤ py_len (readlines text))
    as Hkeys.
  { intros i. rewrite lookup_empty_sets.
    case_bool_decide; split; [done|eauto|by intros [? ?]|done]. }
  destruct (line_adds_line_checks f (readlines text) a1 _ Hc Hi) as (m' & Hrun & Hnone & Hsome).
  { intros i. apply Hkeys. }
  exists text, m'. split_and!; [done..| |].
  - intros i. rewrite <-Hkeys. split.
    + intros [s Hs]. destruct (empty_sets (readlines text) !! i) eqn:He; [done|].
      apply Hnone in He. congruence.
    + intros [s Hs]. destruct (Hsome i s Hs) as (s' & -> & _). eauto.
  - intros i line Hin.
    assert (empty_sets (readlines text) !! i = Some []) as Hs.
    { rewrite lookup_empty_sets, bool_decide_eq_true_2; [done|]. by eapply enumerate1_range. }
    destruct (Hsome i [] Hs) as (s' & Hs' & Hnd & Hel).
    exists s'. split_and!; [done|apply Hnd; constructor|].
    intros z. rewrite Hel. split.
    + intros [Hz%elem_of_nil|(line' & Hin' & H)]; [done|].
      apply elem_of_enumerate1 in Hin as [_ Hin], Hin' as [_ Hin'].
      by simplify_eq.
    + intros H. right. by exists line.
Qed.

(** The theorem at a file whose only line breaks four rules. *)
Lemma line_checks_findings_witness :
  ∃ text m', file_text (one_file "a.py" (" def  f(): x = 1; #TODO" +:+ nl) (Some [])) "a.py"
             = Some text
    ∧ line_checks "a.py"
        (Analyzer None ["a.py"]%string
           {[ "a.py"%string := readlines (chars (" def  f(): x = 1; #TODO" +:+ nl)) ]}
           {[ "a.py"%string :=
                empty_sets (readlines (chars (" def  f(): x = 1; #TODO" +:+ nl))) ]})
      = Ok (Analyzer None ["a.py"]%string
              {[ "a.py"%string := readlines (chars (" def  f(): x = 1; #TODO" +:+ nl)) ]}
              (<["a.py"%string := m']>
                 {[ "a.py"%string :=
                      empty_sets (readlines (chars (" def  f(): x = 1; #TODO" +:+ nl))) ]})).
Proof.
  destruct (line_checks_findings
              (one_file "a.py" (" def  f(): x = 1; #TODO" +:+ nl) (Some []))
              (Analyzer None ["a.py"]%string ∅ ∅)
              (Analyzer None ["a.py"]%string
                 {[ "a.py"%string := readlines (chars (" def  f(): x = 1; #TODO" +:+ nl)) ]}
                 {[ "a.py"%string :=
                      empty_sets (readlines (chars (" def  f(): x = 1; #TODO" +:+ nl))) ]})
              "a.py"%string)
    as (text & m' & Ht & Hrun & _).
  - by vm_compute.
  - simpl. apply elem_of_cons. by left.
  - by exists text, m'.
Defined.

(** * Files that do not parse *)

Lemma analyze_file_frame E (g file : string) a a' :
  keys_ok g a → analyze_file E g a = Ok a' → file ≠ g →
  issues a' !! file = issues a !! file.
Proof.
  intros (lines & m & Hl & Hm & Hkeys) Hrun Hne. unfold analyze_file in Hrun.
  destruct (line_adds_line_checks g lines a m Hl Hm Hkeys) as (m1 & Hlex & _).
  rewrite Hlex in Hrun. simpl in Hrun. unfold check_ast in Hrun. simpl in Hrun.
  rewrite Hl in Hrun. destruct (ast_walk E (concat lines)) as [nodes|]; [|done].
  destruct (adds_for_each g lines finding _ nodes (λ n _, adds_node g lines n)
              (set_issues a (<[g := m1]> (issues a))) m1)
    as [(Hr & _)|(m2 & Hr & _)].
  - done.
  - simpl. by rewrite lookup_insert_eq.
  - rewrite Hr in Hrun. done.
  - rewrite Hr in Hrun. injection Hrun as <-. simpl.
    by rewrite !lookup_insert_ne.
Qed.

Lemma analyze_files_frame E (file : string) (l : list string) : ∀ a a',
  (∀ g, g ∈ l → keys_ok g a) → for_each l (analyze_file E) a = Ok a' → file ∉ l →
  issues a' !! file = issues a !! file.
Proof.
  induction l as [|g l IH]; intros a a' Hk; simpl.
  - by intros [= ->].
  - destruct (analyze_file E g a) as [a1|] eqn:Hg; simpl; [|done]. intros Hl Hnot.
    assert (keys_ok g a) as Hkg by (apply Hk, elem_of_cons; by left).
    rewrite (IH a1 a'); [| |done|].
    + eapply analyze_file_frame; [done..|]. intros ->. apply Hnot, elem_of_cons. by left.
    + intros f Hf. eapply keys_ok_same_keys; [by eapply analyze_file_same_keys|].
      apply Hk, elem_of_cons. by right.
    + intros Hin. apply Hnot, elem_of_cons. by right.
Qed.

(** C1, as the code has it.  No exception is caught anywhere.  When the
    text of [file] does not parse and the files before it were analyzed:
    the seven line checks of [file] run to their end and record their
    findings, so that the set of every line of [file] then holds what it
    held before and exactly the findings of the seven rules at that line
    (it held nothing before, unless [file] is also among the files before
    it); then [check_ast] raises the exception of [ast.parse], a
    [SyntaxError] for a text that is not Python.  The exception ends
    [make_analyze], so no file after [file] is analyzed, and it ends [main]
    before [show_msgs], so nothing is printed, for [file] or for any
    other: the findings just recorded are lost. *)
Theorem parse_failure_ends_the_run (E : env) (prog d : string) (pre post : list string)
    (file : string) (text : list ascii) (a1 a2 : analyzer) :
  (a ← get_filenames E (Analyzer (Some d) [] ∅ ∅); get_code E a) = Ok a1 →
  filenames a1 = pre ++ file :: post →
  for_each pre (analyze_file E) a1 = Ok a2 →
  file_text E file = Some text →
  ast_walk E text = None →
  (∃ m2 m3,
     issues a2 !! file = Some m2
     ∧ (file ∉ pre → m2 = empty_sets (readlines text))
     ∧ line_checks file a2 = Ok (set_issues a2 (<[file := m3]> (issues a2)))
     ∧ (∀ i line, (i, line) ∈ enumerate1 (readlines text) →
          ∃ s2 s3, m2 !! i = Some s2 ∧ m3 !! i = Some s3 ∧ ∀ z, z ∈ s3 ↔
              z ∈ s2
            ∨ s001_line line = true ∧ z = Plain "S001"
            ∨ s002_line line = true ∧ z = Plain "S002"
            ∨ is_Some (s003_line line) ∧ z = Plain "S003"
            ∨ s004_line line = true ∧ z = Plain "S004"
            ∨ s005_line line = true ∧ z = Plain "S005"
            ∨ (code_line (readlines text) i ∧ blank_line (readlines text) (i - 1)
               ∧ blank_line (readlines text) (i - 2)
               ∧ blank_line (readlines text) (i - 3))
              ∧ z = Plain "S006"
            ∨ re_match pattern_def line = true ∧ z = Named "S007" "def"
            ∨ re_match pattern_def line = false ∧ re_match pattern_class line = true
              ∧ z = Named "S007" "class")
     ∧ check_ast E file (set_issues a2 (<[file := m3]> (issues a2)))
       = Raise (parse_error E text))
  ∧ analyze_file E file a2 = Raise (parse_error E text)
  ∧ make_analyze E (Analyzer (Some d) [] ∅ ∅) = Raise (parse_error E text)
  ∧ main E [prog; d] = ([], Some (parse_error E text)).
Proof.
  intros Hread Hnames Hpre Htext Hparse.
  destruct (get_filenames E (Analyzer (Some d) [] ∅ ∅)) as [a0|] eqn:Ha0; simpl in Hread;
    [|done].
  pose proof (get_code_spec E a0 a1 Hread) as (_ & Hfn & Hfiles).
  assert (∀ f, f ∈ filenames a1 → keys_ok f a1) as Hkeys.
  { intros f Hf. rewrite Hfn in Hf. destruct (Hfiles f Hf) as (t & _ & Hc & Hi).
    by eapply empty_sets_keys_ok. }
  assert (∀ f, f ∈ pre → keys_ok f a1) as Hkpre.
  { intros f Hf. apply Hkeys. rewrite Hnames. apply elem_of_app. by left. }
  assert (same_keys a1 a2) as Hsame by by eapply analyze_files_same_keys.
  assert (file ∈ filenames a1) as Hfile.
  { rewrite Hnames. apply elem_of_app. right. apply elem_of_cons. by left. }
  assert (code a1 !! file = Some (readlines text)
          ∧ issues a1 !! file = Some (empty_sets (readlines text))) as [Hc1 Hi1].
  { rewrite Hfn in Hfile. destruct (Hfiles file Hfile) as (t & Ht & ? & ?).
    rewrite Htext in Ht. by injection Ht as <-. }
  destruct (keys_ok_same_keys file a1 a2 Hsame (Hkeys file Hfile))
    as (lines & m2 & Hc2 & Hi2 & Hk2).
  assert (lines = readlines text) as ->.
  { destruct Hsame as (_ & _ & Hcode & _). rewrite Hcode, Hc1 in Hc2. by injection Hc2. }
  destruct (line_adds_line_checks file (readlines text) a2 m2 Hc2 Hi2 Hk2)
    as (m3 & Hlex & _ & Hsome).
  assert (check_ast E file (set_issues a2 (<[file := m3]> (issues a2)))
          = Raise (parse_error E text)) as Hast.
  { unfold check_ast. simpl. by rewrite Hc2, readlines_concat, Hparse. }
  assert (analyze_file E file a2 = Raise (parse_error E text)) as Hfile2.
  { unfold analyze_file. by rewrite Hlex. }
  assert (make_analyze E (Analyzer (Some d) [] ∅ ∅) = Raise (parse_error E text)) as Hmake.
  { unfold make_analyze. rewrite Ha0. simpl. rewrite Hread. simpl.
    rewrite Hnames, for_each_app, Hpre. simpl. by rewrite Hfile2. }
  split_and!; [|done|done|].
  - exists m2, m3. split_and!; [done| |done| |done].
    + intros Hnot. rewrite (analyze_files_frame E file pre a1 a2 Hkpre Hpre Hnot) in Hi2.
      rewrite Hi1 in Hi2. by injection Hi2.
    + intros i line Hin. destruct (Hk2 i) as [s2 Hs2]; [by eapply enumerate1_range|].
      destruct (Hsome i s2 Hs2) as (s3 & Hs3 & _ & Hel).
      exists s2, s3. split_and!; [done..|]. intros z. rewrite Hel. split.
      * intros [?|(line' & Hin' & H)]; [by left|]. right.
        apply elem_of_enumerate1 in Hin as [_ Hin], Hin' as [_ Hin']. by simplify_eq.
      * intros [?|H]; [by left|]. right. by exists line.
  - unfold main, get_user_input. simpl. unfold init. by rewrite Hmake.
Qed.

(** The theorem at a directory of three files whose second file has a
    stray semicolon on its first line and leaves a parenthesis open on its
    second: the semicolon is recorded, and the run ends with the exception
    before the third file is looked at. *)
Lemma parse_failure_ends_the_run_witness :
  (∃ m2 m3 : gmap Z (list issue),
     m2 !! 1 = Some [] ∧ (∀ z, z ∈ default [] (m3 !! 1) ↔ z = Plain "S003"))
  ∧ main (three_files ("v = 1" +:+ nl) ("x = 1;" +:+ nl +:+ "y = (" +:+ nl)
            (Some ("w = 2;" +:+ nl)) [Name "v" Store 1] None [Name "w" Store 1])
         ["prog"; "d"]%string
    = ([], Some SyntaxError).
Proof.
  pose (E := three_files ("v = 1" +:+ nl) ("x = 1;" +:+ nl +:+ "y = (" +:+ nl)
               (Some ("w = 2;" +:+ nl)) [Name "v" Store 1] None [Name "w" Store 1]).
  assert (∃ a1, (a ← get_filenames E (Analyzer (Some "d"%string) [] ∅ ∅); get_code E a)
                = Ok a1 ∧ filenames a1 = ["d/a.py"; "d/b.py"; "d/c.py"]%string
                ∧ ∃ a2, for_each ["d/a.py"%string] (analyze_file E) a1 = Ok a2)
    as (a1 & Hread & Hnames & a2 & Hpre).
  { eexists. split; [vm_compute; reflexivity|]. split; [reflexivity|].
    eexists. vm_compute. reflexivity. }
  pose proof (parse_failure_ends_the_run E "prog" "d" ["d/a.py"]%string ["d/c.py"]%string
              "d/b.py" (chars ("x = 1;" +:+ nl +:+ "y = (" +:+ nl)) a1 a2
              Hread Hnames Hpre eq_refl eq_refl) as H.
  destruct H as ((m2 & m3 & _ & Hm2 & _ & Hsets & _) & _ & _ & Hmain).
  split; [|exact Hmain].
  exists m2, m3.
  destruct (Hsets 1 (chars ("x = 1;" +:+ nl))) as (s2 & s3 & Hs2 & Hs3 & Hel).
  { apply elem_of_enumerate1. split; [lia|]. reflexivity. }
  assert (m2 = empty_sets (readlines (chars ("x = 1;" +:+ nl +:+ "y = (" +:+ nl)))) as Hm2'.
  { apply Hm2. intros [=]%list_elem_of_singleton. }
  assert (s2 = []) as -> by (rewrite Hm2' in Hs2; vm_compute in Hs2; congruence).
  split; [rewrite Hm2'; by vm_compute|]. rewrite Hs3. cbn [default].
  intros z. rewrite Hel. split.
  - intros [Hz%elem_of_nil|[[H _]|[[H _]|[[_ Hz]|[[H _]|[[H _]|[[H _]|[[H _]|(_ & H & _)]]]]]]]].
    + destruct Hz.
    + vm_compute in H. discriminate H.
    + vm_compute in H. discriminate H.
    + exact Hz.
    + vm_compute in H. discriminate H.
    + vm_compute in H. discriminate H.
    + destruct H as (_ & (Hb & _) & _). lia.
    + vm_compute in H. discriminate H.
    + vm_compute in H. discriminate H.
  - intros ->. right; right; right; left. split; [|reflexivity]. vm_compute. by eexists.
Defined.

(** C1 as stated fails: the file has a stray semicolon on line 1 and does
    not parse; nothing is printed and the run ends with the exception. *)
Lemma parse_failure_counterexample :
  ¬ (∀ (E : env) (prog file : string) (text : list ascii) (n : nat) (line : list ascii),
       isdir E file = false →
       file_text E file = Some text →
       ast_walk E text = None →
       readlines text !! n = Some line →
       is_Some (s003_line line) →
       ∃ out, main E [prog; file] = (out, None)
              ∧ show_msg (Report file (Z.of_nat n + 1) (Plain "S003")) ∈ out).
Proof.
  intros H.
  destruct (H (one_file "a.py" ("x = 1;" +:+ nl +:+ "y = (" +:+ nl) None)
              "prog"%string "a.py"%string
              (chars ("x = 1;" +:+ nl +:+ "y = (" +:+ nl)) 0%nat (chars ("x = 1;" +:+ nl)))
    as (out & Hmain & _);
    [by vm_compute|by vm_compute|by vm_compute|by vm_compute|vm_compute; eauto|].
  vm_compute in Hmain. discriminate Hmain.
Qed.
